(** * The per-stream Delta xDS processor

    A shallow embedding of [pkg/server/delta/v2/server.go]: the [watches]
    store, the closures [send], [update], [process] and [processAll] of
    [processDelta], its request arm and its deferred teardown.

    The processor is a single goroutine in a [select] loop.  Everything it
    observes from the outside is made explicit:
    - which arm of the [select] fires is an [Input] of the run;
    - the callback sink, the transport and the cache answer as functions of
      the calls made so far on the stream (they may be stateful);
    - every call the processor makes is appended to a [trace]. *)

From Stdlib Require Import ZArith String DecimalString DecimalPos DecimalZ.
From stdpp Require Import base gmap strings list.

Open Scope Z_scope.

(** ** Errors and results *)

(** The two gRPC codes the processor uses with [status.Errorf]. *)
Inductive Code := InvalidArgument | Unavailable.

(** A Go [error] value: built by [errors.New] or by [status.Errorf].
    Callbacks, the transport and the cache may hand back any of them. *)
Inductive error :=
| errors_New (msg : string)
| status_Errorf (c : Code) (msg : string).

(** A Go [(value, error)] pair of which the caller reads the value only
    when the error is nil. *)
Inductive result (A : Type) :=
| Ok (a : A)
| Err (e : error).
Arguments Ok {A} a.
Arguments Err {A} e.

(** ** Machine integers and [strconv] *)

(** [int64] arithmetic wraps around. *)
Definition wrap64 (z : Z) : Z := (z + 2 ^ 63) mod 2 ^ 64 - 2 ^ 63.

(** [strconv.FormatInt(i, 10)]: an optional minus sign and the decimal
    digits, without leading zeros. *)
Definition FormatInt (i : Z) : string := NilZero.string_of_int (Z.to_int i).

(** Reading a nonce back as an integer (the inverse of [FormatInt]). *)
Definition ParseInt (s : string) : option Z :=
  Z.of_int <$> NilZero.int_of_string s.

(** ** Wire types (protobuf messages, declared outside this package) *)

Module core.
(** [core.Node]: the client identity; the processor never looks inside. *)
Record Node := { Id : string; Cluster : string }.
End core.

Module rpc.
(** [google.rpc.Status], the type of [ErrorDetail]. *)
Record Status := { Code : Z; Message : string }.
End rpc.

Module discovery.
(** [*discovery.DeltaDiscoveryRequest]; a nil [Node] or [ErrorDetail]
    pointer is [None]. *)
Record DeltaDiscoveryRequest := {
  Node : option core.Node;
  TypeUrl : string;
  ResourceNamesSubscribe : list string;
  ResourceNamesUnsubscribe : list string;
  InitialResourceVersions : gmap string string;
  ResponseNonce : string;
  ErrorDetail : option rpc.Status
}.

Definition set_Node (n : option core.Node) (r : DeltaDiscoveryRequest) :=
  {| Node := n; TypeUrl := TypeUrl r;
     ResourceNamesSubscribe := ResourceNamesSubscribe r;
     ResourceNamesUnsubscribe := ResourceNamesUnsubscribe r;
     InitialResourceVersions := InitialResourceVersions r;
     ResponseNonce := ResponseNonce r; ErrorDetail := ErrorDetail r |}.

Definition set_TypeUrl (t : string) (r : DeltaDiscoveryRequest) :=
  {| Node := Node r; TypeUrl := t;
     ResourceNamesSubscribe := ResourceNamesSubscribe r;
     ResourceNamesUnsubscribe := ResourceNamesUnsubscribe r;
     InitialResourceVersions := InitialResourceVersions r;
     ResponseNonce := ResponseNonce r; ErrorDetail := ErrorDetail r |}.

(** [*discovery.DeltaDiscoveryResponse]; resources are kept as
    (name, version) pairs. *)
Record DeltaDiscoveryResponse := {
  SystemVersionInfo : string;
  Resources : list (string * string);
  ResponseTypeUrl : string;
  RemovedResources : list string;
  Nonce : string
}.

Definition set_Nonce (n : string) (r : DeltaDiscoveryResponse) :=
  {| SystemVersionInfo := SystemVersionInfo r; Resources := Resources r;
     ResponseTypeUrl := ResponseTypeUrl r;
     RemovedResources := RemovedResources r; Nonce := n |}.
End discovery.

Module cache.
(** Modelled from the spec: [cache.DeltaVersionInfo] is declared in
    pkg/cache, outside the sources at hand; the spec describes it as an
    opaque string identifying the version the client knows. *)
Definition DeltaVersionInfo := string.

(** [cache.DeltaResponse] is an interface of four getters; a value of it
    is the record of what they return.  A nil map is [None].  The request
    and, when the conversion succeeds, the response are taken to be
    non-nil pointers: the processor dereferences them unchecked. *)
Record DeltaResponse := {
  GetDeltaRequest : discovery.DeltaDiscoveryRequest;
  GetDeltaDiscoveryResponse : result discovery.DeltaDiscoveryResponse;
  GetSystemVersion : result string;
  GetDeltaVersionMap : result (option (gmap string DeltaVersionInfo))
}.
End cache.

Module stream.
(** [stream.StreamState], with the three fields the processor sets. *)
Record StreamState := {
  Nonce : string;
  SystemVersion : string;
  ResourceVersions : option (gmap string cache.DeltaVersionInfo)
}.

(** The zero value [stream.StreamState{}]. *)
Definition zero : StreamState :=
  {| Nonce := ""; SystemVersion := ""; ResourceVersions := None |}.

Definition GetVersionMap (s : StreamState) := ResourceVersions s.

Definition set_ResourceVersions
    (m : option (gmap string cache.DeltaVersionInfo)) (s : StreamState) :=
  {| Nonce := Nonce s; SystemVersion := SystemVersion s;
     ResourceVersions := m |}.
End stream.

(** ** What the processor does to the outside *)

(** The identity of a [func()] cancel handle returned by the cache. *)
Definition CancelFunc := positive.

Inductive Event :=
| CallOnDeltaStreamOpen (streamID : Z) (typeURL : string)
| CallOnDeltaStreamClosed (streamID : Z)
| CallOnStreamDeltaRequest (streamID : Z)
    (req : discovery.DeltaDiscoveryRequest)
| CallOnStreamDeltaResponse (streamID : Z)
    (req : discovery.DeltaDiscoveryRequest)
    (out : discovery.DeltaDiscoveryResponse)
| CallSend (out : discovery.DeltaDiscoveryResponse)
| CallCancel (cancel : CancelFunc)
| CallCreateDeltaWatch (req : discovery.DeltaDiscoveryRequest)
    (state : stream.StreamState)
| LogDebugf (msg : string)
| LogErrorf (format : string) (detail : rpc.Status).

(** The two callbacks that return an error; the first argument is the
    trace of the stream so far.  [OnDeltaStreamClosed] and
    [OnStreamDeltaResponse] return nothing and only show in the trace. *)
Record Callbacks := {
  OnDeltaStreamOpen : list Event → Z → string → option error;
  OnStreamDeltaRequest :
    list Event → Z → discovery.DeltaDiscoveryRequest → option error
}.

(** [stream.DeltaStream]: only [Send] is called by the processor. *)
Record DeltaStream := {
  Send : list Event → discovery.DeltaDiscoveryResponse → option error
}.

(** The [server] struct.  [callbacks = None] and [log = false] stand for
    nil interfaces.  The cache is its [CreateDeltaWatch], which returns a
    cancel handle, possibly nil; like the callbacks and [Send] it is taken
    to return.  What a watch sends on the channel, at once or later, is a
    [Produce] input of the run. *)
Record server := {
  CreateDeltaWatch :
    list Event → discovery.DeltaDiscoveryRequest → stream.StreamState →
    option CancelFunc;
  callbacks : option Callbacks;
  streamCount : Z;
  xdsBufferSize : Z;
  muxBufferSize : Z;
  log : bool
}.

(** ** The [watches] store *)

(** [deltaResponses] holds, oldest first, the responses a receive on the
    channel can obtain: the buffered ones and then those of producers
    blocked in their send.  The buffer size decides only whether a producer
    blocks, which the processor never observes; it is kept in
    [deltaResponsesCap].  The mutex [mu] is not modelled: the processor is
    the only goroutine touching the store. *)
Record watches := {
  deltaStreamStates : gmap string stream.StreamState;
  deltaResponses : list (option cache.DeltaResponse);
  deltaResponsesCap : Z;
  deltaCancellations : gmap string (option CancelFunc);
  deltaNonces : gmap string string
}.

Definition set_deltaStreamStates (m : gmap string stream.StreamState)
    (v : watches) : watches :=
  {| deltaStreamStates := m; deltaResponses := deltaResponses v;
     deltaResponsesCap := deltaResponsesCap v;
     deltaCancellations := deltaCancellations v;
     deltaNonces := deltaNonces v |}.

Definition set_deltaResponses (q : list (option cache.DeltaResponse))
    (v : watches) : watches :=
  {| deltaStreamStates := deltaStreamStates v; deltaResponses := q;
     deltaResponsesCap := deltaResponsesCap v;
     deltaCancellations := deltaCancellations v;
     deltaNonces := deltaNonces v |}.

Definition set_deltaCancellations (m : gmap string (option CancelFunc))
    (v : watches) : watches :=
  {| deltaStreamStates := deltaStreamStates v;
     deltaResponses := deltaResponses v;
     deltaResponsesCap := deltaResponsesCap v;
     deltaCancellations := m; deltaNonces := deltaNonces v |}.

Definition set_deltaNonces (m : gmap string string) (v : watches) : watches :=
  {| deltaStreamStates := deltaStreamStates v;
     deltaResponses := deltaResponses v;
     deltaResponsesCap := deltaResponsesCap v;
     deltaCancellations := deltaCancellations v; deltaNonces := m |}.

(** The variables of [processDelta] that its closures share, and the
    trace of the calls made so far. *)
Record locals := {
  values : watches;
  streamNonce : Z;
  node : core.Node;
  trace : list Event
}.

Definition set_values (v : watches) (l : locals) : locals :=
  {| values := v; streamNonce := streamNonce l; node := node l;
     trace := trace l |}.

Definition set_streamNonce (n : Z) (l : locals) : locals :=
  {| values := values l; streamNonce := n; node := node l;
     trace := trace l |}.

Definition set_node (n : core.Node) (l : locals) : locals :=
  {| values := values l; streamNonce := streamNonce l; node := n;
     trace := trace l |}.

Definition emit (e : Event) (l : locals) : locals :=
  {| values := values l; streamNonce := streamNonce l; node := node l;
     trace := trace l ++ [e] |}.

(** How an arm of the [select] ends: the loop goes on, or [processDelta]
    returns ([Return None] is [return nil]). *)
Inductive outcome :=
| Continue
| Return (err : option error).

(** What happens next on the stream. *)
Inductive Input :=
| CtxDone                       (* <-s.ctx.Done() *)
| RecvResponse                  (* resp := <-values.deltaResponses *)
| RecvRequest (req : option discovery.DeltaDiscoveryRequest)
                                (* req, more := <-reqCh, more = true *)
| ReqChClosed                   (* req, more := <-reqCh, more = false *)
| Produce (resp : option cache.DeltaResponse).
                                (* a watch sends on values.deltaResponses *)

Section Processor.

(** [resource.AnyType] and the type URLs that [cache.GetResponseTypeURL]
    gives for the response types below [types.UnknownType] are declared
    outside the sources at hand. *)
Variable AnyType : string.
Variable ResponseTypeURLs : list string.

(** [initStreamState]: an empty entry for every known type. *)
Definition initStreamState : gmap string stream.StreamState :=
  foldl (λ m t, <[t := {| stream.Nonce := ""; stream.SystemVersion := "";
                          stream.ResourceVersions := Some ∅ |}]> m)
        ∅ ResponseTypeURLs.

(** The method [Init] of [watches]. *)
Definition Init (bufferSize : Z) : watches :=
  {| deltaStreamStates := initStreamState;
     deltaResponses := [];
     deltaResponsesCap := bufferSize;
     deltaCancellations := ∅;
     deltaNonces := ∅ |}.

(** The method [Cancel] of [watches]: every non-nil handle is called.  Go
    ranges over the map in no fixed order; here it is the order of
    [map_to_list]. *)
Definition Cancel (v : watches) (l : locals) : locals :=
  foldl (λ l kc, match kc.2 with
                 | Some cancel => emit (CallCancel cancel) l
                 | None => l
                 end)
        l (map_to_list (deltaCancellations v)).

Variable s : server.
Variable str : DeltaStream.
Variable streamID : Z.

(** The closure [send]. *)
Definition send (l : locals) (resp : option cache.DeltaResponse)
    : locals * (string * option error) :=
  match resp with
  | None => (l, ("", Some (errors_New "missing response")))
  | Some r =>
    match cache.GetDeltaDiscoveryResponse r with
    | Err e => (l, ("", Some e))
    | Ok out =>
      let l := set_streamNonce (wrap64 (streamNonce l + 1)) l in
      let out := discovery.set_Nonce (FormatInt (streamNonce l)) out in
      let l := match callbacks s with
               | Some _ =>
                 emit (CallOnStreamDeltaResponse streamID
                         (cache.GetDeltaRequest r) out) l
               | None => l
               end in
      let err := Send str (trace l) out in
      (emit (CallSend out) l, (discovery.Nonce out, err))
    end
  end.

(** The closure [update]. *)
Definition update (resp : cache.DeltaResponse) (nonce : string)
    : stream.StreamState * option error :=
  match cache.GetSystemVersion resp with
  | Err e => (stream.zero, Some e)
  | Ok sv =>
    match cache.GetDeltaVersionMap resp with
    | Err e => (stream.zero, Some e)
    | Ok vm =>
      ({| stream.Nonce := nonce; stream.SystemVersion := sv;
          stream.ResourceVersions := vm |}, None)
    end
  end.

(** The closure [process].  The tuple assignment
    [values.deltaStreamStates[typeURL], err = update(resp, nonce)] stores
    the first result of [update] whether or not [err] is nil. *)
Definition process (l : locals) (resp : option cache.DeltaResponse)
    : locals * option error :=
  let '(l, (nonce, err)) := send l resp in
  match err, resp with
  | Some e, _ => (l, Some e)
  | None, None => (l, None)   (* not reached: [send] refuses nil *)
  | None, Some r =>
    let typeURL := discovery.TypeUrl (cache.GetDeltaRequest r) in
    let v := values l in
    let v := set_deltaNonces (<[typeURL := nonce]> (deltaNonces v)) v in
    let v := set_deltaCancellations
               (<[typeURL := None]> (deltaCancellations v)) v in
    let '(state, err) := update r nonce in
    let v := set_deltaStreamStates
               (<[typeURL := state]> (deltaStreamStates v)) v in
    (set_values v l, err)
  end.

(** The closure [processAll]: a non-blocking receive per turn, until the
    channel has nothing to give or [process] fails.  [process] leaves
    the channel alone, so the turns run over the responses pending at
    the first one. *)
Fixpoint drain (pending : list (option cache.DeltaResponse)) (l : locals)
    : locals * option error :=
  match pending with
  | [] => (l, None)
  | resp :: rest =>
    match process (set_values (set_deltaResponses rest (values l)) l) resp
    with
    | (l, Some e) => (l, Some e)
    | (l, None) => drain rest l
    end
  end.

Definition processAll (l : locals) : locals * option error :=
  drain (deltaResponses (values l)) l.

(** The method [unsubscribe] of [server].  It deletes from the map it is
    given, in place; the caller below writes the result back to the entry
    of the store that owns the map.  Deleting from a nil map does
    nothing. *)
Definition unsubscribe (resources : list string)
    (sv : option (gmap string cache.DeltaVersionInfo)) (l : locals)
    : option (gmap string cache.DeltaVersionInfo) * locals :=
  foldl (λ '(sv, l) resource,
           (delete resource <$> sv,
            if log s
            then emit (LogDebugf ("unsubscribing from resource: "
                                    +:+ resource)) l
            else l))
        (sv, l) resources.

(** Lines 317-337 of the request arm: cancel, drain and watch again, when
    the type is new on the stream or the request acknowledges the last
    response of its type.  [values.deltaStreamStates] is never nil after
    [Init], so the guard on it is always passed. *)
Definition reconcile (l : locals) (req : discovery.DeltaDiscoveryRequest)
    (nonce : string) : locals * outcome :=
  let typeURL := discovery.TypeUrl req in
  let proceed := match deltaNonces (values l) !! typeURL with
                 | None => true
                 | Some responseNonce => bool_decide (responseNonce = nonce)
                 end in
  if proceed then
    let '(l, err) :=
      match deltaCancellations (values l) !! typeURL with
      | Some (Some cancel) => processAll (emit (CallCancel cancel) l)
      | _ => (l, None)
      end in
    match err with
    | Some e => (l, Return (Some e))
    | None =>
      let state :=
        default stream.zero (deltaStreamStates (values l) !! typeURL) in
      let cancel := CreateDeltaWatch s (trace l) req state in
      let l := emit (CallCreateDeltaWatch req state) l in
      (set_values
         (set_deltaCancellations
            (<[typeURL := cancel]> (deltaCancellations (values l)))
            (values l)) l,
       Continue)
    end
  else (l, Continue).

Variable defaultTypeURL : string.

(** The arm [case req, more := <-reqCh] with [more] true.  The request is
    a pointer: what the arm writes into it is what the callback and the
    cache are handed. *)
Definition onRequest (l : locals)
    (req : option discovery.DeltaDiscoveryRequest) : locals * outcome :=
  match req with
  | None => (l, Return (Some (status_Errorf Unavailable "empty request")))
  | Some req =>
    let l := match discovery.ErrorDetail req with
             | Some detail =>
               if log s
               then emit (LogErrorf "received error from envoy: %s" detail) l
               else l
             | None => l
             end in
    let '(l, req) := match discovery.Node req with
                     | Some n => (set_node n l, req)
                     | None => (l, discovery.set_Node (Some (node l)) req)
                     end in
    let nonce := discovery.ResponseNonce req in
    if decide (defaultTypeURL = AnyType ∧ discovery.TypeUrl req = "")
    then (l, Return (Some (status_Errorf InvalidArgument
                             "type URL is required for ADS")))
    else
      let req := if decide (defaultTypeURL ≠ AnyType
                            ∧ discovery.TypeUrl req = "")
                 then discovery.set_TypeUrl defaultTypeURL req
                 else req in
      let l :=
        match discovery.ResourceNamesUnsubscribe req with
        | [] => l
        | u =>
          let typeURL := discovery.TypeUrl req in
          let '(sv, l) :=
            unsubscribe u
              (stream.GetVersionMap
                 (default stream.zero
                    (deltaStreamStates (values l) !! typeURL))) l in
          set_values
            (set_deltaStreamStates
               (alter (stream.set_ResourceVersions sv) typeURL
                  (deltaStreamStates (values l)))
               (values l)) l
        end in
      match callbacks s with
      | Some cb =>
        let err := OnStreamDeltaRequest cb (trace l) streamID req in
        let l := emit (CallOnStreamDeltaRequest streamID req) l in
        match err with
        | Some e => (l, Return (Some e))
        | None => reconcile l req nonce
        end
      | None => reconcile l req nonce
      end
  end.

(** One turn of the [for { select { ... } }] loop.  [RecvResponse] on a
    channel with nothing to give is an arm that cannot fire: nothing
    happens. *)
Definition step (l : locals) (i : Input) : locals * outcome :=
  match i with
  | CtxDone =>
    (if log s
     then emit (LogDebugf
                  "received signal to end! closing delta processor...") l
     else l, Return None)
  | RecvResponse =>
    match deltaResponses (values l) with
    | [] => (l, Continue)
    | resp :: rest =>
      match process (set_values (set_deltaResponses rest (values l)) l) resp
      with
      | (l, Some e) => (l, Return (Some e))
      | (l, None) => (l, Continue)
      end
    end
  | RecvRequest req => onRequest l req
  | ReqChClosed => (l, Return None)
  | Produce resp =>
    (set_values
       (set_deltaResponses (deltaResponses (values l) ++ [resp])
          (values l)) l,
     Continue)
  end.

(** The loop over what happens on the stream; [Continue] at the end is a
    processor blocked in its [select]. *)
Fixpoint loop (l : locals) (inputs : list Input) : locals * outcome :=
  match inputs with
  | [] => (l, Continue)
  | i :: inputs =>
    match step l i with
    | (l, Continue) => loop l inputs
    | (l, Return err) => (l, Return err)
    end
  end.

(** The deferred function. *)
Definition teardown (l : locals) : locals :=
  let l := Cancel (values l) l in
  match callbacks s with
  | Some _ => emit (CallOnDeltaStreamClosed streamID) l
  | None => l
  end.

End Processor.

(** [processDelta], run on what happens on the stream.  The [defer] is
    registered before the stream-open callback is invoked, so it runs on
    every return. *)
Definition processDelta (AnyType : string) (ResponseTypeURLs : list string)
    (s : server) (str : DeltaStream) (defaultTypeURL : string)
    (inputs : list Input) : locals * outcome :=
  let streamID := wrap64 (streamCount s + 1) in
  let bufferSize := if decide (defaultTypeURL = AnyType)
                    then muxBufferSize s else xdsBufferSize s in
  let l := {| values := Init ResponseTypeURLs bufferSize; streamNonce := 0;
              node := {| core.Id := ""; core.Cluster := "" |};
              trace := [] |} in
  let '(l, out) :=
    match callbacks s with
    | Some cb =>
      let err := OnDeltaStreamOpen cb (trace l) streamID defaultTypeURL in
      let l := emit (CallOnDeltaStreamOpen streamID defaultTypeURL) l in
      match err with
      | Some e => (l, Return (Some e))
      | None => loop AnyType s str streamID defaultTypeURL l inputs
      end
    | None => loop AnyType s str streamID defaultTypeURL l inputs
    end in
  match out with
  | Continue => (l, Continue)
  | Return err => (teardown s streamID l, Return err)
  end.

(** ** Reading a trace *)

(** The calls made between two states of one run. *)
Definition emitted (l l' : locals) : list Event :=
  drop (length (trace l)) (trace l').

Definition isLog (e : Event) : bool :=
  match e with LogDebugf _ | LogErrorf _ _ => true | _ => false end.

Definition isStreamRequest (e : Event) : bool :=
  match e with CallOnStreamDeltaRequest _ _ => true | _ => false end.

Definition isResponseEvent (e : Event) : bool :=
  match e with
  | CallOnStreamDeltaResponse _ _ _ | CallSend _ => true
  | _ => false
  end.

Definition isCancel (e : Event) : bool :=
  match e with CallCancel _ => true | _ => false end.

Definition isCreateDeltaWatch (e : Event) : bool :=
  match e with CallCreateDeltaWatch _ _ => true | _ => false end.

Definition isClosed (e : Event) : bool :=
  match e with CallOnDeltaStreamClosed _ => true | _ => false end.

(** What the request arm emits before it looks at the nonce. *)
Definition isPreamble (e : Event) : bool := isLog e || isStreamRequest e.

(** The calls made from inside the loop: all but stream-open and
    stream-closed. *)
Definition isLoopEvent (e : Event) : bool :=
  match e with
  | CallOnDeltaStreamOpen _ _ | CallOnDeltaStreamClosed _ => false
  | _ => true
  end.

(** The number of calls of [CreateDeltaWatch] and of
    [OnDeltaStreamClosed] in a trace. *)
Definition watchesCreated (tr : list Event) : nat :=
  length (List.filter isCreateDeltaWatch tr).

Definition closedCount (tr : list Event) : nat :=
  length (List.filter isClosed tr).

(** The responses handed to [Send], in order. *)
Definition sent (tr : list Event) : list discovery.DeltaDiscoveryResponse :=
  omap (λ e, match e with CallSend out => Some out | _ => None end) tr.

(** [processedAs resp out]: [out] is the serialised form of [resp], stamped
    with a nonce. *)
Definition processedAs (resp : option cache.DeltaResponse)
    (out : discovery.DeltaDiscoveryResponse) : Prop :=
  ∃ r o, resp = Some r ∧ cache.GetDeltaDiscoveryResponse r = Ok o
         ∧ out = discovery.set_Nonce (discovery.Nonce out) o.

(** [handedOver req e]: if [e] hands a request to the callback sink or to
    the cache, the request is [req]. *)
Definition handedOver (req : discovery.DeltaDiscoveryRequest) (e : Event)
    : Prop :=
  match e with
  | CallOnStreamDeltaRequest _ r | CallCreateDeltaWatch r _ => r = req
  | _ => True
  end.

(** ** The pieces of the closures and of the request arm *)

(** The response as [send] stamps it in state [l]. *)
Definition stamped (l : locals) (out : discovery.DeltaDiscoveryResponse)
    : discovery.DeltaDiscoveryResponse :=
  discovery.set_Nonce (FormatInt (wrap64 (streamNonce l + 1))) out.

(** The stream-response callback, when there is a sink. *)
Definition responseCalls (s : server) (streamID : Z)
    (r : cache.DeltaResponse) (out : discovery.DeltaDiscoveryResponse)
    : list Event :=
  match callbacks s with
  | Some _ =>
    [CallOnStreamDeltaResponse streamID (cache.GetDeltaRequest r) out]
  | None => []
  end.

(** The line logged for a request that carries an error detail. *)
Definition nackLog (s : server) (req : discovery.DeltaDiscoveryRequest)
    : list Event :=
  match discovery.ErrorDetail req with
  | Some detail =>
    if log s then [LogErrorf "received error from envoy: %s" detail] else []
  | None => []
  end.

(** The node the stream remembers once the request has been read. *)
Definition rehydrated (l : locals) (req : discovery.DeltaDiscoveryRequest)
    : core.Node :=
  default (node l) (discovery.Node req).

(** The type URL the request carries once the default has been filled in. *)
Definition resolvedTypeUrl (AnyType defaultTypeURL : string)
    (req : discovery.DeltaDiscoveryRequest) : string :=
  if decide (defaultTypeURL ≠ AnyType ∧ discovery.TypeUrl req = "")
  then defaultTypeURL else discovery.TypeUrl req.

(** The request as the callback and the cache are handed it. *)
Definition normalised (AnyType defaultTypeURL : string) (l : locals)
    (req : discovery.DeltaDiscoveryRequest)
    : discovery.DeltaDiscoveryRequest :=
  discovery.set_TypeUrl (resolvedTypeUrl AnyType defaultTypeURL req)
    (discovery.set_Node (Some (rehydrated l req)) req).

(** The stream-request callback, when there is a sink: the call made and
    its verdict. *)
Definition requestCalls (s : server) (streamID : Z)
    (req : discovery.DeltaDiscoveryRequest) : list Event :=
  match callbacks s with
  | Some _ => [CallOnStreamDeltaRequest streamID req]
  | None => []
  end.

Definition requestVerdict (s : server) (streamID : Z) (tr : list Event)
    (req : discovery.DeltaDiscoveryRequest) : option error :=
  match callbacks s with
  | Some cb => OnStreamDeltaRequest cb tr streamID req
  | None => None
  end.

(** The watch decision of the request arm, read on the store: the type is
    new on the stream, or the nonce is the last one sent for it. *)
Definition newOrAck (v : watches) (t nonce : string) : Prop :=
  deltaNonces v !! t = None ∨ deltaNonces v !! t = Some nonce.

(** The cancel call of the request arm, when the type has a live handle. *)
Definition cancelCalls (v : watches) (t : string) : list Event :=
  match deltaCancellations v !! t with
  | Some (Some cancel) => [CallCancel cancel]
  | _ => []
  end.

(** The state in which a watch has just been registered. *)
Definition watching (s : server) (l : locals)
    (req : discovery.DeltaDiscoveryRequest) : locals :=
  let t := discovery.TypeUrl req in
  let state := default stream.zero (deltaStreamStates (values l) !! t) in
  {| values :=
       set_deltaCancellations
         (<[t := CreateDeltaWatch s (trace l) req state]>
            (deltaCancellations (values l))) (values l);
     streamNonce := streamNonce l; node := node l;
     trace := trace l ++ [CallCreateDeltaWatch req state] |}.

(** An input that leaves the remembered node as it is: anything but a
    request that carries a node. *)
Definition keepsNode (i : Input) : Prop :=
  match i with
  | RecvRequest (Some req) => discovery.Node req = None
  | _ => True
  end.

(** The state in which [processDelta] enters its loop, the stream-open
    callback called if there is a sink. *)
Definition entered (AnyType : string) (ResponseTypeURLs : list string)
    (s : server) (defaultTypeURL : string) : locals :=
  {| values := Init ResponseTypeURLs
                 (if decide (defaultTypeURL = AnyType)
                  then muxBufferSize s else xdsBufferSize s);
     streamNonce := 0;
     node := {| core.Id := ""; core.Cluster := "" |};
     trace := match callbacks s with
              | Some _ => [CallOnDeltaStreamOpen (wrap64 (streamCount s + 1))
                             defaultTypeURL]
              | None => []
              end |}.

(** ** Invariants *)

(** The counter of the stream is the number of responses sent, and the
    k-th of them carries the decimal form of the counter at k. *)
Definition nonceInv (l : locals) : Prop :=
  streamNonce l = wrap64 (Z.of_nat (length (sent (trace l)))) ∧
  discovery.Nonce <$> sent (trace l)
  = (λ n, FormatInt (wrap64 (Z.of_nat n)))
      <$> seq 1 (length (sent (trace l))).

(** The two records of the last nonce of a type agree, where both exist. *)
Definition noncesAgree (v : watches) : Prop :=
  ∀ t n st, deltaNonces v !! t = Some n →
            deltaStreamStates v !! t = Some st → stream.Nonce st = n.

(** ** A stream to run the processor on

    A control plane with a sink that accepts everything, a logger and a
    cache that hands out a fresh cancel handle at every watch; a client
    that subscribes to clusters, acknowledges and rejects. *)

Definition ClusterType : string := "type.googleapis.com/envoy.api.v2.Cluster".

Definition accepting : Callbacks :=
  {| OnDeltaStreamOpen := λ _ _ _, None;
     OnStreamDeltaRequest := λ _ _ _, None |}.

Definition refusing : Callbacks :=
  {| OnDeltaStreamOpen := λ _ _ _, Some (errors_New "stream refused");
     OnStreamDeltaRequest := λ _ _ _, None |}.

Definition controlPlane : server :=
  {| CreateDeltaWatch :=
       λ history _ _, Some (Pos.of_succ_nat (length history));
     callbacks := Some accepting;
     streamCount := 0;
     xdsBufferSize := 1;
     muxBufferSize := 8;
     log := true |}.

Definition closedDoor : server :=
  {| CreateDeltaWatch := CreateDeltaWatch controlPlane;
     callbacks := Some refusing;
     streamCount := 0;
     xdsBufferSize := 1;
     muxBufferSize := 8;
     log := true |}.

Definition transport : DeltaStream := {| Send := λ _ _, None |}.

(** A transport that breaks after the first response. *)
Definition breakingTransport : DeltaStream :=
  {| Send := λ history _,
       match sent history with
       | [] => None
       | _ => Some (errors_New "transport is closing")
       end |}.

Definition envoy : core.Node :=
  {| core.Id := "envoy-1"; core.Cluster := "edge" |}.

(** The first request of a client: its node, no type URL, no nonce. *)
Definition subscribe : discovery.DeltaDiscoveryRequest :=
  {| discovery.Node := Some envoy;
     discovery.TypeUrl := "";
     discovery.ResourceNamesSubscribe := ["c1"];
     discovery.ResourceNamesUnsubscribe := [];
     discovery.InitialResourceVersions := ∅;
     discovery.ResponseNonce := "";
     discovery.ErrorDetail := None |}.

Definition ack (nonce : string) : discovery.DeltaDiscoveryRequest :=
  {| discovery.Node := None;
     discovery.TypeUrl := ClusterType;
     discovery.ResourceNamesSubscribe := [];
     discovery.ResourceNamesUnsubscribe := [];
     discovery.InitialResourceVersions := ∅;
     discovery.ResponseNonce := nonce;
     discovery.ErrorDetail := None |}.

Definition nack (nonce : string) : discovery.DeltaDiscoveryRequest :=
  {| discovery.Node := None;
     discovery.TypeUrl := ClusterType;
     discovery.ResourceNamesSubscribe := [];
     discovery.ResourceNamesUnsubscribe := [];
     discovery.InitialResourceVersions := ∅;
     discovery.ResponseNonce := nonce;
     discovery.ErrorDetail :=
       Some {| rpc.Code := 13; rpc.Message := "bad" |} |}.

Definition clusters : cache.DeltaResponse :=
  {| cache.GetDeltaRequest := discovery.set_TypeUrl ClusterType subscribe;
     cache.GetDeltaDiscoveryResponse :=
       Ok {| discovery.SystemVersionInfo := "v1";
             discovery.Resources := [("c1", "a")];
             discovery.ResponseTypeUrl := ClusterType;
             discovery.RemovedResources := [];
             discovery.Nonce := "" |};
     cache.GetSystemVersion := Ok "v1";
     cache.GetDeltaVersionMap := Ok (Some {["c1" := "a"]}) |}.

(** A response whose system version cannot be read. *)
Definition clustersUnversioned : cache.DeltaResponse :=
  {| cache.GetDeltaRequest := cache.GetDeltaRequest clusters;
     cache.GetDeltaDiscoveryResponse :=
       cache.GetDeltaDiscoveryResponse clusters;
     cache.GetSystemVersion := Err (errors_New "no system version");
     cache.GetDeltaVersionMap := cache.GetDeltaVersionMap clusters |}.

(** The stream of one type on which the scenarios run; [resource.AnyType]
    is taken to be the empty string, as the documentation of
    [OnDeltaStreamOpen] has it. *)
Definition xds (str : DeltaStream) (inputs : list Input) : locals :=
  (processDelta "" [ClusterType] controlPlane str ClusterType inputs).1.

Definition arm (str : DeltaStream) (l : locals)
    (req : discovery.DeltaDiscoveryRequest) : locals * outcome :=
  onRequest "" controlPlane str 1 ClusterType l (Some req).

(** The client has subscribed and been sent the clusters under nonce 1. *)
Definition served : list Input :=
  [RecvRequest (Some subscribe); Produce (Some clusters); RecvResponse].

(** It has acknowledged them: a watch is registered. *)
Definition watched : list Input := served ++ [RecvRequest (Some (ack "1"))].

(** The cache has a new response for the watch, not yet taken from the
    channel. *)
Definition pending : list Input := watched ++ [Produce (Some clusters)].

(** ** Construction of the server *)

(** [ServerOption]: a function that changes the server under
    construction. *)
Definition ServerOption := server → server.

Definition WithADSBufferSize (size : Z) : ServerOption := λ s,
  {| CreateDeltaWatch := CreateDeltaWatch s; callbacks := callbacks s;
     streamCount := streamCount s; xdsBufferSize := xdsBufferSize s;
     muxBufferSize := size; log := log s |}.

Definition WithXDSBufferSize (size : Z) : ServerOption := λ s,
  {| CreateDeltaWatch := CreateDeltaWatch s; callbacks := callbacks s;
     streamCount := streamCount s; xdsBufferSize := size;
     muxBufferSize := muxBufferSize s; log := log s |}.

(** [NewServer]; the context it is given shows in the model as the
    [CtxDone] input. *)
Definition NewServer
    (config : list Event → discovery.DeltaDiscoveryRequest →
              stream.StreamState → option CancelFunc)
    (callbacks : option Callbacks) (log : bool) (opts : list ServerOption)
    : server :=
  foldl (λ out opt, opt out)
    {| CreateDeltaWatch := config; callbacks := callbacks; streamCount := 0;
       xdsBufferSize := 1; muxBufferSize := 8; log := log |}
    opts.

(** ** More readings of a run *)

(** The entry [initStreamState] makes for a known type. *)
Definition emptyStreamState : stream.StreamState :=
  {| stream.Nonce := ""; stream.SystemVersion := "";
     stream.ResourceVersions := Some ∅ |}.

(** A stream state with the names of [u] deleted from its version map. *)
Definition unsubscribedFrom (u : list string) (st : stream.StreamState)
    : stream.StreamState :=
  stream.set_ResourceVersions
    ((λ m, foldl (λ m resource, delete resource m) m u)
       <$> stream.ResourceVersions st) st.

(** The call of the stream-closed callback, when there is a sink. *)
Definition closedCalls (s : server) (streamID : Z) : list Event :=
  match callbacks s with
  | Some _ => [CallOnDeltaStreamClosed streamID]
  | None => []
  end.

(** [permitted s streamID defaultTypeURL e]: a callback is called only when
    the server has a sink, and with the ID of this stream; a line is logged
    only when the server has a logger. *)
Definition permitted (s : server) (streamID : Z) (defaultTypeURL : string)
    (e : Event) : Prop :=
  match e with
  | CallOnDeltaStreamOpen id t =>
    callbacks s ≠ None ∧ id = streamID ∧ t = defaultTypeURL
  | CallOnDeltaStreamClosed id
  | CallOnStreamDeltaRequest id _
  | CallOnStreamDeltaResponse id _ _ => callbacks s ≠ None ∧ id = streamID
  | LogDebugf _ | LogErrorf _ _ => log s = true
  | CallSend _ | CallCancel _ | CallCreateDeltaWatch _ _ => True
  end.

(** Every nonce on record is the nonce of a response handed to [Send]. *)
Definition noncesWereSent (l : locals) : Prop :=
  ∀ t n, deltaNonces (values l) !! t = Some n →
         n ∈ discovery.Nonce <$> sent (trace l).

(** The verdict of the stream-open callback, when there is a sink. *)
Definition requestVerdictOpen (s : server) (defaultTypeURL : string)
    : option error :=
  match callbacks s with
  | Some cb =>
    OnDeltaStreamOpen cb [] (wrap64 (streamCount s + 1)) defaultTypeURL
  | None => None
  end.

(** [refusedWith resp e]: [send] turns [resp] down with [e] before it
    touches anything: the response is nil or cannot be serialised. *)
Definition refusedWith (resp : option cache.DeltaResponse) (e : error) : Prop :=
  match resp with
  | None => e = errors_New "missing response"
  | Some r => cache.GetDeltaDiscoveryResponse r = Err e
  end.

(** The state [l] with [rest] left in the channel. *)
Definition receiving (rest : list (option cache.DeltaResponse)) (l : locals)
    : locals :=
  set_values (set_deltaResponses rest (values l)) l.

(** The debug lines of [unsubscribe], when there is a logger. *)
Definition unsubscribeLog (s : server) (u : list string) : list Event :=
  if log s
  then (λ resource, LogDebugf ("unsubscribing from resource: " +:+ resource))
         <$> u
  else [].

(** A response that [process] can take to the end, given a transport
    that accepts it. *)
Definition wellFormed (resp : option cache.DeltaResponse) : Prop :=
  ∃ r out sv vm,
    resp = Some r
    ∧ cache.GetDeltaDiscoveryResponse r = Ok out
    ∧ cache.GetSystemVersion r = Ok sv
    ∧ cache.GetDeltaVersionMap r = Ok vm.

(** The two options of the package, as data. *)
Inductive BufferOption :=
| ADSBufferSize (size : Z)
| XDSBufferSize (size : Z).

Definition toServerOption (o : BufferOption) : ServerOption :=
  match o with
  | ADSBufferSize size => WithADSBufferSize size
  | XDSBufferSize size => WithXDSBufferSize size
  end.

Definition adsSize (o : BufferOption) : option Z :=
  match o with ADSBufferSize size => Some size | XDSBufferSize _ => None end.

Definition xdsSize (o : BufferOption) : option Z :=
  match o with XDSBufferSize size => Some size | ADSBufferSize _ => None end.


(** ** The older handler, [pkg/server/v2/delta.go]

    The arms of the [select] loop of its [processDelta], and the closure
    [send].  Its [watches] struct is declared outside the sources at hand:
    for each of six resource types it has a channel, a cancel handle and
    the nonce of the last response of the type, written below as
    functions of the type.  The channels show as the inputs of the
    response arms. *)
Module serverv2.

(** The six resource types, in the order of the cases of the [select] and
    of the [switch]. *)
Inductive Kind := Endpoint | Cluster | Route | Listener | Secret | Runtime.

Definition kinds : list Kind :=
  [Endpoint; Cluster; Route; Listener; Secret; Runtime].

Definition Kind_eqb (k k' : Kind) : bool :=
  match k, k' with
  | Endpoint, Endpoint | Cluster, Cluster | Route, Route
  | Listener, Listener | Secret, Secret | Runtime, Runtime => true
  | _, _ => false
  end.

(** The word for the type in the error of a closed watch channel. *)
Definition plural (k : Kind) : string :=
  match k with
  | Endpoint => "endpoints"
  | Cluster => "clusters"
  | Route => "routes"
  | Listener => "listeners"
  | Secret => "secrets"
  | Runtime => "runtimes"
  end.

Inductive Event :=
| CallOnStreamDeltaRequest (streamID : Z)
    (req : discovery.DeltaDiscoveryRequest)
| CallOnStreamDeltaResponse (streamID : Z)
    (req : discovery.DeltaDiscoveryRequest)
    (out : discovery.DeltaDiscoveryResponse)
| CallSend (out : discovery.DeltaDiscoveryResponse)
| CallCancel (cancel : CancelFunc)
| CallCreateDeltaWatch (req : discovery.DeltaDiscoveryRequest)
    (version : string)
| LogErrorf (format : string) (detail : rpc.Status).

(** The callback of the arms that returns an error. *)
Record Callbacks := {
  OnStreamDeltaRequest :
    list Event → Z → discovery.DeltaDiscoveryRequest → option error
}.

Record deltaStream := {
  Send : list Event → discovery.DeltaDiscoveryResponse → option error
}.

(** The fields of [server] that the arms use, but for [deltaVersions].
    The logger is called unguarded and is taken to be set. *)
Record server := {
  CreateDeltaWatch :
    list Event → discovery.DeltaDiscoveryRequest → string →
    option CancelFunc;
  callbacks : option Callbacks
}.

Record watches := {
  deltaNonce : Kind → string;
  deltaCancel : Kind → option CancelFunc
}.

Definition set_deltaNonce (k : Kind) (nonce : string) (v : watches)
    : watches :=
  {| deltaNonce := λ k', if Kind_eqb k' k then nonce else deltaNonce v k';
     deltaCancel := deltaCancel v |}.

Definition set_deltaCancel (k : Kind) (cancel : option CancelFunc)
    (v : watches) : watches :=
  {| deltaNonce := deltaNonce v;
     deltaCancel := λ k', if Kind_eqb k' k then cancel
                          else deltaCancel v k' |}.

(** The variables of [processDelta] that the arms share, the map
    [s.deltaVersions], which the arms read and write under its lock and
    which is taken to be made (a write to a nil map panics), and the trace
    of the calls made so far. *)
Record locals := {
  values : watches;
  streamNonce : Z;
  node : core.Node;
  deltaVersions : gmap string string;
  trace : list Event
}.

Definition set_values (v : watches) (l : locals) : locals :=
  {| values := v; streamNonce := streamNonce l; node := node l;
     deltaVersions := deltaVersions l; trace := trace l |}.

Definition set_streamNonce (n : Z) (l : locals) : locals :=
  {| values := values l; streamNonce := n; node := node l;
     deltaVersions := deltaVersions l; trace := trace l |}.

Definition set_node (n : core.Node) (l : locals) : locals :=
  {| values := values l; streamNonce := streamNonce l; node := n;
     deltaVersions := deltaVersions l; trace := trace l |}.

Definition set_deltaVersions (m : gmap string string) (l : locals) : locals :=
  {| values := values l; streamNonce := streamNonce l; node := node l;
     deltaVersions := m; trace := trace l |}.

Definition emit (e : Event) (l : locals) : locals :=
  {| values := values l; streamNonce := streamNonce l; node := node l;
     deltaVersions := deltaVersions l; trace := trace l ++ [e] |}.

(** [createDeltaResponse]; the type URL is not used. *)
Definition createDeltaResponse (resp : option cache.DeltaResponse)
    (typeURL : string) : result discovery.DeltaDiscoveryResponse :=
  match resp with
  | None => Err (errors_New "missing response")
  | Some r =>
    match cache.GetDeltaDiscoveryResponse r with
    | Err e => Err e
    | Ok marshalledResponse => Ok marshalledResponse
    end
  end.

Section Handler.

(** [resource.AnyType] and the type URLs [resource.EndpointType] to
    [resource.RuntimeType] are declared outside the sources at hand, and
    so is the implementation of [GetSystemVersion]: [versionOnError] is
    the string it returns beside a non-nil error. *)
Variable AnyType : string.
Variable resourceType : Kind → string.
Variable versionOnError : cache.DeltaResponse → string.

Variable s : server.
Variable str : deltaStream.
Variable streamID : Z.

(** The closure [send]. *)
Definition send (l : locals) (resp : option cache.DeltaResponse)
    (typeURL : string) : locals * (string * option error) :=
  match createDeltaResponse resp typeURL with
  | Err e => (l, ("", Some e))
  | Ok out =>
    let l := set_streamNonce (wrap64 (streamNonce l + 1)) l in
    let out := discovery.set_Nonce (FormatInt (streamNonce l)) out in
    let l := match callbacks s, resp with
             | Some _, Some r =>
               emit (CallOnStreamDeltaResponse streamID
                       (cache.GetDeltaRequest r) out) l
             | _, _ => l
             end in
    let err := Send str (trace l) out in
    (emit (CallSend out) l, (discovery.Nonce out, err))
  end.

(** The arm of the channel of type [k]; [recv] is [None] when the channel
    is closed.  The tuple assignment to [s.deltaVersions] stores what
    [GetSystemVersion] returns whether or not the error is nil; the cancel
    handle of the type is left as it is. *)
Definition onResponse (k : Kind) (l : locals)
    (recv : option (option cache.DeltaResponse)) : locals * outcome :=
  match recv with
  | None =>
    (l, Return (Some (status_Errorf Unavailable
                        (plural k +:+ " watch failed"))))
  | Some resp =>
    let '(l, (nonce, err)) := send l resp (resourceType k) in
    match err, resp with
    | Some e, _ => (l, Return (Some e))
    | None, None => (l, Continue)   (* not reached: [send] refuses nil *)
    | None, Some r =>
      let typeURL := discovery.TypeUrl (cache.GetDeltaRequest r) in
      match cache.GetSystemVersion r with
      | Err e =>
        (set_deltaVersions
           (<[typeURL := versionOnError r]> (deltaVersions l)) l,
         Return (Some e))
      | Ok version =>
        let l := set_deltaVersions
                   (<[typeURL := version]> (deltaVersions l)) l in
        (set_values (set_deltaNonce k nonce (values l)) l, Continue)
      end
    end
  end.

Variable defaultTypeURL : string.

(** The first case of the [switch] that holds: the type of the request
    with a nonce on record that is empty or the one to compare with. *)
Definition firstCase (v : watches) (typeURL nonce : string) : option Kind :=
  List.find (λ k, bool_decide (typeURL = resourceType k
                               ∧ (deltaNonce v k = ""
                                  ∨ deltaNonce v k = nonce)))
            kinds.

(** The arm [case req, more := <-reqCh] with [more] true.  The nonce to
    compare with is the one of the request only if the request carries a
    node; otherwise it is the counter of the stream. *)
Definition onRequest (l : locals)
    (req : option discovery.DeltaDiscoveryRequest) : locals * outcome :=
  match req with
  | None => (l, Return (Some (status_Errorf Unavailable "empty request")))
  | Some req =>
    let l := match discovery.ErrorDetail req with
             | Some detail =>
               emit (LogErrorf "received error from envoy: %s" detail) l
             | None => l
             end in
    let '(l, req, nonce) :=
      match discovery.Node req with
      | Some n => (set_node n l, req, discovery.ResponseNonce req)
      | None => (l, discovery.set_Node (Some (node l)) req,
                 FormatInt (streamNonce l))
      end in
    if decide (defaultTypeURL = AnyType ∧ discovery.TypeUrl req = "")
    then (l, Return (Some (status_Errorf InvalidArgument
                             "type URL is required for ADS")))
    else
      let req := if decide (defaultTypeURL ≠ AnyType
                            ∧ discovery.TypeUrl req = "")
                 then discovery.set_TypeUrl defaultTypeURL req
                 else req in
      let watch (l : locals) : locals * outcome :=
        match firstCase (values l) (discovery.TypeUrl req) nonce with
        | Some k =>
          let l := match deltaCancel (values l) k with
                   | Some cancel => emit (CallCancel cancel) l
                   | None => l
                   end in
          let version :=
            default "" (deltaVersions l !! discovery.TypeUrl req) in
          let cancel := CreateDeltaWatch s (trace l) req version in
          let l := emit (CallCreateDeltaWatch req version) l in
          (set_values (set_deltaCancel k cancel (values l)) l, Continue)
        | None => (l, Continue)
        end in
      match callbacks s with
      | Some cb =>
        let err := OnStreamDeltaRequest cb (trace l) streamID req in
        let l := emit (CallOnStreamDeltaRequest streamID req) l in
        match err with
        | Some e => (l, Return (Some e))
        | None => watch l
        end
      | None => watch l
      end
  end.

End Handler.

(** *** Reading a trace of the older handler *)

Definition emitted (l l' : locals) : list Event :=
  drop (length (trace l)) (trace l').

Definition isCreateDeltaWatch (e : Event) : bool :=
  match e with CallCreateDeltaWatch _ _ => true | _ => false end.

Definition isCancel (e : Event) : bool :=
  match e with CallCancel _ => true | _ => false end.

(** The request as the callback and the cache see it. *)
Definition normalised (AnyType defaultTypeURL : string) (l : locals)
    (req : discovery.DeltaDiscoveryRequest) : discovery.DeltaDiscoveryRequest :=
  let req := match discovery.Node req with
             | Some _ => req
             | None => discovery.set_Node (Some (node l)) req
             end in
  if decide (defaultTypeURL ≠ AnyType ∧ discovery.TypeUrl req = "")
  then discovery.set_TypeUrl defaultTypeURL req
  else req.

(** The nonce the [switch] compares with. *)
Definition comparedNonce (l : locals) (req : discovery.DeltaDiscoveryRequest)
    : string :=
  match discovery.Node req with
  | Some _ => discovery.ResponseNonce req
  | None => FormatInt (streamNonce l)
  end.

(** What the request arm emits before the [switch]. *)
Definition preamble (s : server) (streamID : Z)
    (req req1 : discovery.DeltaDiscoveryRequest) : list Event :=
  match discovery.ErrorDetail req with
  | Some detail => [LogErrorf "received error from envoy: %s" detail]
  | None => []
  end
  ++ match callbacks s with
     | Some _ => [CallOnStreamDeltaRequest streamID req1]
     | None => []
     end.

(** The verdict of the request callback, asked after the log line. *)
Definition verdict (s : server) (streamID : Z) (l : locals)
    (req req1 : discovery.DeltaDiscoveryRequest) : option error :=
  match callbacks s with
  | Some cb =>
    OnStreamDeltaRequest cb
      (trace l ++ match discovery.ErrorDetail req with
                  | Some detail =>
                    [LogErrorf "received error from envoy: %s" detail]
                  | None => []
                  end)
      streamID req1
  | None => None
  end.

End serverv2.

(** ** The validator of [KillRequest],
    [envoy/extensions/filters/http/kill_request/v3/kill_request.pb.validate.go] *)
Module kill_request.

(** A Go [error] met as a cause: any error value, of which only the text
    its [Error] method gives shows. *)
Record CauseError := { ErrorText : string }.

(** The struct [KillRequestValidationError]; a nil [cause] is [None]. *)
Record KillRequestValidationError := {
  field : string;
  reason : string;
  cause : option CauseError;
  key : bool
}.

Definition Field (e : KillRequestValidationError) : string := field e.

Definition Reason (e : KillRequestValidationError) : string := reason e.

Definition Cause (e : KillRequestValidationError) : option CauseError :=
  cause e.

Definition Key (e : KillRequestValidationError) : bool := key e.

Definition ErrorName (e : KillRequestValidationError) : string :=
  "KillRequestValidationError".

(** [Error]; [%v] prints an error by its own [Error]. *)
Definition Error (e : KillRequestValidationError) : string :=
  let cause := match cause e with
               | Some c => " | caused by: " +:+ ErrorText c
               | None => ""
               end in
  let key := if key e then "key for " else "" in
  "invalid " +:+ key +:+ "KillRequest." +:+ field e +:+ ": " +:+ reason e
    +:+ cause.

Section Validate.

(** The message [FractionalPercent] and its validator are declared
    outside the sources at hand.  [Validate] reaches the validator through
    a type assertion, which holds when the pointer type has the method;
    the method is called on a nil pointer as well. *)
Variable FractionalPercent : Type.
Variable hasValidate : bool.
Variable ValidateProbability : option FractionalPercent → option CauseError.

(** [*KillRequest]: a nil [Probability] pointer is [None]. *)
Record KillRequest := {
  Probability : option FractionalPercent;
  KillRequestHeader : string
}.

(** [Validate]; a nil message is [None]. *)
Definition Validate (m : option KillRequest)
    : option KillRequestValidationError :=
  match m with
  | None => None
  | Some m =>
    if hasValidate then
      match ValidateProbability (Probability m) with
      | Some err =>
        Some {| field := "Probability";
                reason := "embedded message failed validation";
                cause := Some err; key := false |}
      | None => None
      end
    else None
  end.

End Validate.

End kill_request.

(** ** More scenarios *)

(** The client drops a resource as it acknowledges nonce 1. *)
Definition unsubscribing : discovery.DeltaDiscoveryRequest :=
  {| discovery.Node := None;
     discovery.TypeUrl := ClusterType;
     discovery.ResourceNamesSubscribe := [];
     discovery.ResourceNamesUnsubscribe := ["c1"];
     discovery.InitialResourceVersions := ∅;
     discovery.ResponseNonce := "1";
     discovery.ErrorDetail := None |}.

(** Two responses wait in the channel of a stream with a live watch. *)
Definition backlog : list Input :=
  pending ++ [Produce (Some clusters)].

(** The type URLs of the older handler. *)
Definition resourceTypes (k : serverv2.Kind) : string :=
  match k with
  | serverv2.Endpoint =>
    "type.googleapis.com/envoy.api.v2.ClusterLoadAssignment"
  | serverv2.Cluster => ClusterType
  | serverv2.Route => "type.googleapis.com/envoy.api.v2.RouteConfiguration"
  | serverv2.Listener => "type.googleapis.com/envoy.api.v2.Listener"
  | serverv2.Secret => "type.googleapis.com/envoy.api.v2.auth.Secret"
  | serverv2.Runtime =>
    "type.googleapis.com/envoy.service.discovery.v2.Runtime"
  end.

Definition endpoints : cache.DeltaResponse :=
  {| cache.GetDeltaRequest :=
       discovery.set_TypeUrl (resourceTypes serverv2.Endpoint) subscribe;
     cache.GetDeltaDiscoveryResponse :=
       Ok {| discovery.SystemVersionInfo := "v1";
             discovery.Resources := [("e1", "a")];
             discovery.ResponseTypeUrl := resourceTypes serverv2.Endpoint;
             discovery.RemovedResources := [];
             discovery.Nonce := "" |};
     cache.GetSystemVersion := Ok "v1";
     cache.GetDeltaVersionMap := Ok (Some {["e1" := "a"]}) |}.

Definition olderControlPlane : serverv2.server :=
  {| serverv2.CreateDeltaWatch :=
       λ history _ _, Some (Pos.of_succ_nat (length history));
     serverv2.callbacks := None |}.

Definition olderTransport : serverv2.deltaStream :=
  {| serverv2.Send := λ _ _, None |}.

(** The variables of the older [processDelta] as its loop is entered. *)
Definition olderEntered : serverv2.locals :=
  {| serverv2.values := {| serverv2.deltaNonce := λ _, "";
                           serverv2.deltaCancel := λ _, None |};
     serverv2.streamNonce := 0;
     serverv2.node := {| core.Id := ""; core.Cluster := "" |};
     serverv2.deltaVersions := ∅;
     serverv2.trace := [] |}.

(** A response arm and the request arm of the older handler on a stream
    of clusters. *)
Definition olderResponse (k : serverv2.Kind) (l : serverv2.locals)
    (r : cache.DeltaResponse) : serverv2.locals * outcome :=
  serverv2.onResponse resourceTypes (λ _, "") olderControlPlane
    olderTransport 1 k l (Some (Some r)).

Definition olderArm (l : serverv2.locals)
    (req : discovery.DeltaDiscoveryRequest) : serverv2.locals * outcome :=
  serverv2.onRequest "" resourceTypes olderControlPlane 1 ClusterType l
    (Some req).

(** A kill request whose probability is out of range, for a validator of
    percentages. *)
Definition percentage (p : option Z) : option kill_request.CauseError :=
  match p with
  | Some n =>
    if decide (0 ≤ n ≤ 100) then None
    else Some {| kill_request.ErrorText := "value out of range" |}
  | None => None
  end.

Definition overkill : kill_request.KillRequest Z :=
  {| kill_request.Probability := Some 250;
     kill_request.KillRequestHeader := "x-envoy-kill-request" |}.
(** * Proofs *)

(** ** Integers and nonces *)

Lemma wrap64_small z : - 2 ^ 63 ≤ z < 2 ^ 63 → wrap64 z = z.
Proof. intros Hz. unfold wrap64. rewrite Z.mod_small; lia. Qed.

Lemma wrap64_succ z : wrap64 (wrap64 z + 1) = wrap64 (z + 1).
Proof.
  unfold wrap64.
  replace ((z + 2 ^ 63) mod 2 ^ 64 - 2 ^ 63 + 1 + 2 ^ 63)
    with ((z + 2 ^ 63) mod 2 ^ 64 + 1) by lia.
  replace (z + 1 + 2 ^ 63) with ((z + 2 ^ 63) + 1) by lia.
  by rewrite Zplus_mod_idemp_l.
Qed.

Lemma FormatInt_nonempty z : FormatInt z ≠ "".
Proof.
  unfold FormatInt. destruct z as [|p|p]; cbn; [done| |done].
  pose proof (DecimalPos.Unsigned.to_uint_nonnil p) as Hp.
  destruct (Pos.to_uint p); done.
Qed.

Lemma ParseInt_FormatInt z : ParseInt (FormatInt z) = Some z.
Proof.
  unfold ParseInt, FormatInt. rewrite NilZero.isi.
  - cbn. by rewrite DecimalZ.of_to.
  - destruct z as [|p|p]; cbn; try done.
    intros [= Hp]. by apply (DecimalPos.Unsigned.to_uint_nonnil p).
  - destruct z as [|p|p]; cbn; try done.
    intros [= Hp]. by apply (DecimalPos.Unsigned.to_uint_nonnil p).
Qed.

(** ** Traces *)

Lemma emitted_app l l' evs : trace l' = trace l ++ evs → emitted l l' = evs.
Proof. unfold emitted. intros ->. by rewrite drop_app_length. Qed.

Lemma watchesCreated_app tr1 tr2 :
  watchesCreated (tr1 ++ tr2) = (watchesCreated tr1 + watchesCreated tr2)%nat.
Proof. unfold watchesCreated. by rewrite List.filter_app, length_app. Qed.

Lemma closedCount_app tr1 tr2 :
  closedCount (tr1 ++ tr2) = (closedCount tr1 + closedCount tr2)%nat.
Proof. unfold closedCount. by rewrite List.filter_app, length_app. Qed.

Lemma filter_none (p q : Event → bool) evs :
  (∀ e, q e → p e = false) → Forall q evs → List.filter p evs = [].
Proof.
  intros Hpq. induction 1 as [|e evs He _ IH]; [done|].
  cbn. by rewrite (Hpq e He).
Qed.

Lemma watchesCreated_responses evs :
  Forall isResponseEvent evs → watchesCreated evs = 0%nat.
Proof.
  intros H. unfold watchesCreated.
  rewrite (filter_none _ isResponseEvent); [done| |done]. by intros [].
Qed.

Lemma watchesCreated_logs evs : Forall isLog evs → watchesCreated evs = 0%nat.
Proof.
  intros H. unfold watchesCreated.
  rewrite (filter_none _ isLog); [done| |done]. by intros [].
Qed.

Lemma closedCount_loop evs : Forall isLoopEvent evs → closedCount evs = 0%nat.
Proof.
  intros H. unfold closedCount.
  rewrite (filter_none _ isLoopEvent); [done| |done]. by intros [].
Qed.

Lemma responses_loop evs :
  Forall isResponseEvent evs → Forall isLoopEvent evs.
Proof. intros H. eapply Forall_impl; [done|]. by intros []. Qed.

Lemma logs_loop evs : Forall isLog evs → Forall isLoopEvent evs.
Proof. intros H. eapply Forall_impl; [done|]. by intros []. Qed.

Lemma sent_logs evs : Forall isLog evs → sent evs = [].
Proof. induction 1 as [|[] evs He _ IH]; done. Qed.

(** ** The closures *)

Section ProcessorFacts.
Variable s : server.
Variable str : DeltaStream.
Variable streamID : Z.

Lemma send_ok l r out :
  cache.GetDeltaDiscoveryResponse r = Ok out →
  send s str streamID l (Some r) =
    ({| values := values l; streamNonce := wrap64 (streamNonce l + 1);
        node := node l;
        trace := trace l ++ responseCalls s streamID r (stamped l out)
                   ++ [CallSend (stamped l out)] |},
     (FormatInt (wrap64 (streamNonce l + 1)),
      Send str (trace l ++ responseCalls s streamID r (stamped l out))
        (stamped l out))).
Proof.
  intros Hout. unfold send, responseCalls, stamped. rewrite Hout. cbn.
  destruct (callbacks s); unfold emit, set_streamNonce; cbn;
    by rewrite <- ?app_assoc, ?app_nil_r.
Qed.


Lemma update_cases r nonce :
  (∃ sv vm,
     cache.GetSystemVersion r = Ok sv ∧ cache.GetDeltaVersionMap r = Ok vm
     ∧ update r nonce
       = ({| stream.Nonce := nonce; stream.SystemVersion := sv;
             stream.ResourceVersions := vm |}, None))
  ∨ (∃ e,
       (cache.GetSystemVersion r = Err e
        ∨ (∃ sv, cache.GetSystemVersion r = Ok sv)
          ∧ cache.GetDeltaVersionMap r = Err e)
       ∧ update r nonce = (stream.zero, Some e)).
Proof.
  unfold update.
  destruct (cache.GetSystemVersion r) as [sv|e]; [|right; eauto].
  destruct (cache.GetDeltaVersionMap r) as [vm|e]; [left; eauto|right].
  exists e. eauto.
Qed.

Lemma process_refused l resp :
  resp = None
  ∨ (∃ r e, resp = Some r ∧ cache.GetDeltaDiscoveryResponse r = Err e) →
  ∃ e, process s str streamID l resp = (l, Some e).
Proof.
  intros [->|(r & e & -> & Hr)]; unfold process, send; [eauto|].
  rewrite Hr. eauto.
Qed.

Lemma process_sent l r out l' err :
  cache.GetDeltaDiscoveryResponse r = Ok out →
  process s str streamID l (Some r) = (l', err) →
  let nonce := FormatInt (wrap64 (streamNonce l + 1)) in
  let t := discovery.TypeUrl (cache.GetDeltaRequest r) in
  streamNonce l' = wrap64 (streamNonce l + 1) ∧ node l' = node l ∧
  trace l' = trace l ++ responseCalls s streamID r (stamped l out)
               ++ [CallSend (stamped l out)] ∧
  deltaResponses (values l') = deltaResponses (values l) ∧
  deltaResponsesCap (values l') = deltaResponsesCap (values l) ∧
  match Send str (trace l ++ responseCalls s streamID r (stamped l out))
          (stamped l out) with
  | Some e => err = Some e ∧ values l' = values l
  | None =>
    deltaNonces (values l') = <[t := nonce]> (deltaNonces (values l)) ∧
    deltaCancellations (values l')
      = <[t := None]> (deltaCancellations (values l)) ∧
    deltaStreamStates (values l')
      = <[t := (update r nonce).1]> (deltaStreamStates (values l)) ∧
    err = (update r nonce).2
  end.
Proof.
  intros Hout. unfold process. rewrite (send_ok _ _ _ Hout).
  destruct (Send str _ _) as [e|].
  - intros [= <- <-]. done.
  - destruct (update r _) as [state err'] eqn:Hup. intros [= <- <-]. done.
Qed.


Lemma process_inv l resp l' err :
  process s str streamID l resp = (l', err) →
  (l' = l ∧ is_Some err) ∨
  (∃ r out, resp = Some r ∧ cache.GetDeltaDiscoveryResponse r = Ok out).
Proof.
  destruct resp as [r|].
  - destruct (cache.GetDeltaDiscoveryResponse r) as [out|e] eqn:Hr; [eauto|].
    destruct (process_refused l (Some r)) as [e' He']; [eauto|].
    rewrite He'. intros [= <- <-]. eauto.
  - cbn. intros [= <- <-]. eauto.
Qed.

Lemma sent_app tr1 tr2 : sent (tr1 ++ tr2) = sent tr1 ++ sent tr2.
Proof. apply omap_app. Qed.

Lemma sent_responseCalls r out : sent (responseCalls s streamID r out) = [].
Proof. unfold responseCalls. by destruct (callbacks s). Qed.

Lemma responseCalls_Forall r out :
  Forall isResponseEvent (responseCalls s streamID r out).
Proof. unfold responseCalls. destruct (callbacks s); repeat constructor. Qed.

Lemma process_frame l resp l' err :
  process s str streamID l resp = (l', err) →
  node l' = node l ∧ deltaResponses (values l') = deltaResponses (values l) ∧
  ∃ evs, trace l' = trace l ++ evs ∧ Forall isResponseEvent evs.
Proof.
  intros Hp.
  destruct (process_inv _ _ _ _ Hp) as [[-> _]|(r & out & -> & Hout)].
  - repeat split. exists []. by rewrite app_nil_r.
  - destruct (process_sent _ _ _ _ _ Hout Hp) as (_ & Hn & Ht & Hq & _).
    repeat split; [done..|]. eexists. split; [done|].
    apply Forall_app. split; [apply responseCalls_Forall|by repeat constructor].
Qed.

Lemma drain_frame pending l l' err :
  drain s str streamID pending l = (l', err) →
  node l' = node l ∧
  ∃ evs, trace l' = trace l ++ evs ∧ Forall isResponseEvent evs.
Proof.
  revert l. induction pending as [|resp rest IH]; intros l; cbn.
  - intros [= <- <-]. split; [done|]. exists []. by rewrite app_nil_r.
  - destruct (process _ _ _ _ resp) as [l1 [e|]] eqn:Hp;
      destruct (process_frame _ _ _ _ Hp) as (Hn & _ & evs & Ht & Hevs);
      cbn in Hn, Ht.
    + intros [= <- <-]. eauto.
    + intros Hd. destruct (IH _ Hd) as (Hn' & evs' & Ht' & Hevs').
      split; [congruence|]. exists (evs ++ evs'). split.
      * by rewrite Ht', Ht, app_assoc.
      * by apply Forall_app.
Qed.

Lemma drain_done pending l l' :
  deltaResponses (values l) = pending →
  drain s str streamID pending l = (l', None) →
  deltaResponses (values l') = [].
Proof.
  revert l. induction pending as [|resp rest IH]; intros l Hq; cbn.
  - by intros [= <-].
  - destruct (process _ _ _ _ resp) as [l1 [e|]] eqn:Hp; [done|].
    destruct (process_frame _ _ _ _ Hp) as (_ & Hq1 & _). cbn in Hq1.
    by apply IH.
Qed.

Lemma drain_sent pending l l' :
  drain s str streamID pending l = (l', None) →
  ∃ evs, trace l' = trace l ++ evs ∧ Forall2 processedAs pending (sent evs).
Proof.
  revert l. induction pending as [|resp rest IH]; intros l; cbn.
  - intros [= <-]. exists []. rewrite app_nil_r. split; [done|constructor].
  - destruct (process _ _ _ _ resp) as [l1 [e|]] eqn:Hp; [done|].
    intros Hd. destruct (IH _ Hd) as (evs' & Ht' & Hall).
    destruct (process_inv _ _ _ _ Hp) as [[_ [? [=]]]|(r & out & -> & Hout)].
    destruct (process_sent _ _ _ _ _ Hout Hp) as (_ & _ & Ht & _). cbn in Ht.
    eexists. split; [by rewrite Ht', Ht, <- app_assoc|].
    rewrite !sent_app, sent_responseCalls. cbn. constructor; [|done].
    exists r, out. done.
Qed.

(** [processAll] as the loop of the source reads: receive, process, again. *)
Lemma processAll_unfold l :
  processAll s str streamID l =
  match deltaResponses (values l) with
  | [] => (l, None)
  | resp :: rest =>
    match process s str streamID
            (set_values (set_deltaResponses rest (values l)) l) resp with
    | (l, Some e) => (l, Some e)
    | (l, None) => processAll s str streamID l
    end
  end.
Proof.
  unfold processAll.
  destruct (deltaResponses (values l)) as [|resp rest]; [done|].
  cbn. destruct (process _ _ _ _ resp) as [l1 [e|]] eqn:Hp; [done|].
  destruct (process_frame _ _ _ _ Hp) as (_ & -> & _). done.
Qed.


Lemma update_Nonce r nonce :
  (update r nonce).2 = None → stream.Nonce (update r nonce).1 = nonce.
Proof.
  by destruct (update_cases r nonce)
    as [(sv & vm & _ & _ & ->)|(e & _ & ->)].
Qed.

Lemma process_noncesAgree l resp l' :
  noncesAgree (values l) →
  process s str streamID l resp = (l', None) →
  noncesAgree (values l').
Proof.
  intros Hagree Hp.
  destruct (process_inv _ _ _ _ Hp) as [[_ [? [=]]]|(r & out & -> & Hout)].
  destruct (process_sent _ _ _ _ _ Hout Hp) as (_ & _ & _ & _ & _ & Hsend).
  destruct (Send str _ _); [by destruct Hsend|].
  destruct Hsend as (Hn & _ & Hs & Hup).
  intros t n st. rewrite Hn, Hs.
  destruct (decide (discovery.TypeUrl (cache.GetDeltaRequest r) = t))
    as [<-|Hne].
  - rewrite !lookup_insert_eq. intros [= <-] [= <-]. by apply update_Nonce.
  - rewrite !lookup_insert_ne by done. apply Hagree.
Qed.

Lemma drain_noncesAgree pending l l' :
  noncesAgree (values l) →
  drain s str streamID pending l = (l', None) →
  noncesAgree (values l').
Proof.
  revert l. induction pending as [|resp rest IH]; intros l Hagree; cbn.
  - by intros [= <-].
  - destruct (process _ _ _ _ resp) as [l1 [e|]] eqn:Hp; [done|].
    apply IH. by eapply process_noncesAgree, Hp.
Qed.

Lemma nonceInv_quiet l l' evs :
  streamNonce l' = streamNonce l →
  trace l' = trace l ++ evs → sent evs = [] →
  nonceInv l → nonceInv l'.
Proof.
  unfold nonceInv. intros -> -> Hevs. by rewrite sent_app, Hevs, app_nil_r.
Qed.

Lemma nonceInv_process l resp l' err :
  nonceInv l → process s str streamID l resp = (l', err) → nonceInv l'.
Proof.
  intros [Hn Hs] Hp.
  destruct (process_inv _ _ _ _ Hp) as [[-> _]|(r & out & -> & Hout)]; [done|].
  destruct (process_sent _ _ _ _ _ Hout Hp) as (Hn' & _ & Ht & _).
  unfold nonceInv. rewrite Hn', Ht, !sent_app, sent_responseCalls. cbn.
  rewrite length_app, Nat.add_1_r, seq_S, !fmap_app, <- Hs. cbn.
  rewrite Hn, wrap64_succ.
  replace (Z.of_nat (1 + length (sent (trace l))))
    with (Z.of_nat (length (sent (trace l))) + 1) by lia.
  rewrite Nat2Z.inj_succ, <- Z.add_1_r. done.
Qed.

Lemma nonceInv_drain pending l l' err :
  nonceInv l → drain s str streamID pending l = (l', err) → nonceInv l'.
Proof.
  revert l. induction pending as [|resp rest IH]; intros l Hinv; cbn.
  - by intros [= <- <-].
  - destruct (process _ _ _ _ resp) as [l1 [e|]] eqn:Hp.
    + intros [= <- <-]. by eapply nonceInv_process, Hp.
    + apply IH. by eapply nonceInv_process, Hp.
Qed.


(** ** The request arm *)

Lemma unsubscribe_frame u sv l sv' l' :
  unsubscribe s u sv l = (sv', l') →
  values l' = values l ∧ streamNonce l' = streamNonce l ∧ node l' = node l ∧
  ∃ logs, trace l' = trace l ++ logs ∧ Forall isLog logs.
Proof.
  unfold unsubscribe. revert sv l.
  induction u as [|resource u IH]; intros sv l; cbn.
  - intros [= <- <-]. repeat split. exists []. by rewrite app_nil_r.
  - intros Hu. destruct (IH _ _ Hu) as (Hv & Hn & Hnode & logs & Ht & Hlogs).
    destruct (log s); cbn in *; [|by eauto 10].
    repeat split; [done..|]. eexists. rewrite Ht, <- app_assoc.
    split; [done|]. by constructor.
Qed.

Lemma reconcile_inv l req nonce l' out :
  reconcile s str streamID l req nonce = (l', out) →
  let t := discovery.TypeUrl req in
  (∃ n, deltaNonces (values l) !! t = Some n ∧ n ≠ nonce
        ∧ l' = l ∧ out = Continue)
  ∨ ((deltaNonces (values l) !! t = None
      ∨ deltaNonces (values l) !! t = Some nonce)
     ∧ ∃ ld err,
         match deltaCancellations (values l) !! t with
         | Some (Some cancel) =>
           processAll s str streamID (emit (CallCancel cancel) l)
         | _ => (l, None)
         end = (ld, err)
         ∧ match err with
           | Some e => l' = ld ∧ out = Return (Some e)
           | None => l' = watching s ld req ∧ out = Continue
           end).
Proof.
  unfold reconcile. cbn zeta.
  destruct (deltaNonces (values l) !! discovery.TypeUrl req) as [n|] eqn:Hn.
  - case_bool_decide as Hnn.
    + subst n.
      destruct (match deltaCancellations (values l) !! _ with
                | Some (Some _) => _ | _ => _ end) as [ld [e|]] eqn:Hd.
      * intros [= <- <-]. right. split; [by right|]. by exists ld, (Some e).
      * intros [= <- <-]. right. split; [by right|]. by exists ld, None.
    + intros [= <- <-]. left. by exists n.
  - destruct (match deltaCancellations (values l) !! _ with
              | Some (Some _) => _ | _ => _ end) as [ld [e|]] eqn:Hd.
    + intros [= <- <-]. right. split; [by left|]. by exists ld, (Some e).
    + intros [= <- <-]. right. split; [by left|]. by exists ld, None.
Qed.


Variable AnyType defaultTypeURL : string.

Lemma onRequest_inv l req l' out :
  onRequest AnyType s str streamID defaultTypeURL l (Some req) = (l', out) →
  (defaultTypeURL = AnyType ∧ discovery.TypeUrl req = ""
   ∧ out = Return (Some (status_Errorf InvalidArgument
                           "type URL is required for ADS"))
   ∧ values l' = values l ∧ streamNonce l' = streamNonce l
   ∧ node l' = rehydrated l req ∧ trace l' = trace l ++ nackLog s req)
  ∨ (¬ (defaultTypeURL = AnyType ∧ discovery.TypeUrl req = "")
     ∧ ∃ lc logs,
         let req1 := normalised AnyType defaultTypeURL l req in
         deltaNonces (values lc) = deltaNonces (values l)
         ∧ deltaCancellations (values lc) = deltaCancellations (values l)
         ∧ deltaResponses (values lc) = deltaResponses (values l)
         ∧ (∀ t, stream.Nonce <$> deltaStreamStates (values lc) !! t
                 = stream.Nonce <$> deltaStreamStates (values l) !! t)
         ∧ streamNonce lc = streamNonce l
         ∧ node lc = rehydrated l req
         ∧ Forall isLog logs
         ∧ trace lc = trace l ++ nackLog s req ++ logs
                        ++ requestCalls s streamID req1
         ∧ match requestVerdict s streamID
                   (trace l ++ nackLog s req ++ logs) req1 with
           | Some e => l' = lc ∧ out = Return (Some e)
           | None =>
             reconcile s str streamID lc req1 (discovery.ResponseNonce req)
             = (l', out)
           end).
Proof.
  intros Hrest. unfold onRequest in Hrest.
  set (l1 := match discovery.ErrorDetail req with
             | Some detail => if log s then emit _ l else l
             | None => l
             end) in Hrest.
  assert (values l1 = values l ∧ streamNonce l1 = streamNonce l
          ∧ node l1 = node l ∧ trace l1 = trace l ++ nackLog s req)
    as (Hv1 & Hsn1 & Hn1 & Ht1).
  { unfold l1, nackLog. destruct (discovery.ErrorDetail req), (log s); cbn;
      by rewrite ?app_nil_r. }
  clearbody l1.
  set (pr := match discovery.Node req with
             | Some n => (set_node n l1, req)
             | None => (l1, discovery.set_Node (Some (node l1)) req)
             end) in Hrest.
  assert (pr = (set_node (rehydrated l req) l1,
                discovery.set_Node (Some (rehydrated l req)) req)) as Hpr.
  { unfold pr, rehydrated. destruct req as [[n|] ? ? ? ? ? ?]; cbn; [done|].
    rewrite <- Hn1. by destruct l1. }
  rewrite Hpr in Hrest. clear pr Hpr.
  cbn [discovery.set_Node discovery.TypeUrl discovery.ResponseNonce]
    in Hrest.
  set (lN := set_node (rehydrated l req) l1) in Hrest.
  destruct (decide (defaultTypeURL = AnyType ∧ discovery.TypeUrl req = ""))
    as [Hads|Hads].
  { injection Hrest as <- <-. left. destruct Hads. by repeat split. }
  right. split; [done|].
  set (reqN := if decide (defaultTypeURL ≠ AnyType
                          ∧ discovery.TypeUrl req = "")
               then _ else _) in Hrest.
  assert (reqN = normalised AnyType defaultTypeURL l req) as HreqN.
  { unfold reqN, normalised, resolvedTypeUrl. by case_decide. }
  rewrite HreqN in Hrest. clear reqN HreqN.
  set (req1 := normalised AnyType defaultTypeURL l req) in *.
  set (l2 := match discovery.ResourceNamesUnsubscribe req1 with
             | [] => lN
             | _ => _
             end) in Hrest.
  assert (deltaNonces (values l2) = deltaNonces (values l)
          ∧ deltaCancellations (values l2) = deltaCancellations (values l)
          ∧ deltaResponses (values l2) = deltaResponses (values l)
          ∧ (∀ t, stream.Nonce <$> deltaStreamStates (values l2) !! t
                  = stream.Nonce <$> deltaStreamStates (values l) !! t)
          ∧ streamNonce l2 = streamNonce l
          ∧ node l2 = rehydrated l req
          ∧ ∃ logs, Forall isLog logs
                    ∧ trace l2 = trace l ++ nackLog s req ++ logs)
    as (Hno & Hca & Hre & Hst & Hsn & Hnode & logs & Hlogs & Ht2).
  { unfold l2. destruct (discovery.ResourceNamesUnsubscribe req1) as [|r0 u].
    - cbn. rewrite Hv1. repeat split; [done..|]. exists [].
      by rewrite app_nil_r.
    - destruct (unsubscribe s (r0 :: u) _ lN) as [sv lu] eqn:Hu.
      destruct (unsubscribe_frame _ _ _ _ _ Hu)
        as (Hvu & Hsnu & Hnu & logs & Htu & Hlogs).
      cbn in Hvu, Hsnu, Hnu, Htu. cbn. rewrite Hvu, Hv1.
      repeat split; [|congruence|done|].
      + intros t. rewrite lookup_alter. case_decide; [|done]. subst t.
        by destruct (deltaStreamStates (values l) !! _).
      + exists logs. by rewrite Htu, Ht1, <- app_assoc. }
  clearbody l2. unfold requestCalls, requestVerdict.
  destruct (callbacks s) as [cb|].
  - exists (emit (CallOnStreamDeltaRequest streamID req1) l2), logs.
    cbn. rewrite Ht2, <- !app_assoc. repeat split; [done..|].
    rewrite Ht2 in Hrest.
    destruct (OnStreamDeltaRequest cb _ streamID req1) as [e|].
    + by injection Hrest as <- <-.
    + done.
  - exists l2, logs. rewrite Ht2, !app_nil_r.
    by repeat split.
Qed.


Lemma reconcile_shape l req nonce l' out :
  reconcile s str streamID l req nonce = (l', out) →
  let t := discovery.TypeUrl req in
  (¬ newOrAck (values l) t nonce ∧ l' = l ∧ out = Continue)
  ∨ (newOrAck (values l) t nonce ∧
     ∃ drained,
       Forall isResponseEvent drained ∧
       ((∃ e, out = Return (Some e)
              ∧ cancelCalls (values l) t ≠ []
              ∧ trace l' = trace l ++ cancelCalls (values l) t ++ drained)
        ∨ (out = Continue ∧
           ∃ state,
             trace l' = trace l ++ cancelCalls (values l) t ++ drained
                          ++ [CallCreateDeltaWatch req state] ∧
             (cancelCalls (values l) t ≠ [] →
              Forall2 processedAs (deltaResponses (values l)) (sent drained)
              ∧ deltaResponses (values l') = []) ∧
             (deltaResponses (values l) = [] →
              deltaNonces (values l') = deltaNonces (values l)
              ∧ deltaResponses (values l') = [])))).
Proof.
  intros Hr t. apply reconcile_inv in Hr. fold t in Hr.
  destruct Hr as [(n & Hn & Hne & -> & ->)|(Hgo & ld & err & Hd & Hl')].
  { left. split; [|done]. unfold newOrAck. rewrite Hn.
    intros [|]; congruence. }
  right. split; [done|]. unfold cancelCalls.
  destruct (deltaCancellations (values l) !! t) as [[cancel|]|].
  - unfold processAll in Hd. cbn in Hd.
    destruct (drain_frame _ _ _ _ Hd) as (_ & evs & Ht & Hevs).
    cbn in Ht. exists evs. split; [done|].
    destruct err as [e|]; destruct Hl' as [-> ->].
    + left. exists e. by rewrite Ht, <- app_assoc.
    + right. split; [done|]. eexists. cbn.
      rewrite Ht, <- !app_assoc. split; [done|]. split.
      * intros _. destruct (drain_sent _ _ _ Hd) as (evs' & Ht' & Hall).
        cbn in Ht'. rewrite Ht in Ht'. apply app_inv_head in Ht'. subst evs'.
        split; [done|]. by eapply drain_done, Hd.
      * intros Hq. rewrite Hq in Hd. by injection Hd as <-.
  - injection Hd as <- <-. destruct Hl' as [-> ->]. exists []. split; [done|].
    right. split; [done|]. eexists. cbn. by split_and!.
  - injection Hd as <- <-. destruct Hl' as [-> ->]. exists []. split; [done|].
    right. split; [done|]. eexists. cbn. by split_and!.
Qed.

Lemma reconcile_summary l req nonce l' out :
  reconcile s str streamID l req nonce = (l', out) →
  node l' = node l ∧
  (nonceInv l → nonceInv l') ∧
  (out = Continue → noncesAgree (values l) → noncesAgree (values l')) ∧
  ∃ evs, trace l' = trace l ++ evs ∧ Forall isLoopEvent evs ∧
    ((watchesCreated evs = 1%nat ∧ out = Continue
      ∧ newOrAck (values l) (discovery.TypeUrl req) nonce)
     ∨ (watchesCreated evs = 0%nat
        ∧ ¬ (out = Continue
             ∧ newOrAck (values l) (discovery.TypeUrl req) nonce))).
Proof.
  intros Hr. apply reconcile_inv in Hr.
  destruct Hr as [(n & Hn & Hne & -> & ->)|(Hgo & ld & err & Hd & Hl')].
  { split_and!; [done..|]. exists []. rewrite app_nil_r.
    split_and!; [done..|]. right. split; [done|].
    unfold newOrAck. rewrite Hn. intros [_ [|]]; congruence. }
  assert (node ld = node l ∧ (nonceInv l → nonceInv ld)
          ∧ (err = None → noncesAgree (values l) → noncesAgree (values ld))
          ∧ ∃ evs, trace ld = trace l ++ evs ∧ Forall isLoopEvent evs
                   ∧ watchesCreated evs = 0%nat)
    as (Hnode & Hinv & Hagree & evs & Ht & Hloop & Hnone).
  { destruct (deltaCancellations (values l) !! _) as [[cancel|]|];
      try (injection Hd as <- <-; split_and!; [done..|]; exists [];
           by rewrite app_nil_r).
    unfold processAll in Hd. cbn in Hd.
    destruct (drain_frame _ _ _ _ Hd) as (Hnode & evs & Ht & Hevs).
    cbn in Hnode, Ht. split_and!; [done| | |].
    - intros Hinv. eapply nonceInv_drain, Hd.
      by eapply (nonceInv_quiet l _ [CallCancel cancel]).
    - intros -> Hagree. by eapply drain_noncesAgree, Hd.
    - exists (CallCancel cancel :: evs). rewrite Ht, <- app_assoc.
      split_and!; [done| |].
      + constructor; [done|]. by apply responses_loop.
      + by rewrite <- (watchesCreated_responses evs Hevs). }
  destruct err as [e|]; destruct Hl' as [-> ->].
  - split_and!; [done..|]. exists evs. split_and!; [done..|].
    right. split; [done|]. by intros [[=] _].
  - split_and!; [done| | |].
    + intros Hi. eapply (nonceInv_quiet ld _ [CallCreateDeltaWatch _ _]);
        [done..|by apply Hinv].
    + intros _ Hag. by apply Hagree.
    + eexists. cbn. rewrite Ht, <- app_assoc. split_and!; [done| |].
      * apply Forall_app. split; [done|]. by repeat constructor.
      * left. rewrite watchesCreated_app, Hnone. done.
Qed.

Lemma onRequest_summary l req l' out :
  onRequest AnyType s str streamID defaultTypeURL l (Some req) = (l', out) →
  let t := resolvedTypeUrl AnyType defaultTypeURL req in
  node l' = rehydrated l req ∧
  (nonceInv l → nonceInv l') ∧
  (out = Continue → noncesAgree (values l) → noncesAgree (values l')) ∧
  ∃ evs, trace l' = trace l ++ evs ∧ Forall isLoopEvent evs ∧
    ((watchesCreated evs = 1%nat ∧ out = Continue
      ∧ newOrAck (values l) t (discovery.ResponseNonce req))
     ∨ (watchesCreated evs = 0%nat
        ∧ ¬ (out = Continue
             ∧ newOrAck (values l) t (discovery.ResponseNonce req)))).
Proof.
  intros Hr. apply onRequest_inv in Hr.
  assert (Forall isLog (nackLog s req)) as Hnack.
  { unfold nackLog. destruct (discovery.ErrorDetail req), (log s);
      by repeat constructor. }
  destruct Hr as [(_ & _ & -> & Hv & Hsn & Hnode & Ht)
                 |(_ & lc & logs & Hno & Hca & Hre & Hst & Hsn & Hnode
                   & Hlogs & Ht & Hrest)].
  { split_and!; [done| |done|].
    - apply (nonceInv_quiet l _ (nackLog s req)); [done..|by apply sent_logs].
    - exists (nackLog s req). split_and!; [done|by apply logs_loop|].
      right. split; [by apply watchesCreated_logs|]. by intros [[=] _]. }
  set (req1 := normalised AnyType defaultTypeURL l req) in *.
  assert (Forall isLoopEvent (nackLog s req ++ logs
                                ++ requestCalls s streamID req1)) as Hpre.
  { rewrite !Forall_app. split_and!; [by apply logs_loop..|].
    unfold requestCalls. destruct (callbacks s); by repeat constructor. }
  assert (watchesCreated (nackLog s req ++ logs
                            ++ requestCalls s streamID req1) = 0%nat) as Hpre0.
  { rewrite !watchesCreated_app, !watchesCreated_logs by done.
    unfold requestCalls. by destruct (callbacks s). }
  assert (sent (nackLog s req ++ logs ++ requestCalls s streamID req1) = [])
    as Hpres.
  { rewrite !sent_app, !sent_logs by done.
    unfold requestCalls. by destruct (callbacks s). }
  assert (noncesAgree (values l) → noncesAgree (values lc)) as Hagc.
  { intros Hag t n st. rewrite Hno. intros Hn Hs.
    specialize (Hst t). rewrite Hs in Hst.
    destruct (deltaStreamStates (values l) !! t) as [st0|] eqn:Hs0; [|done].
    injection Hst as ->. by eapply Hag. }
  destruct (requestVerdict s streamID _ req1) as [e|].
  - destruct Hrest as [-> ->]. split_and!; [done| |done|].
    + by apply nonceInv_quiet with (evs := nackLog s req ++ logs
                                             ++ requestCalls s streamID req1).
    + eexists. split_and!; [done..|]. right. split; [done|].
      by intros [[=] _].
  - destruct (reconcile_summary _ _ _ _ _ Hrest)
      as (Hnode' & Hinv & Hag & evs & Ht' & Hevs & Hcount).
    split_and!; [congruence| | |].
    + intros Hi. apply Hinv. by eapply nonceInv_quiet, Hi.
    + intros Hc Ha. by apply Hag, Hagc.
    + eexists. rewrite Ht', Ht, <- !app_assoc. split; [done|].
      rewrite !app_assoc, <- (app_assoc _ logs). split; [by apply Forall_app|].
      rewrite watchesCreated_app, Hpre0. cbn [Nat.add].
      unfold newOrAck in *. rewrite Hno in Hcount. done.
Qed.


Lemma onRequest_shape l req l' out :
  onRequest AnyType s str streamID defaultTypeURL l (Some req) = (l', out) →
  let t := resolvedTypeUrl AnyType defaultTypeURL req in
  let nonce := discovery.ResponseNonce req in
  let req1 := normalised AnyType defaultTypeURL l req in
  ∃ logs calls,
    Forall isLog logs ∧
    let pre := nackLog s req ++ logs ++ calls in
    (defaultTypeURL = AnyType ∧ discovery.TypeUrl req = ""
     ∧ logs = [] ∧ calls = []
     ∧ out = Return (Some (status_Errorf InvalidArgument
                             "type URL is required for ADS"))
     ∧ trace l' = trace l ++ pre ∧ values l' = values l)
    ∨ (¬ (defaultTypeURL = AnyType ∧ discovery.TypeUrl req = "")
       ∧ calls = requestCalls s streamID req1
       ∧ ((∃ e, requestVerdict s streamID
                  (trace l ++ nackLog s req ++ logs) req1 = Some e
                ∧ out = Return (Some e) ∧ trace l' = trace l ++ pre
                ∧ deltaCancellations (values l')
                  = deltaCancellations (values l))
          ∨ (requestVerdict s streamID
               (trace l ++ nackLog s req ++ logs) req1 = None
             ∧ ((¬ newOrAck (values l) t nonce ∧ out = Continue
                 ∧ trace l' = trace l ++ pre
                 ∧ deltaCancellations (values l')
                   = deltaCancellations (values l)
                 ∧ deltaNonces (values l') = deltaNonces (values l)
                 ∧ deltaResponses (values l') = deltaResponses (values l))
                ∨ (newOrAck (values l) t nonce ∧
                   ∃ drained,
                     Forall isResponseEvent drained ∧
                     ((∃ e, out = Return (Some e)
                            ∧ cancelCalls (values l) t ≠ []
                            ∧ trace l' = trace l ++ pre
                                           ++ cancelCalls (values l) t
                                           ++ drained)
                      ∨ (out = Continue ∧
                         ∃ state,
                           trace l' = trace l ++ pre
                                        ++ cancelCalls (values l) t
                                        ++ drained
                                        ++ [CallCreateDeltaWatch req1 state]
                           ∧ (cancelCalls (values l) t ≠ [] →
                              Forall2 processedAs
                                (deltaResponses (values l)) (sent drained)
                              ∧ deltaResponses (values l') = [])
                           ∧ (deltaResponses (values l) = [] →
                              deltaNonces (values l') = deltaNonces (values l)
                              ∧ deltaResponses (values l') = [])))))))).
Proof.
  intros Hr t nonce req1. apply onRequest_inv in Hr.
  destruct Hr as [(Hd & Hu & -> & Hv & _ & _ & Ht)
                 |(Hads & lc & logs & Hno & Hca & Hre & _ & _ & _
                   & Hlogs & Ht & Hrest)].
  { exists [], []. split; [done|]. left. rewrite !app_nil_r.
    by split_and!. }
  fold req1 in Ht, Hrest.
  exists logs, (requestCalls s streamID req1). split; [done|].
  right. split; [done|]. split; [done|].
  destruct (requestVerdict s streamID _ req1) as [e|].
  { destruct Hrest as [-> ->]. left. exists e. by split_and!. }
  right. split; [done|]. apply reconcile_shape in Hrest.
  change (discovery.TypeUrl req1) with t in Hrest. fold nonce in Hrest.
  unfold newOrAck, cancelCalls in *. rewrite Hno, Hca, Hre, Ht in Hrest.
  destruct Hrest as [(Hmis & -> & ->)|(Hgo & drained & Hdr & Hrest)].
  { left. by split_and!. }
  right. split; [done|]. exists drained. split; [done|].
  destruct Hrest as [(e & -> & Hcc & Ht')|(-> & state & Ht' & Hc & Hq)].
  - left. exists e. split; [done|]. split; [done|].
    by rewrite Ht', <- !app_assoc.
  - right. split; [done|]. exists state.
    split; [by rewrite Ht', <- !app_assoc|]. done.
Qed.

(** ** The loop *)

Lemma step_summary l i l' out :
  step AnyType s str streamID defaultTypeURL l i = (l', out) →
  node l' = match i with
            | RecvRequest (Some req) => rehydrated l req
            | _ => node l
            end ∧
  (nonceInv l → nonceInv l') ∧
  (out = Continue → noncesAgree (values l) → noncesAgree (values l')) ∧
  ∃ evs, trace l' = trace l ++ evs ∧ Forall isLoopEvent evs.
Proof.
  destruct i as [| |[req|]| |resp]; cbn [step].
  - intros [= <- <-]. destruct (log s); cbn.
    + split_and!; [done| |done|by eexists; split; [done|repeat constructor]].
      eapply nonceInv_quiet; [done|by cbn|done].
    + split_and!; [done..|]. exists []. by rewrite app_nil_r.
  - destruct (deltaResponses (values l)) as [|resp rest].
    { intros [= <- <-]. split_and!; [done..|]. exists [].
      by rewrite app_nil_r. }
    destruct (process _ _ _ _ resp) as [l1 [e|]] eqn:Hp; intros [= <- <-];
      destruct (process_frame _ _ _ _ Hp) as (Hn & _ & evs & Ht & Hevs);
      (split_and!;
       [done
       |intros Hi; by eapply nonceInv_process, Hp
       |
       |exists evs; split; [done|by apply responses_loop]]).
    + done.
    + intros _ Ha. by eapply process_noncesAgree, Hp.
  - intros Hr.
    destruct (onRequest_summary _ _ _ _ Hr) as (? & ? & ? & evs & ? & ? & _).
    split_and!; [done..|]. by exists evs.
  - intros [= <- <-]. split_and!; [done..|]. exists [].
    by rewrite app_nil_r.
  - intros [= <- <-]. split_and!; [done..|]. exists [].
    by rewrite app_nil_r.
  - intros [= <- <-]. split_and!; [done..|]. exists [].
    by rewrite app_nil_r.
Qed.

Lemma loop_summary inputs l l' out :
  loop AnyType s str streamID defaultTypeURL l inputs = (l', out) →
  (nonceInv l → nonceInv l') ∧
  (out = Continue → noncesAgree (values l) → noncesAgree (values l')) ∧
  ∃ evs, trace l' = trace l ++ evs ∧ Forall isLoopEvent evs.
Proof.
  revert l. induction inputs as [|i inputs IH]; intros l; cbn [loop].
  - intros [= <- <-]. split_and!; [done..|]. exists [].
    by rewrite app_nil_r.
  - destruct (step _ _ _ _ _ l i) as [l1 [|err]] eqn:Hs;
      destruct (step_summary _ _ _ _ Hs) as (_ & Hi & Ha & evs & Ht & Hevs).
    + intros Hl. destruct (IH _ Hl) as (Hi' & Ha' & evs' & Ht' & Hevs').
      split_and!; [by auto|by auto|].
      exists (evs ++ evs'). rewrite Ht', Ht, app_assoc.
      split; [done|by apply Forall_app].
    + intros [= <- <-]. split_and!; [done..|]. by exists evs.
Qed.

Lemma loop_node inputs l l' out :
  Forall keepsNode inputs →
  loop AnyType s str streamID defaultTypeURL l inputs = (l', out) →
  node l' = node l.
Proof.
  intros Hk. revert l.
  induction Hk as [|i inputs Hi _ IH]; intros l; cbn [loop].
  - by intros [= <- <-].
  - destruct (step _ _ _ _ _ l i) as [l1 [|err]] eqn:Hs;
      destruct (step_summary _ _ _ _ Hs) as (Hn & _).
    + intros Hl. rewrite (IH _ Hl), Hn.
      destruct i as [| |[req|]| |]; try done. cbn in Hi.
      unfold rehydrated. by rewrite Hi.
    + intros [= <- <-]. rewrite Hn.
      destruct i as [| |[req|]| |]; try done. cbn in Hi.
      unfold rehydrated. by rewrite Hi.
Qed.

End ProcessorFacts.

(** ** Entry and teardown *)

Lemma Cancel_frame v l :
  values (Cancel v l) = values l ∧ streamNonce (Cancel v l) = streamNonce l ∧
  node (Cancel v l) = node l ∧
  ∃ evs, trace (Cancel v l) = trace l ++ evs ∧ Forall isCancel evs.
Proof.
  unfold Cancel. generalize (map_to_list (deltaCancellations v)).
  intros kcs. revert l. induction kcs as [|[k [c|]] kcs IH]; intros l; cbn.
  - split_and!; [done..|]. exists []. by rewrite app_nil_r.
  - destruct (IH (emit (CallCancel c) l)) as (-> & -> & -> & evs & -> & Hevs).
    split_and!; [done..|]. exists (CallCancel c :: evs). cbn.
    rewrite <- app_assoc. split; [done|by constructor].
  - apply IH.
Qed.

Lemma processDelta_eq Any URLs s str d inputs :
  processDelta Any URLs s str d inputs =
  let id := wrap64 (streamCount s + 1) in
  let l0 := entered Any URLs s d in
  let '(l, out) :=
    match callbacks s with
    | Some cb =>
      match OnDeltaStreamOpen cb [] id d with
      | Some e => (l0, Return (Some e))
      | None => loop Any s str id d l0 inputs
      end
    | None => loop Any s str id d l0 inputs
    end in
  match out with
  | Continue => (l, Continue)
  | Return err => (teardown s id l, Return err)
  end.
Proof. unfold processDelta, entered. by destruct (callbacks s). Qed.

Lemma teardown_frame s streamID l :
  values (teardown s streamID l) = values l ∧
  streamNonce (teardown s streamID l) = streamNonce l ∧
  ∃ cancels,
    Forall isCancel cancels ∧
    trace (teardown s streamID l)
    = trace l ++ cancels ++ match callbacks s with
                            | Some _ => [CallOnDeltaStreamClosed streamID]
                            | None => []
                            end.
Proof.
  unfold teardown.
  destruct (Cancel_frame (values l) l) as (Hv & Hn & _ & cancels & Ht & Hc).
  destruct (callbacks s); cbn; rewrite Hv, Hn, Ht.
  - split_and!; [done..|]. exists cancels. by rewrite <- app_assoc.
  - split_and!; [done..|]. exists cancels. by rewrite app_nil_r.
Qed.

Lemma sent_cancels evs : Forall isCancel evs → sent evs = [].
Proof. induction 1 as [|[] evs He _ IH]; done. Qed.

Lemma nonceInv_entered Any URLs s d : nonceInv (entered Any URLs s d).
Proof. unfold nonceInv, entered. cbn. by destruct (callbacks s). Qed.

Lemma processDelta_nonceInv Any URLs s str d inputs :
  nonceInv (processDelta Any URLs s str d inputs).1.
Proof.
  rewrite processDelta_eq. cbn zeta.
  pose proof (nonceInv_entered Any URLs s d) as H0.
  set (l0 := entered Any URLs s d) in *.
  set (id := wrap64 (streamCount s + 1)).
  assert (∀ l, nonceInv l → nonceInv (teardown s id l)) as Htd.
  { intros l Hl.
    destruct (teardown_frame s id l) as (_ & Hn & cancels & Hc & Ht).
    eapply nonceInv_quiet; [done..| |done].
    rewrite sent_app, (sent_cancels _ Hc). by destruct (callbacks s). }
  assert (∀ l out, loop Any s str id d l0 inputs = (l, out) →
                   nonceInv (match out with
                             | Continue => (l, Continue)
                             | Return err => (teardown s id l, Return err)
                             end).1) as Hloop.
  { intros l out Hl. destruct (loop_summary _ _ _ _ _ _ _ _ _ Hl) as (Hi & _).
    destruct out; cbn; auto. }
  destruct (callbacks s) as [cb|].
  - destruct (OnDeltaStreamOpen cb [] id d) as [e|]; [cbn; by eauto|].
    destruct (loop Any s str id d l0 inputs) as [l out] eqn:Hl. by eapply Hloop.
  - destruct (loop Any s str id d l0 inputs) as [l out] eqn:Hl. by eapply Hloop.
Qed.

Lemma noncesAgree_entered Any URLs s d :
  noncesAgree (values (entered Any URLs s d)).
Proof. intros t n st. cbn. by rewrite lookup_empty. Qed.

(** The agreement of the two records of the last nonce holds whenever the
    processor waits in its [select]. *)
Lemma running_noncesAgree Any URLs s str d inputs l :
  processDelta Any URLs s str d inputs = (l, Continue) →
  noncesAgree (values l).
Proof.
  rewrite processDelta_eq. cbn zeta.
  pose proof (noncesAgree_entered Any URLs s d) as H0.
  set (l0 := entered Any URLs s d) in *.
  set (id := wrap64 (streamCount s + 1)).
  assert (∀ l1 out, loop Any s str id d l0 inputs = (l1, out) →
                    match out with
                    | Continue => (l1, Continue)
                    | Return err => (teardown s id l1, Return err)
                    end = (l, Continue) → noncesAgree (values l)) as Hloop.
  { intros l1 out Hl.
    destruct (loop_summary _ _ _ _ _ _ _ _ _ Hl) as (_ & Ha & _).
    destruct out; [|done]. intros [= <-]. auto. }
  destruct (callbacks s) as [cb|].
  - destruct (OnDeltaStreamOpen cb [] id d) as [e|]; [done|].
    destruct (loop Any s str id d l0 inputs) as [l1 out] eqn:Hl.
    by eapply Hloop.
  - destruct (loop Any s str id d l0 inputs) as [l1 out] eqn:Hl.
    by eapply Hloop.
Qed.

(** ** Responses: nonces and stream state *)

(** C7. After a call of [process] that returns nil, both records of the
    type of the response hold the nonce just stamped on it, the cancel
    handle of the type is nil, and the nonce recorded for a type is the one
    in its stream state for every type that has both entries. *)
Theorem process_success_records_nonce s str streamID l resp l' :
  noncesAgree (values l) →
  process s str streamID l resp = (l', None) →
  ∃ r out,
    resp = Some r ∧
    let t := discovery.TypeUrl (cache.GetDeltaRequest r) in
    let nonce := FormatInt (wrap64 (streamNonce l + 1)) in
    last (trace l') = Some (CallSend out) ∧ discovery.Nonce out = nonce ∧
    deltaNonces (values l') !! t = Some nonce ∧
    deltaCancellations (values l') !! t = Some None ∧
    (∃ st, deltaStreamStates (values l') !! t = Some st
           ∧ stream.Nonce st = nonce) ∧
    noncesAgree (values l').
Proof.
  intros Hagree Hp.
  destruct (process_inv _ _ _ _ _ _ _ Hp)
    as [[_ [? [=]]]|(r & out & -> & Hout)].
  exists r, (stamped l out). split; [done|]. cbn zeta.
  destruct (process_sent _ _ _ _ _ _ _ _ Hout Hp)
    as (_ & _ & Ht & _ & _ & Hsend).
  split; [by rewrite Ht, app_assoc, last_snoc|]. split; [done|].
  destruct (Send str _ _); [by destruct Hsend|].
  destruct Hsend as (-> & -> & -> & Hup). rewrite !lookup_insert_eq.
  split_and!; [done..| |by eapply process_noncesAgree].
  eexists. split; [done|]. by apply update_Nonce.
Qed.

(** C10 (as amended). When [GetSystemVersion] or [GetDeltaVersionMap] fails
    after the response has been sent, the stream ends with that error; the
    response has gone out under a fresh nonce, the nonce is recorded for
    the type and its cancel handle is nil, and the stream state of the type
    has been overwritten with the zero state, whose empty nonce differs
    from the recorded one. *)
Theorem version_error_after_send Any s str streamID d l r rest out e :
  deltaResponses (values l) = Some r :: rest →
  cache.GetDeltaDiscoveryResponse r = Ok out →
  Send str (trace l ++ responseCalls s streamID r (stamped l out))
    (stamped l out) = None →
  cache.GetSystemVersion r = Err e
  ∨ ((∃ sv, cache.GetSystemVersion r = Ok sv)
     ∧ cache.GetDeltaVersionMap r = Err e) →
  ∃ l',
    step Any s str streamID d l RecvResponse = (l', Return (Some e)) ∧
    let t := discovery.TypeUrl (cache.GetDeltaRequest r) in
    let nonce := FormatInt (wrap64 (streamNonce l + 1)) in
    last (trace l') = Some (CallSend (stamped l out)) ∧
    discovery.Nonce (stamped l out) = nonce ∧
    deltaNonces (values l') !! t = Some nonce ∧
    deltaCancellations (values l') !! t = Some None ∧
    deltaStreamStates (values l') !! t = Some stream.zero ∧
    stream.Nonce stream.zero ≠ nonce.
Proof.
  intros Hq Hout Hsend Hfail. cbn [step]. rewrite Hq.
  destruct (process s str streamID _ (Some r)) as [l' err] eqn:Hp.
  destruct (process_sent _ _ _ _ _ _ _ _ Hout Hp)
    as (_ & _ & Ht & _ & _ & Hrec).
  cbn [trace set_values streamNonce] in Ht, Hrec.
  change (stamped (set_values _ l) out) with (stamped l out) in Ht, Hrec.
  rewrite Hsend in Hrec. destruct Hrec as (Hn & Hc & Hs & Herr).
  assert (update r (FormatInt (wrap64 (streamNonce l + 1)))
          = (stream.zero, Some e)) as Hup.
  { unfold update. destruct Hfail as [->|[[sv ->] ->]]; done. }
  rewrite Hup in Hs, Herr. subst err. exists l'. split; [done|].
  cbn zeta. rewrite Ht, Hn, Hc, Hs, !lookup_insert_eq, app_assoc, last_snoc.
  split_and!; [done..|]. cbn. intros H. by eapply FormatInt_nonempty.
Qed.

(** C6. The n-th response sent on a stream carries the decimal form of n:
    the first one carries "1", and read as integers the nonces grow
    strictly.  The counter is an [int64]; the statement is for streams of
    fewer than 2^63 responses. *)
Theorem nonces_count_from_one Any URLs s str d inputs :
  let nonces :=
    discovery.Nonce
      <$> sent (trace (processDelta Any URLs s str d inputs).1) in
  Z.of_nat (length nonces) < 2 ^ 63 →
  (∀ n nonce, nonces !! n = Some nonce → nonce = FormatInt (Z.of_nat (S n)))
  ∧ (∀ nonce, nonces !! 0%nat = Some nonce → nonce = "1")
  ∧ (∀ i j a b, (i < j)%nat → nonces !! i = Some a → nonces !! j = Some b →
       ∃ x y, ParseInt a = Some x ∧ ParseInt b = Some y ∧ x < y).
Proof.
  intros nonces Hbound.
  destruct (processDelta_nonceInv Any URLs s str d inputs) as [_ Hn].
  fold nonces in Hn. rewrite <- (length_fmap discovery.Nonce) in Hn.
  fold nonces in Hn.
  assert (∀ n nonce, nonces !! n = Some nonce →
                     nonce = FormatInt (Z.of_nat (S n))) as Hnth.
  { intros n nonce Hl. pose proof (lookup_lt_Some _ _ _ Hl) as Hlt.
    rewrite Hn, list_lookup_fmap, lookup_seq_lt in Hl by done.
    injection Hl as <-. rewrite wrap64_small; [done|]. lia. }
  split_and!; [done|by intros nonce ->%Hnth|].
  intros i j a b Hij ->%Hnth ->%Hnth.
  exists (Z.of_nat (S i)), (Z.of_nat (S j)).
  rewrite !ParseInt_FormatInt. split_and!; [done..|lia].
Qed.

(** ** Requests: watches, nodes and type URLs *)

Lemma nackLog_logs s req : Forall isLog (nackLog s req).
Proof.
  unfold nackLog. destruct (discovery.ErrorDetail req), (log s);
    by repeat constructor.
Qed.

Lemma requestCalls_preamble s streamID req :
  Forall isPreamble (requestCalls s streamID req).
Proof. unfold requestCalls. destruct (callbacks s); by repeat constructor. Qed.

Lemma logs_preamble evs : Forall isLog evs → Forall isPreamble evs.
Proof. intros H. eapply Forall_impl; [done|]. by intros []. Qed.

Lemma preamble_quiet evs :
  Forall isPreamble evs →
  watchesCreated evs = 0%nat ∧ List.filter isCancel evs = [].
Proof.
  intros H. unfold watchesCreated.
  rewrite !(filter_none _ isPreamble); [done| |done| |done]; by intros [].
Qed.

Lemma handedOver_logs req evs :
  Forall isLog evs → Forall (handedOver req) evs.
Proof. intros H. eapply Forall_impl; [done|]. by intros []. Qed.

Lemma handedOver_responses req evs :
  Forall isResponseEvent evs → Forall (handedOver req) evs.
Proof. intros H. eapply Forall_impl; [done|]. by intros []. Qed.

Lemma handedOver_requestCalls s streamID req :
  Forall (handedOver req) (requestCalls s streamID req).
Proof. unfold requestCalls. destruct (callbacks s); by repeat constructor. Qed.

Lemma handedOver_cancelCalls req v t :
  Forall (handedOver req) (cancelCalls v t).
Proof.
  unfold cancelCalls. destruct (deltaCancellations v !! t) as [[c|]|];
    by repeat constructor.
Qed.

Lemma onRequest_handedOver Any s str streamID d l req l' out :
  onRequest Any s str streamID d l (Some req) = (l', out) →
  Forall (handedOver (normalised Any d l req)) (emitted l l').
Proof.
  intros Hr. destruct (onRequest_shape _ _ _ _ _ _ _ _ _ Hr)
    as (logs & calls & Hlogs & Hcases).
  pose proof (nackLog_logs s req) as Hnack.
  set (req1 := normalised Any d l req) in *.
  assert (calls = [] ∨ calls = requestCalls s streamID req1 →
          Forall (handedOver req1) (nackLog s req ++ logs ++ calls)) as Hpre.
  { intros Hc. rewrite !Forall_app. split_and!; [by apply handedOver_logs..|].
    destruct Hc as [->| ->]; [done|apply handedOver_requestCalls]. }
  destruct Hcases as [(_ & _ & _ & -> & _ & Ht & _)|(_ & -> & Hcases)].
  { rewrite (emitted_app _ _ _ Ht). auto. }
  destruct Hcases as [(e & _ & _ & Ht & _)|(_ & Hcases)].
  { rewrite (emitted_app _ _ _ Ht). auto. }
  destruct Hcases as [(_ & _ & Ht & _)|(_ & drained & Hdr & Hcases)].
  { rewrite (emitted_app _ _ _ Ht). auto. }
  destruct Hcases as [(e & _ & _ & Ht)|(_ & state & Ht & _)].
  - rewrite (emitted_app _ _ _ Ht).
    rewrite !Forall_app. split_and!; [by apply handedOver_logs..
      |apply handedOver_requestCalls|apply handedOver_cancelCalls
      |by apply handedOver_responses].
  - rewrite (emitted_app _ _ _ Ht).
    rewrite !Forall_app. split_and!; [by apply handedOver_logs..
      |apply handedOver_requestCalls|apply handedOver_cancelCalls
      |by apply handedOver_responses|by repeat constructor].
Qed.

(** What the arm does with a request whose nonce is not the last one sent
    for its type. *)
Lemma onRequest_stale Any s str streamID d l req l' out n :
  onRequest Any s str streamID d l (Some req) = (l', out) →
  deltaNonces (values l) !! resolvedTypeUrl Any d req = Some n →
  n ≠ discovery.ResponseNonce req →
  watchesCreated (emitted l l') = 0%nat
  ∧ List.filter isCancel (emitted l l') = []
  ∧ deltaCancellations (values l') = deltaCancellations (values l)
  ∧ (¬ (d = Any ∧ discovery.TypeUrl req = "") →
     (∀ tr, requestVerdict s streamID tr (normalised Any d l req) = None) →
     out = Continue).
Proof.
  intros Hr Hn Hne. destruct (onRequest_shape _ _ _ _ _ _ _ _ _ Hr)
    as (logs & calls & Hlogs & Hcases).
  pose proof (nackLog_logs s req) as Hnack.
  set (req1 := normalised Any d l req) in *.
  assert (calls = [] ∨ calls = requestCalls s streamID req1 →
          Forall isPreamble (nackLog s req ++ logs ++ calls)) as Hpre.
  { intros Hc. rewrite !Forall_app. split_and!; [by apply logs_preamble..|].
    destruct Hc as [->| ->]; [done|apply requestCalls_preamble]. }
  assert (¬ newOrAck (values l) (resolvedTypeUrl Any d req)
            (discovery.ResponseNonce req)) as Hstale.
  { unfold newOrAck. rewrite Hn. intros [|]; congruence. }
  destruct Hcases as [(Hd & Hu & _ & -> & _ & Ht & Hv)|(_ & -> & Hcases)].
  { rewrite (emitted_app _ _ _ Ht), Hv.
    destruct (preamble_quiet _ (Hpre (or_introl eq_refl))).
    split_and!; [done..|]. by intros []. }
  destruct (preamble_quiet _ (Hpre (or_intror eq_refl))) as [Hw Hc].
  destruct Hcases as [(e & Hverdict & _ & Ht & Hca)|(_ & Hcases)].
  { rewrite (emitted_app _ _ _ Ht). split_and!; [done..|].
    intros _ Hok. by rewrite Hok in Hverdict. }
  destruct Hcases as [(_ & -> & Ht & Hca & _)|(Hgo & _)]; [|done].
  rewrite (emitted_app _ _ _ Ht). by split_and!.
Qed.

(** The watch decision of the whole arm. *)
Lemma onRequest_created_iff Any s str streamID d l req l' out :
  onRequest Any s str streamID d l (Some req) = (l', out) →
  let t := resolvedTypeUrl Any d req in
  let nonce := discovery.ResponseNonce req in
  (watchesCreated (emitted l l') = 1%nat
   ↔ out = Continue ∧ (deltaNonces (values l) !! t = None
                       ∨ deltaNonces (values l) !! t = Some nonce))
  ∧ (watchesCreated (emitted l l') ≤ 1)%nat.
Proof.
  intros Hr t nonce.
  destruct (onRequest_summary _ _ _ _ _ _ _ _ _ Hr)
    as (_ & _ & _ & evs & Ht & _ & Hcount).
  rewrite (emitted_app _ _ _ Ht). fold t nonce in Hcount.
  unfold newOrAck in Hcount. split.
  - destruct Hcount as [(-> & ?)|(-> & ?)]; [done|]. split; [done|tauto].
  - destruct Hcount as [(-> & ?)|(-> & ?)]; lia.
Qed.

(** C1 (as amended). A request creates a watch, for its type URL, exactly
    when its arm runs to the end (the request passes the type URL check
    and the callback, and the drain after a cancel does not fail) and the
    type is new on the stream or the nonce is the last one sent for it.
    With another nonce [CreateDeltaWatch] is not called and the cancel
    handle stays as it is, uncalled. *)
Theorem watch_created_iff Any s str streamID d l req l' out :
  onRequest Any s str streamID d l (Some req) = (l', out) →
  let t := resolvedTypeUrl Any d req in
  let nonce := discovery.ResponseNonce req in
  (watchesCreated (emitted l l') = 1%nat
   ↔ out = Continue ∧ (deltaNonces (values l) !! t = None
                       ∨ deltaNonces (values l) !! t = Some nonce))
  ∧ (watchesCreated (emitted l l') ≤ 1)%nat
  ∧ (∀ r state, CallCreateDeltaWatch r state ∈ emitted l l' →
                discovery.TypeUrl r = t)
  ∧ (∀ n, deltaNonces (values l) !! t = Some n → n ≠ nonce →
          watchesCreated (emitted l l') = 0%nat
          ∧ List.filter isCancel (emitted l l') = []
          ∧ deltaCancellations (values l') = deltaCancellations (values l)).
Proof.
  intros Hr t nonce.
  destruct (onRequest_created_iff _ _ _ _ _ _ _ _ _ Hr) as [Hiff Hle].
  split_and!; [done..| |].
  - intros r state Hin.
    pose proof (onRequest_handedOver _ _ _ _ _ _ _ _ _ Hr) as Hh.
    rewrite Forall_forall in Hh. by rewrite (Hh _ Hin).
  - intros n Hn Hne.
    by destruct (onRequest_stale _ _ _ _ _ _ _ _ _ _ Hr Hn Hne)
      as (Hw & Hc & Hca & _).
Qed.

Lemma onRequest_idle Any s str streamID d l req l' :
  deltaResponses (values l) = [] →
  onRequest Any s str streamID d l (Some req) = (l', Continue) →
  deltaNonces (values l') = deltaNonces (values l)
  ∧ deltaResponses (values l') = [].
Proof.
  intros Hq Hr. destruct (onRequest_shape _ _ _ _ _ _ _ _ _ Hr)
    as (logs & calls & _ & Hcases).
  destruct Hcases as [(_ & _ & _ & _ & [=] & _)|(_ & _ & Hcases)].
  destruct Hcases as [(e & _ & [=] & _)|(_ & Hcases)].
  destruct Hcases as [(_ & _ & _ & _ & -> & ->)|(_ & drained & _ & Hcases)];
    [done|].
  destruct Hcases as [(e & [=] & _)|(_ & state & _ & _ & Hidle)]. auto.
Qed.

(** C2 (as amended). Two requests in a row for one type URL with one
    nonce, no response pending in between, both handled to the end: they
    take the same decision.  Either each of them creates a watch, two
    in all, or none does; never exactly one. *)
Theorem same_nonce_twice Any s str streamID d l r1 r2 l1 l2 :
  deltaResponses (values l) = [] →
  onRequest Any s str streamID d l (Some r1) = (l1, Continue) →
  onRequest Any s str streamID d l1 (Some r2) = (l2, Continue) →
  resolvedTypeUrl Any d r1 = resolvedTypeUrl Any d r2 →
  discovery.ResponseNonce r1 = discovery.ResponseNonce r2 →
  let t := resolvedTypeUrl Any d r1 in
  let nonce := discovery.ResponseNonce r1 in
  emitted l l2 = emitted l l1 ++ emitted l1 l2
  ∧ watchesCreated (emitted l l1) = watchesCreated (emitted l1 l2)
  ∧ (deltaNonces (values l) !! t = None
     ∨ deltaNonces (values l) !! t = Some nonce →
     watchesCreated (emitted l l2) = 2%nat)
  ∧ (∀ n, deltaNonces (values l) !! t = Some n → n ≠ nonce →
          watchesCreated (emitted l l2) = 0%nat)
  ∧ watchesCreated (emitted l l2) ≠ 1%nat.
Proof.
  intros Hq H1 H2 Ht Hn t nonce.
  destruct (onRequest_idle _ _ _ _ _ _ _ _ Hq H1) as [Hno _].
  destruct (onRequest_summary _ _ _ _ _ _ _ _ _ H1)
    as (_ & _ & _ & evs1 & Ht1 & _ & Hc1).
  destruct (onRequest_summary _ _ _ _ _ _ _ _ _ H2)
    as (_ & _ & _ & evs2 & Ht2 & _ & Hc2).
  assert (trace l2 = trace l ++ evs1 ++ evs2) as Ht12
    by (by rewrite Ht2, Ht1, app_assoc).
  rewrite (emitted_app _ _ _ Ht1), (emitted_app _ _ _ Ht2),
    (emitted_app _ _ _ Ht12), watchesCreated_app.
  unfold newOrAck in Hc1, Hc2. rewrite Hno, <- Ht, <- Hn in Hc2.
  fold t nonce in Hc1, Hc2.
  destruct Hc1 as [(-> & _ & Hgo)|(-> & Hstay)];
    destruct Hc2 as [(-> & _ & Hgo')|(-> & Hstay')]; try tauto.
  - split_and!; [done..| |lia]. intros n Hs Hne.
    destruct Hgo as [|]; congruence.
  - split_and!; [done|done| |done|lia]. tauto.
Qed.

(** C3. When the type of a request has a non-nil cancel handle and a
    watch is created for it, the arm has first called the handle, then
    processed every response that was pending, in order, and only then
    called [CreateDeltaWatch], with nothing left in the channel. *)
Theorem cancel_drain_then_watch Any s str streamID d l req l' out cancel :
  onRequest Any s str streamID d l (Some req) = (l', out) →
  deltaCancellations (values l) !! resolvedTypeUrl Any d req
  = Some (Some cancel) →
  watchesCreated (emitted l l') ≠ 0%nat →
  ∃ pre drained state,
    emitted l l' = pre ++ CallCancel cancel :: drained
                     ++ [CallCreateDeltaWatch (normalised Any d l req) state]
    ∧ Forall isPreamble pre
    ∧ Forall isResponseEvent drained
    ∧ Forall2 processedAs (deltaResponses (values l)) (sent drained)
    ∧ deltaResponses (values l') = [].
Proof.
  intros Hr Hcancel Hcreated.
  destruct (onRequest_shape _ _ _ _ _ _ _ _ _ Hr)
    as (logs & calls & Hlogs & Hcases).
  pose proof (nackLog_logs s req) as Hnack.
  set (req1 := normalised Any d l req) in *.
  assert (calls = [] ∨ calls = requestCalls s streamID req1 →
          Forall isPreamble (nackLog s req ++ logs ++ calls)) as Hpre.
  { intros Hc. rewrite !Forall_app. split_and!; [by apply logs_preamble..|].
    destruct Hc as [->| ->]; [done|apply requestCalls_preamble]. }
  destruct Hcases as [(_ & _ & _ & -> & _ & Ht & _)|(_ & -> & Hcases)].
  { rewrite (emitted_app _ _ _ Ht) in Hcreated.
    by destruct (preamble_quiet _ (Hpre (or_introl eq_refl))). }
  destruct (preamble_quiet _ (Hpre (or_intror eq_refl))) as [Hw _].
  destruct Hcases as [(e & _ & _ & Ht & _)|(_ & Hcases)].
  { by rewrite (emitted_app _ _ _ Ht) in Hcreated. }
  destruct Hcases as [(_ & _ & Ht & _)|(_ & drained & Hdr & Hcases)].
  { by rewrite (emitted_app _ _ _ Ht) in Hcreated. }
  unfold cancelCalls in Hcases. rewrite Hcancel in Hcases.
  destruct Hcases as [(e & _ & _ & Ht)|(_ & state & Ht & Hdone & _)].
  { assert (watchesCreated ([CallCancel cancel] ++ drained) = 0%nat) as Hz
      by (by rewrite <- (watchesCreated_responses drained Hdr)).
    by rewrite (emitted_app _ _ _ Ht), watchesCreated_app, Hw, Hz
      in Hcreated. }
  destruct Hdone as [Hall Hempty]; [done|].
  exists (nackLog s req ++ logs ++ requestCalls s streamID req1), drained,
    state.
  rewrite (emitted_app _ _ _ Ht). split_and!; [done|by auto|done..].
Qed.

(** The arm up to the callback: log lines, then the stream-request
    callback on the normalised request, unless the type URL check has
    ended the stream. *)
Lemma onRequest_callback Any s str streamID d l req l' out :
  onRequest Any s str streamID d l (Some req) = (l', out) →
  ∃ logs rest,
    Forall isLog logs ∧ emitted l l' = nackLog s req ++ logs ++ rest ∧
    ((d = Any ∧ discovery.TypeUrl req = "" ∧ logs = [] ∧ rest = []
      ∧ out = Return (Some (status_Errorf InvalidArgument
                              "type URL is required for ADS"))
      ∧ values l' = values l)
     ∨ (¬ (d = Any ∧ discovery.TypeUrl req = "") ∧
        ∃ more,
          rest = requestCalls s streamID (normalised Any d l req) ++ more ∧
          match requestVerdict s streamID (trace l ++ nackLog s req ++ logs)
                  (normalised Any d l req) with
          | Some e => out = Return (Some e) ∧ more = []
          | None =>
            out = Continue
            ∨ (newOrAck (values l) (resolvedTypeUrl Any d req)
                 (discovery.ResponseNonce req)
               ∧ cancelCalls (values l) (resolvedTypeUrl Any d req) ≠ []
               ∧ ∃ e, out = Return (Some e))
          end)).
Proof.
  intros Hr. destruct (onRequest_shape _ _ _ _ _ _ _ _ _ Hr)
    as (logs & calls & Hlogs & Hcases).
  destruct Hcases as [(? & ? & -> & -> & -> & Ht & ?)|(? & -> & Hcases)].
  { exists [], []. rewrite (emitted_app _ _ _ Ht). split_and!; [done..|].
    left. by split_and!. }
  set (req1 := normalised Any d l req) in *.
  destruct Hcases as [(e & Hverdict & -> & Ht & _)|(Hverdict & Hcases)].
  { exists logs, (requestCalls s streamID req1). rewrite (emitted_app _ _ _ Ht).
    split_and!; [done..|]. right. split; [done|]. exists [].
    rewrite app_nil_r, Hverdict. done. }
  destruct Hcases as [(_ & -> & Ht & _)|(Hgo & drained & _ & Hcases)].
  { exists logs, (requestCalls s streamID req1). rewrite (emitted_app _ _ _ Ht).
    split_and!; [done..|]. right. split; [done|]. exists [].
    rewrite app_nil_r, Hverdict. auto. }
  destruct Hcases as [(e & -> & Hcc & Ht)|(-> & state & Ht & _)].
  - eexists logs, _. rewrite (emitted_app _ _ _ Ht), <- !app_assoc.
    split_and!; [done..|]. right. split; [done|]. eexists. split; [done|].
    rewrite Hverdict. right. split_and!; [done..|by eauto].
  - eexists logs, _. rewrite (emitted_app _ _ _ Ht), <- !app_assoc.
    split_and!; [done..|]. right. split; [done|]. eexists. split; [done|].
    rewrite Hverdict. by left.
Qed.

(** C5 (as amended). A request that carries an error detail has the
    detail logged, when the server has a logger, and is then handled as
    any request: whether a watch is created is decided by the nonce alone,
    so none is created when the nonce is not the last one sent for the
    type, and one is created when it is; the stream ends only for what
    ends it on any request. *)
Theorem nack_logged_then_handled Any s str streamID d l req detail l' out :
  discovery.ErrorDetail req = Some detail →
  onRequest Any s str streamID d l (Some req) = (l', out) →
  let t := resolvedTypeUrl Any d req in
  let nonce := discovery.ResponseNonce req in
  (log s = true →
   ∃ evs, emitted l l'
          = LogErrorf "received error from envoy: %s" detail :: evs)
  ∧ (watchesCreated (emitted l l') = 1%nat
     ↔ out = Continue ∧ (deltaNonces (values l) !! t = None
                         ∨ deltaNonces (values l) !! t = Some nonce))
  ∧ (∀ n, deltaNonces (values l) !! t = Some n → n ≠ nonce →
          watchesCreated (emitted l l') = 0%nat
          ∧ List.filter isCancel (emitted l l') = []
          ∧ deltaCancellations (values l') = deltaCancellations (values l))
  ∧ (out ≠ Continue →
     (d = Any ∧ discovery.TypeUrl req = "")
     ∨ (∃ tr e,
          requestVerdict s streamID tr (normalised Any d l req) = Some e
          ∧ out = Return (Some e))
     ∨ ((deltaNonces (values l) !! t = None
         ∨ deltaNonces (values l) !! t = Some nonce)
        ∧ cancelCalls (values l) t ≠ [] ∧ ∃ e, out = Return (Some e))).
Proof.
  intros Hdetail Hr t nonce.
  destruct (onRequest_created_iff _ _ _ _ _ _ _ _ _ Hr) as [Hiff _].
  destruct (onRequest_callback _ _ _ _ _ _ _ _ _ Hr)
    as (logs & rest & _ & Hem & Hcases).
  split_and!; [|done| |].
  2: { intros n Hn Hne.
       by destruct (onRequest_stale _ _ _ _ _ _ _ _ _ _ Hr Hn Hne)
         as (Hw & Hc & Hca & _). }
  - intros Hlog. rewrite Hem. unfold nackLog. rewrite Hdetail, Hlog.
    by eexists.
  - intros Hout.
    destruct Hcases as [(? & ? & _)|(_ & more & _ & Hverdict)]; [by left|].
    right. destruct (requestVerdict s streamID _ _) as [e|] eqn:Hv.
    + left. destruct Hverdict as [-> _]. by eauto.
    + right. by destruct Hverdict as [->|?].
Qed.

(** C9. A request without a type URL: on an aggregated stream the arm
    returns INVALID_ARGUMENT, having called neither the stream-request
    callback nor the cache; on a stream of one type the default is
    written into the request, which is then handled as usual, the
    callback and the cache seeing the default. *)
Theorem missing_type_url Any s str streamID d l req l' out :
  discovery.TypeUrl req = "" →
  onRequest Any s str streamID d l (Some req) = (l', out) →
  (d = Any →
   out = Return (Some (status_Errorf InvalidArgument
                         "type URL is required for ADS"))
   ∧ emitted l l' = nackLog s req
   ∧ List.filter isStreamRequest (emitted l l') = []
   ∧ watchesCreated (emitted l l') = 0%nat
   ∧ values l' = values l
   ∧ ∀ rest, loop Any s str streamID d l (RecvRequest (Some req) :: rest)
             = (l', out))
  ∧ (d ≠ Any →
     let req1 := normalised Any d l req in
     discovery.TypeUrl req1 = d
     ∧ Forall (handedOver req1) (emitted l l')
     ∧ (∃ logs rest, Forall isLog logs
                     ∧ emitted l l'
                       = logs ++ requestCalls s streamID req1 ++ rest)
     ∧ (watchesCreated (emitted l l') = 1%nat
        ↔ out = Continue
          ∧ (deltaNonces (values l) !! d = None
             ∨ deltaNonces (values l) !! d
               = Some (discovery.ResponseNonce req)))).
Proof.
  intros Hempty Hr.
  destruct (onRequest_callback _ _ _ _ _ _ _ _ _ Hr)
    as (logs & rest & Hlogs & Hem & Hcases).
  pose proof (nackLog_logs s req) as Hnack.
  split.
  - intros ->. destruct Hcases as [(_ & _ & -> & -> & -> & Hv)|[[] _]];
      [|done]. rewrite Hem, !app_nil_r.
    split_and!; [done..| | |done|].
    + rewrite (filter_none _ isLog); [done| |done]. by intros [].
    + by apply watchesCreated_logs.
    + intros more. cbn [loop step]. by rewrite Hr.
  - intros Hd. cbn zeta.
    assert (resolvedTypeUrl Any d req = d) as Ht.
    { unfold resolvedTypeUrl. by rewrite decide_True. }
    destruct Hcases as [(? & _)|(_ & more & -> & _)]; [done|].
    split_and!; [done|by eapply onRequest_handedOver| |].
    + exists (nackLog s req ++ logs), more. rewrite Hem, <- !app_assoc.
      split; [by apply Forall_app|done].
    + destruct (onRequest_created_iff _ _ _ _ _ _ _ _ _ Hr) as (Hiff & _).
      by rewrite Ht in Hiff.
Qed.

(** C8. A request that carries a node makes it the remembered node of the
    stream; a request without one is given the remembered node before the
    stream-request callback is called.  So after a request that set the
    node, a later request without node reaches the callback and the cache
    with that node. *)
Theorem node_rehydration Any s str streamID d l r1 mid r2 l1 l2 l3 out :
  onRequest Any s str streamID d l (Some r1) = (l1, Continue) →
  Forall keepsNode mid →
  loop Any s str streamID d l1 mid = (l2, Continue) →
  onRequest Any s str streamID d l2 (Some r2) = (l3, out) →
  node l1 = default (node l) (discovery.Node r1)
  ∧ node l2 = node l1
  ∧ node l3 = default (node l2) (discovery.Node r2)
  ∧ discovery.Node (normalised Any d l2 r2)
    = Some (default (node l2) (discovery.Node r2))
  ∧ Forall (handedOver (normalised Any d l2 r2)) (emitted l2 l3)
  ∧ (¬ (d = Any ∧ discovery.TypeUrl r2 = "") →
     ∃ logs rest, Forall isLog logs
                  ∧ emitted l2 l3
                    = logs ++ requestCalls s streamID (normalised Any d l2 r2)
                        ++ rest)
  ∧ (∀ n, discovery.Node r1 = Some n → discovery.Node r2 = None →
          node l3 = n
          ∧ ∀ e, e ∈ emitted l2 l3 →
                 match e with
                 | CallOnStreamDeltaRequest _ r | CallCreateDeltaWatch r _ =>
                   discovery.Node r = Some n
                 | _ => True
                 end).
Proof.
  intros H1 Hmid Hloop H2.
  destruct (onRequest_summary _ _ _ _ _ _ _ _ _ H1) as (Hn1 & _).
  destruct (onRequest_summary _ _ _ _ _ _ _ _ _ H2) as (Hn3 & _).
  pose proof (loop_node _ _ _ _ _ _ _ _ _ Hmid Hloop) as Hn2.
  pose proof (onRequest_handedOver _ _ _ _ _ _ _ _ _ H2) as Hh.
  unfold rehydrated in *. split_and!; [done..| |].
  - intros Hads.
    destruct (onRequest_callback _ _ _ _ _ _ _ _ _ H2)
      as (logs & rest & Hlogs & Hem & [(Hd & Hu & _)|(_ & more & -> & _)]);
      [by destruct Hads|].
    exists (nackLog s r2 ++ logs), more. rewrite Hem, <- !app_assoc.
    split; [|done]. apply Forall_app. split; [apply nackLog_logs|done].
  - intros n Hr1 Hr2. rewrite Hr1 in Hn1. rewrite Hr2 in Hn3. cbn in Hn1, Hn3.
    split; [congruence|]. intros e He. rewrite Forall_forall in Hh.
    specialize (Hh e He). unfold normalised, rehydrated in Hh.
    rewrite Hr2 in Hh. cbn in Hh.
    destruct e; try done; cbn in Hh; subst; cbn; congruence.
Qed.

(** ** Stream open and stream closed *)

Lemma Cancel_Init URLs size l : Cancel (Init URLs size) l = l.
Proof. unfold Cancel. cbn. by rewrite map_to_list_empty. Qed.

(** C4 (as amended). When the stream-open callback fails, [processDelta]
    returns its error at once: nothing is read, no cancel handle is called
    (none exists yet), and the deferred function calls the stream-closed
    callback.  On every stream stream-closed is called once when
    [processDelta] returns, as its last call, whether or not stream-open
    succeeded, and not before. *)
Theorem stream_closed_on_every_return Any URLs s str d inputs cb :
  callbacks s = Some cb →
  let id := wrap64 (streamCount s + 1) in
  let run := processDelta Any URLs s str d inputs in
  (∀ e, OnDeltaStreamOpen cb [] id d = Some e →
        run.2 = Return (Some e)
        ∧ trace run.1 = [CallOnDeltaStreamOpen id d;
                         CallOnDeltaStreamClosed id])
  ∧ closedCount (trace run.1)
    = match run.2 with Continue => 0%nat | Return _ => 1%nat end
  ∧ (∀ err, run.2 = Return err →
            last (trace run.1) = Some (CallOnDeltaStreamClosed id)).
Proof.
  intros Hcb id run. unfold run. rewrite processDelta_eq. cbn zeta.
  fold id. rewrite Hcb.
  assert (trace (entered Any URLs s d) = [CallOnDeltaStreamOpen id d]) as Ht0.
  { unfold entered. cbn. by rewrite Hcb. }
  assert (∀ l evs, trace l = CallOnDeltaStreamOpen id d :: evs →
                   Forall isLoopEvent evs →
                   closedCount (trace (teardown s id l)) = 1%nat
                   ∧ last (trace (teardown s id l))
                     = Some (CallOnDeltaStreamClosed id)) as Htd.
  { intros l evs Ht Hevs.
    destruct (teardown_frame s id l) as (_ & _ & cancels & Hc & Ht').
    rewrite Hcb in Ht'. rewrite Ht', Ht.
    split; [|by rewrite !app_assoc, last_snoc].
    rewrite (closedCount_app (_ :: _)), (closedCount_app cancels).
    change (closedCount (CallOnDeltaStreamOpen id d :: evs))
      with (closedCount evs).
    rewrite (closedCount_loop evs Hevs). unfold closedCount at 1.
    rewrite (filter_none _ isCancel); [done| |done]. by intros []. }
  split.
  { intros e He. rewrite He. split; [done|].
    change (trace (teardown s id (entered Any URLs s d))
            = [CallOnDeltaStreamOpen id d; CallOnDeltaStreamClosed id]).
    unfold teardown. rewrite Hcb.
    assert (∀ l, Cancel (values (entered Any URLs s d)) l = l) as ->
      by apply Cancel_Init.
    cbn [emit trace]. by rewrite Ht0. }
  destruct (OnDeltaStreamOpen cb [] id d) as [e|].
  { cbn. destruct (Htd (entered Any URLs s d) []) as [Hc Hl]; [done..|].
    split; [done|]. by intros _ _. }
  destruct (loop Any s str id d (entered Any URLs s d) inputs)
    as [l out] eqn:Hl.
  destruct (loop_summary _ _ _ _ _ _ _ _ _ Hl) as (_ & _ & evs & Ht & Hevs).
  rewrite Ht0 in Ht. destruct out as [|err]; cbn.
  - split; [|done]. rewrite Ht.
    change (closedCount ([CallOnDeltaStreamOpen id d] ++ evs))
      with (closedCount evs). by apply closedCount_loop.
  - destruct (Htd l evs) as [Hc Hlast]; [done..|]. split; [done|].
    by intros _ _.
Qed.

(** ** The theorems at work on the stream of the scenarios *)

(** On the stream that has been served nonce 1, the acknowledgement of
    nonce 1 creates a watch. *)
Lemma watch_created_iff_witness :
  let l := xds transport served in
  let r := arm transport l (ack "1") in
  watchesCreated (emitted l r.1) = 1%nat
  ↔ r.2 = Continue
    ∧ (deltaNonces (values l) !! ClusterType = None
       ∨ deltaNonces (values l) !! ClusterType = Some "1").
Proof.
  intros l r.
  refine (proj1 (watch_created_iff "" controlPlane transport 1 ClusterType
                   l (ack "1") r.1 r.2 _)).
  vm_compute. reflexivity.
Defined.

(** The acknowledgement of the last nonce that arrives while the
    transport is breaking: the handle is cancelled, the drain fails on
    [Send], no watch is created. *)
Lemma ack_without_watch :
  let l := xds breakingTransport pending in
  let r := arm breakingTransport l (ack "1") in
  ¬ (deltaNonces (values l) !! ClusterType = None
     ∨ deltaNonces (values l) !! ClusterType
       = Some (discovery.ResponseNonce (ack "1")) →
     watchesCreated (emitted l r.1) = 1%nat).
Proof.
  intros l r Hclaim.
  assert (watchesCreated (emitted l r.1) = 0%nat) as Hnone
    by (vm_compute; reflexivity).
  assert (deltaNonces (values l) !! ClusterType
          = Some (discovery.ResponseNonce (ack "1"))) as Hack
    by (vm_compute; reflexivity).
  clearbody r l. rewrite Hclaim in Hnone; [discriminate|by right].
Qed.

(** The same subscription twice on a fresh stream. *)
Lemma same_nonce_twice_witness :
  let l := xds transport [] in
  let l1 := (arm transport l subscribe).1 in
  let l2 := (arm transport l1 subscribe).1 in
  watchesCreated (emitted l l2) ≠ 1%nat.
Proof.
  intros l l1 l2.
  refine (proj2 (proj2 (proj2 (proj2
            (same_nonce_twice "" controlPlane transport 1 ClusterType
               l subscribe subscribe l1 l2 _ _ _ _ _)))));
    vm_compute; reflexivity.
Defined.

(** Two identical requests in a row, nothing in the channel: two watches
    are created, not one. *)
Lemma same_nonce_twice_two_watches :
  let l := xds transport [] in
  let l1 := (arm transport l subscribe).1 in
  let l2 := (arm transport l1 subscribe).1 in
  deltaResponses (values l) = []
  ∧ (arm transport l subscribe).2 = Continue
  ∧ (arm transport l1 subscribe).2 = Continue
  ∧ ¬ (watchesCreated (emitted l l2) = 1%nat).
Proof.
  intros l l1 l2. split_and!; [vm_compute; reflexivity..|].
  intros Hone.
  assert (watchesCreated (emitted l l2) = 2%nat) as Htwo
    by (vm_compute; reflexivity).
  clearbody l2 l. rewrite Hone in Htwo. discriminate.
Qed.

(** A watch is live and the cache has queued a response: the
    acknowledgement cancels, sends the queued response under nonce 2 and
    then creates the new watch. *)
Lemma cancel_drain_then_watch_witness :
  let l := xds transport pending in
  let r := arm transport l (ack "1") in
  ∃ pre drained state,
    emitted l r.1
    = pre ++ CallCancel 7%positive :: drained
        ++ [CallCreateDeltaWatch (normalised "" ClusterType l (ack "1")) state]
    ∧ Forall isPreamble pre
    ∧ Forall isResponseEvent drained
    ∧ Forall2 processedAs (deltaResponses (values l)) (sent drained)
    ∧ deltaResponses (values r.1) = [].
Proof.
  intros l r.
  refine (cancel_drain_then_watch "" controlPlane transport 1 ClusterType
            l (ack "1") r.1 r.2 7%positive _ _ _).
  - vm_compute. reflexivity.
  - vm_compute. reflexivity.
  - vm_compute. discriminate.
Defined.

(** A sink that refuses the stream. *)
Lemma stream_closed_on_every_return_witness :
  let run := processDelta "" [ClusterType] closedDoor transport ClusterType
               [RecvRequest (Some subscribe)] in
  run.2 = Return (Some (errors_New "stream refused"))
  ∧ trace run.1 = [CallOnDeltaStreamOpen 1 ClusterType;
                   CallOnDeltaStreamClosed 1].
Proof.
  intros run.
  refine (proj1 (stream_closed_on_every_return "" [ClusterType] closedDoor
                   transport ClusterType [RecvRequest (Some subscribe)]
                   refusing _) (errors_New "stream refused") _);
    reflexivity.
Defined.

(** The stream-open callback fails and stream-closed is called all the
    same. *)
Lemma stream_closed_after_refused_open :
  let run := processDelta "" [ClusterType] closedDoor transport ClusterType
               [] in
  OnDeltaStreamOpen refusing [] 1 ClusterType
  = Some (errors_New "stream refused")
  ∧ ¬ (closedCount (trace run.1) = 0%nat).
Proof. intros run. split; [reflexivity|]. vm_compute. discriminate. Qed.

(** A rejection that carries a stale nonce. *)
Lemma nack_logged_then_handled_witness :
  let l := xds transport served in
  let r := arm transport l (nack "0") in
  ∃ evs, emitted l r.1
         = LogErrorf "received error from envoy: %s"
             {| rpc.Code := 13; rpc.Message := "bad" |} :: evs.
Proof.
  intros l r.
  refine (proj1 (nack_logged_then_handled "" controlPlane transport 1
                   ClusterType l (nack "0") _ r.1 r.2 _ _) _);
    vm_compute; reflexivity.
Defined.

(** A rejection of the response of nonce 1, carrying that nonce as the
    protocol has it: a watch is created. *)
Lemma nack_of_last_nonce_creates_watch :
  let l := xds transport served in
  let r := arm transport l (nack "1") in
  discovery.ErrorDetail (nack "1") ≠ None
  ∧ r.2 = Continue
  ∧ ¬ (watchesCreated (emitted l r.1) = 0%nat).
Proof.
  intros l r. split_and!; [done|vm_compute; reflexivity|].
  vm_compute. discriminate.
Qed.

(** Two responses on a stream. *)
Lemma nonces_count_from_one_witness :
  discovery.Nonce
    <$> sent (trace (xds transport (pending ++ [RecvResponse])))
  = ["1"; "2"].
Proof.
  pose proof (nonces_count_from_one "" [ClusterType] controlPlane transport
                ClusterType (pending ++ [RecvResponse])) as H.
  cbn zeta in H. destruct H as (Hnth & _).
  { vm_compute. reflexivity. }
  vm_compute. reflexivity.
Defined.

(** The first response of the scenarios. *)
Lemma process_success_records_nonce_witness :
  let l := xds transport [RecvRequest (Some subscribe)] in
  let l' := (process controlPlane transport 1 l (Some clusters)).1 in
  deltaNonces (values l') !! ClusterType = Some "1"
  ∧ deltaCancellations (values l') !! ClusterType = Some None
  ∧ noncesAgree (values l').
Proof.
  intros l l'.
  destruct (process_success_records_nonce controlPlane transport 1 l
              (Some clusters) l')
    as (r & out & Hr & _ & _ & Hn & Hc & _ & Hag).
  - apply (running_noncesAgree "" [ClusterType] controlPlane transport
             ClusterType [RecvRequest (Some subscribe)]).
    vm_compute. reflexivity.
  - vm_compute. reflexivity.
  - injection Hr as <-. split_and!; [exact Hn|exact Hc|exact Hag].
Defined.

(** The node of the subscription reaches the callback with the
    acknowledgement. *)
Lemma node_rehydration_witness :
  let l := xds transport [] in
  let l1 := (arm transport l subscribe).1 in
  let l2 := (loop "" controlPlane transport 1 ClusterType l1
               [Produce (Some clusters); RecvResponse]).1 in
  let r := arm transport l2 (ack "1") in
  node r.1 = envoy
  ∧ ∀ e, e ∈ emitted l2 r.1 →
         match e with
         | CallOnStreamDeltaRequest _ req | CallCreateDeltaWatch req _ =>
           discovery.Node req = Some envoy
         | _ => True
         end.
Proof.
  intros l l1 l2 r.
  refine (proj2 (proj2 (proj2 (proj2 (proj2 (proj2
            (node_rehydration "" controlPlane transport 1 ClusterType
               l subscribe [Produce (Some clusters); RecvResponse]
               (ack "1") l1 l2 r.1 r.2 _ _ _ _)))))) envoy _ _).
  - vm_compute. reflexivity.
  - repeat constructor.
  - vm_compute. reflexivity.
  - vm_compute. reflexivity.
  - reflexivity.
  - reflexivity.
Defined.

(** The subscription without type URL on an aggregated stream. *)
Lemma missing_type_url_witness :
  let l := (processDelta "" [ClusterType] controlPlane transport "" []).1 in
  let r := onRequest "" controlPlane transport 1 "" l (Some subscribe) in
  r.2 = Return (Some (status_Errorf InvalidArgument
                        "type URL is required for ADS"))
  ∧ emitted l r.1 = []
  ∧ watchesCreated (emitted l r.1) = 0%nat.
Proof.
  intros l r.
  destruct (proj1 (missing_type_url "" controlPlane transport 1 "" l
                     subscribe r.1 r.2 eq_refl eq_refl) eq_refl)
    as (Hout & Hem & _ & Hw & _).
  split_and!; [exact Hout|exact Hem|exact Hw].
Defined.

(** The cache queues a response without system version. *)
Lemma version_error_after_send_witness :
  let l := xds transport (served ++ [Produce (Some clustersUnversioned)]) in
  ∃ l',
    step "" controlPlane transport 1 ClusterType l RecvResponse
    = (l', Return (Some (errors_New "no system version")))
    ∧ deltaNonces (values l') !! ClusterType = Some "2"
    ∧ deltaStreamStates (values l') !! ClusterType = Some stream.zero.
Proof.
  intros l.
  destruct (version_error_after_send "" controlPlane transport 1 ClusterType
              l clustersUnversioned [] _ (errors_New "no system version")
              eq_refl eq_refl eq_refl (or_introl eq_refl))
    as (l' & Hstep & _ & _ & Hn & _ & Hs & _).
  exists l'. split_and!; [exact Hstep|exact Hn|exact Hs].
Defined.

(** The stream state of the type does not keep its value: it held nonce 1
    and the version map of the first response, and is now the zero
    state. *)
Lemma version_error_resets_stream_state :
  let l := xds transport (served ++ [Produce (Some clustersUnversioned)]) in
  let r := step "" controlPlane transport 1 ClusterType l RecvResponse in
  r.2 = Return (Some (errors_New "no system version"))
  ∧ ¬ (deltaStreamStates (values r.1) !! ClusterType
       = deltaStreamStates (values l) !! ClusterType).
Proof.
  intros l r. split; [vm_compute; reflexivity|].
  intros Hkept.
  assert (stream.Nonce <$> deltaStreamStates (values r.1) !! ClusterType
          = Some "") as Hnew by (vm_compute; reflexivity).
  assert (stream.Nonce <$> deltaStreamStates (values l) !! ClusterType
          = Some "1") as Hold by (vm_compute; reflexivity).
  clearbody r l. rewrite Hkept, Hold in Hnew. discriminate.
Qed.

(** * More of the processor *)

(** ** Runs in pieces *)

Lemma loop_app Any s str streamID d l xs ys :
  loop Any s str streamID d l (xs ++ ys)
  = match loop Any s str streamID d l xs with
    | (l', Continue) => loop Any s str streamID d l' ys
    | (l', Return err) => (l', Return err)
    end.
Proof.
  revert l. induction xs as [|i xs IH]; intros l; cbn [app loop]; [done|].
  destruct (step Any s str streamID d l i) as [l1 [|err]]; [apply IH|done].
Qed.

(** A processor that waits in its [select] has passed the stream-open
    callback and is where its loop is. *)
Lemma processDelta_running Any URLs s str d inputs l :
  processDelta Any URLs s str d inputs = (l, Continue) ↔
  requestVerdictOpen s d = None
  ∧ loop Any s str (wrap64 (streamCount s + 1)) d
      (entered Any URLs s d) inputs = (l, Continue).
Proof.
  rewrite processDelta_eq. cbn zeta. unfold requestVerdictOpen.
  destruct (callbacks s) as [cb|].
  - destruct (OnDeltaStreamOpen cb [] _ d) as [e|].
    + split; [done|]. by intros [[=] _].
    + destruct (loop _ _ _ _ _ _ inputs) as [l1 [|err]]; split.
      * by intros [= ->].
      * by intros [_ [= ->]].
      * done.
      * by intros [_ [=]].
  - destruct (loop _ _ _ _ _ _ inputs) as [l1 [|err]]; split.
    + by intros [= ->].
    + by intros [_ [= ->]].
    + done.
    + by intros [_ [=]].
Qed.

Lemma processDelta_app Any URLs s str d pre more l :
  processDelta Any URLs s str d pre = (l, Continue) →
  processDelta Any URLs s str d (pre ++ more)
  = match loop Any s str (wrap64 (streamCount s + 1)) d l more with
    | (l', Continue) => (l', Continue)
    | (l', Return err) =>
      (teardown s (wrap64 (streamCount s + 1)) l', Return err)
    end.
Proof.
  intros [Hopen Hpre]%processDelta_running.
  rewrite processDelta_eq. cbn zeta. rewrite loop_app, Hpre.
  unfold requestVerdictOpen in Hopen.
  destruct (callbacks s) as [cb|]; [|done]. by rewrite Hopen.
Qed.

Lemma Cancel_list (m : gmap string (option CancelFunc))
    (kcs : list (string * option CancelFunc)) l :
  (∀ k c, (k, c) ∈ kcs → m !! k = Some c) →
  NoDup kcs.*1 →
  ∃ ts cancels,
    NoDup ts
    ∧ (∀ t, t ∈ ts ↔ ∃ c, (t, Some c) ∈ kcs)
    ∧ Forall2 (λ t e, ∃ c, m !! t = Some (Some c) ∧ e = CallCancel c)
        ts cancels
    ∧ trace (foldl (λ l kc, match kc.2 with
                            | Some cancel => emit (CallCancel cancel) l
                            | None => l
                            end) l kcs) = trace l ++ cancels.
Proof.
  revert l. induction kcs as [|[k c] kcs IH]; intros l Hm Hnd; cbn.
  { exists [], []. rewrite app_nil_r. split_and!; [constructor| |constructor|done].
    intros t. split; [by intros ?%elem_of_nil|]. by intros [c ?%elem_of_nil]. }
  apply NoDup_cons in Hnd as [Hk Hnd].
  assert (∀ k' c', (k', c') ∈ kcs → m !! k' = Some c') as Hm'
    by (intros k' c' Hin; apply Hm; by right).
  destruct c as [c|].
  - destruct (IH (emit (CallCancel c) l) Hm' Hnd)
      as (ts & cancels & Hts & Hin & Hall & Ht).
    exists (k :: ts), (CallCancel c :: cancels). split_and!.
    + apply NoDup_cons. split; [|done]. intros [c' Hc']%Hin.
      apply Hk. apply list_elem_of_fmap. by exists (k, Some c').
    + intros t. rewrite elem_of_cons, Hin. split.
      * intros [->|[c' Hc']]; [exists c; by left|exists c'; by right].
      * intros [c' [[= -> ->]|Hc']%elem_of_cons]; [by left|right; by exists c'].
    + constructor; [|done]. exists c. split; [|done]. apply Hm. by left.
    + rewrite Ht. cbn. by rewrite <- app_assoc.
  - destruct (IH l Hm' Hnd) as (ts & cancels & Hts & Hin & Hall & Ht).
    exists ts, cancels. split_and!; [done| |done..].
    intros t. rewrite Hin. split.
    + intros [c' Hc']. exists c'. by right.
    + intros [c' [[=]|Hc']%elem_of_cons]. by exists c'.
Qed.


(** X1. The deferred teardown calls the cancel handle of every type that
    has a non-nil one, once per type, calls no other handle, then calls the
    stream-closed callback if there is a sink, and leaves the store as it
    is. *)
Theorem teardown_cancels_live_watches s streamID l :
  ∃ ts cancels,
    NoDup ts
    ∧ (∀ t, t ∈ ts
            ↔ ∃ c, deltaCancellations (values l) !! t = Some (Some c))
    ∧ Forall2 (λ t e, ∃ c, deltaCancellations (values l) !! t = Some (Some c)
                           ∧ e = CallCancel c) ts cancels
    ∧ trace (teardown s streamID l)
      = trace l ++ cancels ++ closedCalls s streamID
    ∧ values (teardown s streamID l) = values l.
Proof.
  destruct (Cancel_list (deltaCancellations (values l))
              (map_to_list (deltaCancellations (values l))) l)
    as (ts & cancels & Hts & Hin & Hall & Ht).
  { intros k c. apply elem_of_map_to_list. }
  { apply NoDup_fst_map_to_list. }
  exists ts, cancels. split_and!; [done| |done| |].
  - intros t. rewrite Hin. by setoid_rewrite elem_of_map_to_list.
  - unfold teardown, closedCalls. fold (Cancel (values l) l) in Ht.
    destruct (callbacks s); cbn; rewrite Ht;
      by rewrite <- ?app_assoc, ?app_nil_r.
  - by destruct (teardown_frame s streamID l) as (-> & _).
Qed.

(** X2. The three ways the loop ends by itself.  A closed request channel
    and a cancelled server context make [processDelta] return nil, the
    latter after a debug line when there is a logger; a nil request makes
    it return UNAVAILABLE "empty request".  In all three nothing else is
    called before the teardown, and later inputs do not matter. *)
Theorem loop_ends_on Any URLs s str d pre rest l :
  processDelta Any URLs s str d pre = (l, Continue) →
  let id := wrap64 (streamCount s + 1) in
  processDelta Any URLs s str d (pre ++ ReqChClosed :: rest)
  = (teardown s id l, Return None)
  ∧ processDelta Any URLs s str d (pre ++ CtxDone :: rest)
    = (teardown s id
         (if log s
          then emit (LogDebugf
                       "received signal to end! closing delta processor...") l
          else l), Return None)
  ∧ processDelta Any URLs s str d (pre ++ RecvRequest None :: rest)
    = (teardown s id l,
       Return (Some (status_Errorf Unavailable "empty request"))).
Proof.
  intros Hpre id.
  by rewrite !(processDelta_app _ _ _ _ _ _ _ _ Hpre).
Qed.

(** ** Responses *)

(** X3. A nil response, or one that cannot be serialised, taken from the
    channel ends the stream with "missing response", or with the error of
    the serialisation: no nonce is used up, nothing is sent, no callback is
    called and the store is not written. *)
Theorem refused_response_ends_stream Any s str streamID d l resp rest e :
  deltaResponses (values l) = resp :: rest →
  refusedWith resp e →
  step Any s str streamID d l RecvResponse
  = (receiving rest l, Return (Some e))
  ∧ ∀ l0, process s str streamID l0 resp = (l0, Some e).
Proof.
  intros Hq Hrefused.
  assert (∀ l0, process s str streamID l0 resp = (l0, Some e)) as Hp.
  { intros l0. unfold process, send. destruct resp as [r|]; cbn in Hrefused.
    - by rewrite Hrefused.
    - by subst e. }
  split; [|done]. cbn [step]. rewrite Hq. fold (receiving rest l).
  by rewrite Hp.
Qed.

(** X4. When [Send] fails the stream ends with its error.  The nonce has
    been used up and the stream-response callback has been told of the
    response, but nothing is recorded: the nonce on record, the cancel
    handle and the stream state of the type stay as they were. *)
Theorem failed_send_records_nothing s str streamID l r out e l' err :
  cache.GetDeltaDiscoveryResponse r = Ok out →
  Send str (trace l ++ responseCalls s streamID r (stamped l out))
    (stamped l out) = Some e →
  process s str streamID l (Some r) = (l', err) →
  err = Some e
  ∧ values l' = values l
  ∧ node l' = node l
  ∧ streamNonce l' = wrap64 (streamNonce l + 1)
  ∧ trace l' = trace l ++ responseCalls s streamID r (stamped l out)
                 ++ [CallSend (stamped l out)].
Proof.
  intros Hout Hsend Hp.
  destruct (process_sent _ _ _ _ _ _ _ _ Hout Hp)
    as (Hn & Hnode & Ht & _ & _ & Hrec).
  rewrite Hsend in Hrec. by destruct Hrec as [-> ->].
Qed.

(** X5. [process] writes the three entries of the type of the response
    and nothing else: the entries of every other type, the remembered
    node and the channel are left alone, whether it succeeds or fails.
    When it succeeds the stream state of the type is the nonce, system
    version and version map of this response, whatever it held before. *)
Theorem process_writes_one_type s str streamID l r l' err :
  process s str streamID l (Some r) = (l', err) →
  let t := discovery.TypeUrl (cache.GetDeltaRequest r) in
  (∀ t', t' ≠ t →
         deltaNonces (values l') !! t' = deltaNonces (values l) !! t'
         ∧ deltaCancellations (values l') !! t'
           = deltaCancellations (values l) !! t'
         ∧ deltaStreamStates (values l') !! t'
           = deltaStreamStates (values l) !! t')
  ∧ node l' = node l
  ∧ deltaResponses (values l') = deltaResponses (values l)
  ∧ (err = None →
     ∃ sv vm,
       cache.GetSystemVersion r = Ok sv ∧ cache.GetDeltaVersionMap r = Ok vm
       ∧ deltaStreamStates (values l') !! t
         = Some {| stream.Nonce := FormatInt (wrap64 (streamNonce l + 1));
                   stream.SystemVersion := sv;
                   stream.ResourceVersions := vm |}).
Proof.
  intros Hp t.
  destruct (process_frame _ _ _ _ _ _ _ Hp) as (Hnode & Hq & _).
  destruct (process_inv _ _ _ _ _ _ _ Hp) as [[-> Herr]|(r' & out & [= <-] & Hout)].
  { split_and!; [done..|]. intros ->. by destruct Herr. }
  destruct (process_sent _ _ _ _ _ _ _ _ Hout Hp) as (_ & _ & _ & _ & _ & Hrec).
  destruct (Send str _ _) as [e|].
  { destruct Hrec as [-> ->]. by split_and!. }
  destruct Hrec as (Hn & Hc & Hs & Herr). fold t in Hn, Hc, Hs.
  split_and!; [|done..|].
  - intros t' Hne. rewrite Hn, Hc, Hs. by rewrite !lookup_insert_ne.
  - intros ->. rewrite Hs, lookup_insert_eq.
    destruct (update_cases r (FormatInt (wrap64 (streamNonce l + 1))))
      as [(sv & vm & Hsv & Hvm & Hup)|(e & _ & Hup)];
      rewrite Hup in Herr; [|done].
    exists sv, vm. by rewrite Hup.
Qed.

(** ** Unsubscribing *)

Lemma lookup_foldl_delete (u : list string)
    (m : gmap string cache.DeltaVersionInfo) k :
  foldl (λ m resource, delete resource m) m u !! k
  = if decide (k ∈ u) then None else m !! k.
Proof.
  revert m. induction u as [|r u IH]; intros m; cbn.
  { by rewrite decide_False by apply not_elem_of_nil. }
  rewrite IH. destruct (decide (k ∈ u)) as [Hin|Hin].
  - by rewrite decide_True by by right.
  - destruct (decide (k = r)) as [->|Hne].
    + by rewrite decide_True, lookup_delete_eq by by left.
    + rewrite decide_False, lookup_delete_ne; [done..|].
      by intros [?|?]%elem_of_cons.
Qed.

Lemma unsubscribe_result s u sv l :
  ∃ l', unsubscribe s u sv l
        = ((λ m, foldl (λ m resource, delete resource m) m u) <$> sv, l')
        ∧ values l' = values l ∧ streamNonce l' = streamNonce l
        ∧ node l' = node l
        ∧ trace l' = trace l ++ unsubscribeLog s u.
Proof.
  unfold unsubscribe, unsubscribeLog. revert sv l.
  induction u as [|r u IH]; intros sv l; cbn.
  { exists l. split_and!; [by destruct sv|done..|].
    destruct (log s); by rewrite app_nil_r. }
  destruct (IH (delete r <$> sv)
              (if log s
               then emit (LogDebugf ("unsubscribing from resource: " +:+ r)) l
               else l)) as (l' & -> & Hv & Hn & Hnode & Ht).
  exists l'. split_and!.
  - by destruct sv.
  - rewrite Hv. by destruct (log s).
  - rewrite Hn. by destruct (log s).
  - rewrite Hnode. by destruct (log s).
  - rewrite Ht. destruct (log s); cbn; by rewrite <- ?app_assoc.
Qed.

(** X6. [unsubscribe] deletes the names it is given from the version map
    and keeps every other entry; a name that is not in the map, or given
    twice, is no error; a nil map stays nil.  It logs one debug line per
    name, in order, when there is a logger, and touches nothing else. *)
Theorem unsubscribe_deletes_names s u sv l sv' l' :
  unsubscribe s u sv l = (sv', l') →
  (sv = None → sv' = None)
  ∧ (∀ m, sv = Some m →
          ∃ m', sv' = Some m'
                ∧ (∀ name, name ∈ u → m' !! name = None)
                ∧ (∀ name, name ∉ u → m' !! name = m !! name))
  ∧ trace l' = trace l ++ unsubscribeLog s u
  ∧ values l' = values l ∧ node l' = node l
  ∧ streamNonce l' = streamNonce l.
Proof.
  intros Hu.
  destruct (unsubscribe_result s u sv l) as (l1 & Hu' & Hv & Hn & Hnode & Ht).
  rewrite Hu in Hu'. injection Hu' as -> ->.
  split_and!; [by intros ->| |done..].
  intros m ->. eexists. split; [done|]. split; intros name Hname.
  - by rewrite lookup_foldl_delete, decide_True.
  - by rewrite lookup_foldl_delete, decide_False.
Qed.

Lemma unsubscribedFrom_nil st : unsubscribedFrom [] st = st.
Proof. destruct st as [n sv [m|]]; done. Qed.

(** The request arm up to its watch decision, with the store it leaves. *)
Lemma onRequest_store Any s str streamID d l req l' out :
  onRequest Any s str streamID d l (Some req) = (l', out) →
  ¬ (d = Any ∧ discovery.TypeUrl req = "") →
  let t := resolvedTypeUrl Any d req in
  let u := discovery.ResourceNamesUnsubscribe req in
  let req1 := normalised Any d l req in
  let pre := nackLog s req ++ unsubscribeLog s u in
  ∃ lc,
    deltaNonces (values lc) = deltaNonces (values l)
    ∧ deltaCancellations (values lc) = deltaCancellations (values l)
    ∧ deltaResponses (values lc) = deltaResponses (values l)
    ∧ (∀ t', deltaStreamStates (values lc) !! t'
             = if decide (t' = t)
               then unsubscribedFrom u <$> deltaStreamStates (values l) !! t'
               else deltaStreamStates (values l) !! t')
    ∧ streamNonce lc = streamNonce l
    ∧ node lc = rehydrated l req
    ∧ trace lc = trace l ++ pre ++ requestCalls s streamID req1
    ∧ match requestVerdict s streamID (trace l ++ pre) req1 with
      | Some e => l' = lc ∧ out = Return (Some e)
      | None =>
        reconcile s str streamID lc req1 (discovery.ResponseNonce req)
        = (l', out)
      end.
Proof.
  intros Hrest Hads t u req1 pre. unfold onRequest in Hrest.
  set (l1 := match discovery.ErrorDetail req with
             | Some detail => if log s then emit _ l else l
             | None => l
             end) in Hrest.
  assert (values l1 = values l ∧ streamNonce l1 = streamNonce l
          ∧ node l1 = node l ∧ trace l1 = trace l ++ nackLog s req)
    as (Hv1 & Hsn1 & Hn1 & Ht1).
  { unfold l1, nackLog. destruct (discovery.ErrorDetail req), (log s); cbn;
      by rewrite ?app_nil_r. }
  clearbody l1.
  set (pr := match discovery.Node req with
             | Some n => (set_node n l1, req)
             | None => (l1, discovery.set_Node (Some (node l1)) req)
             end) in Hrest.
  assert (pr = (set_node (rehydrated l req) l1,
                discovery.set_Node (Some (rehydrated l req)) req)) as Hpr.
  { unfold pr, rehydrated. destruct req as [[n|] ? ? ? ? ? ?]; cbn; [done|].
    rewrite <- Hn1. by destruct l1. }
  rewrite Hpr in Hrest. clear pr Hpr.
  cbn [discovery.set_Node discovery.TypeUrl discovery.ResponseNonce]
    in Hrest.
  set (lN := set_node (rehydrated l req) l1) in Hrest.
  rewrite decide_False in Hrest by done.
  set (reqN := if decide (d ≠ Any ∧ discovery.TypeUrl req = "")
               then _ else _) in Hrest.
  assert (reqN = req1) as HreqN.
  { unfold reqN, req1, normalised, resolvedTypeUrl. by case_decide. }
  rewrite HreqN in Hrest. clear reqN HreqN.
  set (l2 := match discovery.ResourceNamesUnsubscribe req1 with
             | [] => lN
             | _ => _
             end) in Hrest.
  assert (deltaNonces (values l2) = deltaNonces (values l)
          ∧ deltaCancellations (values l2) = deltaCancellations (values l)
          ∧ deltaResponses (values l2) = deltaResponses (values l)
          ∧ (∀ t', deltaStreamStates (values l2) !! t'
                   = if decide (t' = t)
                     then unsubscribedFrom u
                            <$> deltaStreamStates (values l) !! t'
                     else deltaStreamStates (values l) !! t')
          ∧ streamNonce l2 = streamNonce l
          ∧ node l2 = rehydrated l req
          ∧ trace l2 = trace l ++ pre)
    as (Hno & Hca & Hre & Hst & Hsn & Hnode & Ht2).
  { unfold l2, pre.
    change (discovery.ResourceNamesUnsubscribe req1) with u.
    change (discovery.TypeUrl req1) with t.
    destruct u as [|r0 u'] eqn:Hu.
    - cbn. rewrite Hv1. split_and!; [done..| |done|done|].
      + intros t'. case_decide; [|done].
        by destruct (deltaStreamStates (values l) !! t') as [[? ? [?|]]|].
      + unfold unsubscribeLog. rewrite Ht1.
        destruct (log s); by rewrite app_nil_r.
    - destruct (unsubscribe_result s (r0 :: u')
                  (stream.GetVersionMap
                     (default stream.zero
                        (deltaStreamStates (values lN) !! t))) lN)
        as (lu & Hures & Hvu & Hsnu & Hnu & Htu).
      rewrite Hures. cbn [values set_values set_deltaStreamStates
                          deltaNonces deltaCancellations deltaResponses
                          deltaStreamStates streamNonce node trace].
      rewrite Hvu, Hsnu, Hnu, Htu. cbn [lN values set_node streamNonce node trace].
      rewrite Hv1, Hsn1, Ht1. split_and!; [done..| |done|done|by rewrite <- app_assoc].
      intros t'. rewrite lookup_alter. case_decide as Ht'.
      + subst t'. rewrite decide_True by done.
        by destruct (deltaStreamStates (values l) !! t).
      + by rewrite decide_False by done. }
  clearbody l2. unfold requestCalls, requestVerdict.
  destruct (callbacks s) as [cb|].
  - exists (emit (CallOnStreamDeltaRequest streamID req1) l2).
    cbn. rewrite Ht2, <- !app_assoc. split_and!; [done..|].
    rewrite Ht2 in Hrest.
    destruct (OnStreamDeltaRequest cb _ streamID req1) as [e|].
    + by injection Hrest as <- <-.
    + done.
  - exists l2. rewrite Ht2, !app_nil_r. by split_and!.
Qed.

(** A request handled to the end with nothing to drain: the store it
    leaves and the calls it makes. *)
Lemma onRequest_direct Any s str streamID d l req l' :
  onRequest Any s str streamID d l (Some req) = (l', Continue) →
  let t := resolvedTypeUrl Any d req in
  let u := discovery.ResourceNamesUnsubscribe req in
  let req1 := normalised Any d l req in
  let pre := nackLog s req ++ unsubscribeLog s u
               ++ requestCalls s streamID req1 in
  let state := default stream.zero
                 (unsubscribedFrom u <$> deltaStreamStates (values l) !! t) in
  cancelCalls (values l) t = [] ∨ deltaResponses (values l) = [] →
  (∀ t', deltaStreamStates (values l') !! t'
         = if decide (t' = t)
           then unsubscribedFrom u <$> deltaStreamStates (values l) !! t'
           else deltaStreamStates (values l) !! t')
  ∧ (¬ newOrAck (values l) t (discovery.ResponseNonce req) →
     emitted l l' = pre)
  ∧ (newOrAck (values l) t (discovery.ResponseNonce req) →
     emitted l l' = pre ++ cancelCalls (values l) t
                      ++ [CallCreateDeltaWatch req1 state]
     ∧ deltaCancellations (values l') !! t
       = Some (CreateDeltaWatch s
                 (trace l ++ pre ++ cancelCalls (values l) t) req1 state)).
Proof.
  intros Hr t u req1 pre state Hquiet.
  assert (¬ (d = Any ∧ discovery.TypeUrl req = "")) as Hads.
  { intros Hads. apply onRequest_inv in Hr.
    by destruct Hr as [(_ & _ & [=] & _)|[? _]]. }
  destruct (onRequest_store _ _ _ _ _ _ _ _ _ Hr Hads)
    as (lc & Hno & Hca & Hre & Hst & _ & _ & Ht & Hrest).
  fold t u req1 in Hst, Ht, Hrest.
  destruct (requestVerdict s streamID _ _); [by destruct Hrest|].
  apply reconcile_inv in Hrest.
  change (discovery.TypeUrl req1) with t in Hrest.
  rewrite Hno, Hca in Hrest. rewrite <- app_assoc in Ht. fold pre in Ht.
  destruct Hrest as [(n & Hn & Hne & -> & _)|(Hgo & ld & err & Hd & Hl')].
  { split_and!; [done|by rewrite (emitted_app _ _ _ Ht)|].
    unfold newOrAck. intros [|]; congruence. }
  assert (err = None ∧ values ld = values lc
          ∧ trace ld = trace lc ++ cancelCalls (values l) t)
    as (-> & Hv & Ht').
  { unfold cancelCalls in *.
    destruct (deltaCancellations (values l) !! t) as [[c|]|];
      [|injection Hd as <- <-; by rewrite app_nil_r..].
    destruct Hquiet as [|Hq]; [done|].
    unfold processAll in Hd. cbn in Hd. rewrite Hre, Hq in Hd.
    by injection Hd as <- <-. }
  destruct Hl' as [-> _]. cbn [watching values set_deltaCancellations
    deltaStreamStates deltaCancellations trace].
  rewrite Hv. split_and!; [done|by intros []|]. intros _.
  assert (default stream.zero (deltaStreamStates (values lc) !! t) = state)
    as Hstate by (unfold state; by rewrite Hst, decide_True).
  assert (trace ld = trace l ++ pre ++ cancelCalls (values l) t) as Hld
    by (by rewrite Ht', Ht, <- app_assoc).
  change (discovery.TypeUrl req1) with t.
  rewrite lookup_insert_eq, Hstate, Hld. split; [|done].
  apply emitted_app. unfold watching, emit. cbn [trace set_values].
  change (discovery.TypeUrl req1) with t.
  by rewrite Hv, Hstate, Hld, <- !app_assoc.
Qed.

(** X7. Unsubscribing comes before watching.  A request handled to the
    end, with no response to drain, leaves the stream state of its type
    with the unsubscribed names deleted from the version map, and the
    other types as they were, whether or not its nonce allows a new watch;
    when it does, the state handed to [CreateDeltaWatch] is that entry, or
    the zero state if the type has none. *)
Theorem unsubscribe_then_watch Any s str streamID d l req l' :
  onRequest Any s str streamID d l (Some req) = (l', Continue) →
  let t := resolvedTypeUrl Any d req in
  let u := discovery.ResourceNamesUnsubscribe req in
  cancelCalls (values l) t = [] ∨ deltaResponses (values l) = [] →
  (∀ t', deltaStreamStates (values l') !! t'
         = if decide (t' = t)
           then unsubscribedFrom u <$> deltaStreamStates (values l) !! t'
           else deltaStreamStates (values l) !! t')
  ∧ (deltaNonces (values l) !! t = None
     ∨ deltaNonces (values l) !! t = Some (discovery.ResponseNonce req) →
     last (emitted l l')
     = Some (CallCreateDeltaWatch (normalised Any d l req)
               (default stream.zero
                  (unsubscribedFrom u
                     <$> deltaStreamStates (values l) !! t)))).
Proof.
  intros Hr t u Hquiet.
  destruct (onRequest_direct _ _ _ _ _ _ _ _ Hr Hquiet) as (Hst & _ & Hgo).
  split; [done|]. intros Hnew. destruct (Hgo Hnew) as [-> _].
  by rewrite !app_assoc, last_snoc.
Qed.

Lemma initStreamState_lookup URLs t :
  initStreamState URLs !! t
  = if decide (t ∈ URLs) then Some emptyStreamState else None.
Proof.
  unfold initStreamState. fold emptyStreamState.
  assert (∀ m : gmap string stream.StreamState,
            foldl (λ m t, <[t := emptyStreamState]> m) m URLs !! t
            = if decide (t ∈ URLs) then Some emptyStreamState else m !! t)
    as Hfold.
  { induction URLs as [|u URLs IH]; intros m; cbn.
    { by rewrite decide_False by apply not_elem_of_nil. }
    rewrite IH. destruct (decide (t ∈ URLs)) as [Hin|Hin].
    - by rewrite decide_True by by right.
    - destruct (decide (t = u)) as [->|Hne].
      + by rewrite decide_True, lookup_insert_eq by by left.
      + rewrite decide_False, lookup_insert_ne; [done..|].
        by intros [?|?]%elem_of_cons. }
  by rewrite Hfold, lookup_empty.
Qed.

Lemma unsubscribedFrom_empty u :
  unsubscribedFrom u emptyStreamState = emptyStreamState.
Proof.
  unfold unsubscribedFrom, emptyStreamState, stream.set_ResourceVersions.
  cbn. do 2 f_equal. apply map_eq. intros k.
  rewrite lookup_foldl_delete, lookup_empty. by case_decide.
Qed.

(** X8. The store of a new stream has an empty stream state, with an
    empty version map that is not nil, for each known type and for no
    other.  So the first request on a stream, handled to the end, creates
    a watch that is handed the empty state if its type is a known one, and
    the zero state, whose version map is nil, if it is not. *)
Theorem first_watch_state Any URLs s str d req l' :
  let l := entered Any URLs s d in
  let t := resolvedTypeUrl Any d req in
  onRequest Any s str (wrap64 (streamCount s + 1)) d l (Some req)
  = (l', Continue) →
  (∀ t', deltaStreamStates (values l) !! t'
         = if decide (t' ∈ URLs) then Some emptyStreamState else None)
  ∧ last (emitted l l')
    = Some (CallCreateDeltaWatch (normalised Any d l req)
              (if decide (t ∈ URLs) then emptyStreamState else stream.zero)).
Proof.
  intros l t Hr. split; [intros t'; apply initStreamState_lookup|].
  destruct (onRequest_direct _ _ _ _ _ _ _ _ Hr) as (_ & _ & Hgo);
    [by left|].
  destruct Hgo as [-> _]; [by left|].
  rewrite !app_assoc, last_snoc. do 2 f_equal. fold t.
  change (deltaStreamStates (values l)) with (initStreamState URLs).
  rewrite initStreamState_lookup. case_decide; [|done]. cbn.
  apply unsubscribedFrom_empty.
Qed.

(** ** A rule for invariants of the loop

    A property of the nonces on record and of the trace holds throughout
    the loop if the calls of the request arm, each under its guard, and
    [process] keep it. *)

Section Preservation.
Variable Any : string.
Variable s : server.
Variable str : DeltaStream.
Variable streamID : Z.
Variable d : string.
Variable P : locals → Prop.

Hypothesis P_ext : ∀ l l',
  deltaNonces (values l') = deltaNonces (values l) →
  trace l' = trace l → P l → P l'.
Hypothesis P_log : ∀ l e, log s = true → isLog e → P l → P (emit e l).
Hypothesis P_request : ∀ l req,
  callbacks s ≠ None → P l → P (emit (CallOnStreamDeltaRequest streamID req) l).
Hypothesis P_cancel : ∀ l c, P l → P (emit (CallCancel c) l).
Hypothesis P_watch : ∀ l req state,
  P l → P (emit (CallCreateDeltaWatch req state) l).
Hypothesis P_process : ∀ l resp l' err,
  P l → process s str streamID l resp = (l', err) → P l'.

Lemma logs_preserve evs l :
  (evs ≠ [] → log s = true) → Forall isLog evs → P l →
  ∃ l', P l' ∧ values l' = values l ∧ trace l' = trace l ++ evs.
Proof.
  intros Hlog Hevs. revert l. induction Hevs as [|e evs He _ IH]; intros l Hl.
  { exists l. by rewrite app_nil_r. }
  destruct (IH (λ _, Hlog ltac:(done)) (emit e l)) as (l' & Hl' & Hv & Ht).
  { apply P_log; [by apply Hlog|done..]. }
  exists l'. split_and!; [done..|]. rewrite Ht. cbn. by rewrite <- app_assoc.
Qed.

Lemma nackLog_guard req : nackLog s req ≠ [] → log s = true.
Proof. unfold nackLog. by destruct (discovery.ErrorDetail req), (log s). Qed.

Lemma unsubscribeLog_guard u : unsubscribeLog s u ≠ [] → log s = true.
Proof. unfold unsubscribeLog. by destruct (log s). Qed.

Lemma unsubscribeLog_logs u : Forall isLog (unsubscribeLog s u).
Proof.
  unfold unsubscribeLog. destruct (log s); [|done].
  induction u; by constructor.
Qed.

Lemma drain_preserves pending l l' err :
  P l → drain s str streamID pending l = (l', err) → P l'.
Proof.
  revert l. induction pending as [|resp rest IH]; intros l Hl; cbn.
  { by intros [= <- <-]. }
  destruct (process _ _ _ _ resp) as [l1 [e|]] eqn:Hp.
  - intros [= <- <-]. eapply P_process, Hp. by eapply P_ext, Hl.
  - apply IH. eapply P_process, Hp. by eapply P_ext, Hl.
Qed.

Lemma reconcile_preserves l req nonce l' out :
  P l → reconcile s str streamID l req nonce = (l', out) → P l'.
Proof.
  intros Hl Hr. apply reconcile_inv in Hr.
  destruct Hr as [(_ & _ & _ & -> & _)|(_ & ld & err & Hd & Hl')]; [done|].
  assert (P ld) as Hld.
  { destruct (deltaCancellations (values l) !! _) as [[c|]|];
      [|by injection Hd as <- <-..].
    eapply drain_preserves, Hd. by apply P_cancel. }
  destruct err as [e|]; destruct Hl' as [-> _]; [done|].
  eapply P_ext; [| |by apply (P_watch ld req)]; done.
Qed.

Lemma onRequest_preserves l req l' out :
  P l → onRequest Any s str streamID d l req = (l', out) → P l'.
Proof.
  intros Hl Hr. destruct req as [req|]; [|by injection Hr as <- <-].
  destruct (decide (d = Any ∧ discovery.TypeUrl req = "")) as [Hads|Hads].
  { apply onRequest_inv in Hr.
    destruct Hr as [(_ & _ & _ & Hv & _ & _ & Ht)|[? _]]; [|done].
    destruct (logs_preserve (nackLog s req) l)
      as (l1 & Hl1 & Hv1 & Ht1);
      [apply nackLog_guard|apply nackLog_logs|done|].
    eapply P_ext, Hl1; congruence. }
  destruct (onRequest_store _ _ _ _ _ _ _ _ _ Hr Hads)
    as (lc & Hno & _ & _ & _ & _ & _ & Ht & Hrest).
  assert (P lc) as Hlc.
  { destruct (logs_preserve
                (nackLog s req
                   ++ unsubscribeLog s (discovery.ResourceNamesUnsubscribe req))
                l) as (l1 & Hl1 & Hv1 & Ht1); [| |done|].
    { intros Hne. destruct (nackLog s req) eqn:Hn.
      - by apply unsubscribeLog_guard in Hne.
      - apply (nackLog_guard req). by rewrite Hn. }
    { apply Forall_app. split; [apply nackLog_logs|apply unsubscribeLog_logs]. }
    unfold requestCalls in Ht. destruct (callbacks s) as [cb|] eqn:Hcb.
    - eapply P_ext; [| |apply (P_request l1 (normalised Any d l req));
                         [try rewrite Hcb; done|done]].
      + cbn. congruence.
      + cbn. by rewrite Ht, Ht1, <- !app_assoc.
    - eapply P_ext, Hl1; [congruence|]. by rewrite Ht, Ht1, app_nil_r. }
  destruct (requestVerdict s streamID _ _); [by destruct Hrest as [-> _]|].
  by eapply reconcile_preserves, Hrest.
Qed.

Lemma step_preserves l i l' out :
  P l → step Any s str streamID d l i = (l', out) → P l'.
Proof.
  intros Hl. destruct i as [| |req| |resp]; cbn [step].
  - intros [= <- <-]. destruct (log s) eqn:Hlog; [|done]. by apply P_log.
  - destruct (deltaResponses (values l)) as [|resp rest];
      [by intros [= <- <-]|].
    destruct (process _ _ _ _ resp) as [l1 [e|]] eqn:Hp; intros [= <- <-];
      (eapply P_process, Hp; by eapply P_ext, Hl).
  - by apply onRequest_preserves.
  - by intros [= <- <-].
  - intros [= <- <-]. by eapply P_ext, Hl.
Qed.

Lemma loop_preserves inputs l l' out :
  P l → loop Any s str streamID d l inputs = (l', out) → P l'.
Proof.
  revert l. induction inputs as [|i inputs IH]; intros l Hl; cbn [loop].
  { by intros [= <- <-]. }
  destruct (step _ _ _ _ _ l i) as [l1 [|err]] eqn:Hs.
  - apply IH. by eapply step_preserves, Hs.
  - intros [= <- <-]. by eapply step_preserves, Hs.
Qed.

End Preservation.

Lemma processDelta_cases Any URLs s str d inputs :
  let id := wrap64 (streamCount s + 1) in
  let l0 := entered Any URLs s d in
  (∃ e, requestVerdictOpen s d = Some e
        ∧ processDelta Any URLs s str d inputs
          = (teardown s id l0, Return (Some e)))
  ∨ (requestVerdictOpen s d = None
     ∧ ∃ l out,
         loop Any s str id d l0 inputs = (l, out)
         ∧ processDelta Any URLs s str d inputs
           = (match out with
              | Continue => l
              | Return _ => teardown s id l
              end, out)).
Proof.
  intros id l0. rewrite processDelta_eq. cbn zeta. fold id l0.
  unfold requestVerdictOpen. fold id.
  assert (∃ l out,
            loop Any s str id d l0 inputs = (l, out)
            ∧ match out with
              | Continue => (l, Continue)
              | Return err => (teardown s id l, Return err)
              end
              = (match out with
                 | Continue => l
                 | Return _ => teardown s id l
                 end, out)) as Hloop.
  { destruct (loop Any s str id d l0 inputs) as [l out].
    exists l, out. by destruct out. }
  destruct (callbacks s) as [cb|].
  - destruct (OnDeltaStreamOpen cb [] id d) as [e|].
    + left. by exists e.
    + right. split; [done|]. destruct Hloop as (l & out & Hl & Heq).
      exists l, out. by rewrite Hl.
  - right. split; [done|]. destruct Hloop as (l & out & Hl & Heq).
    exists l, out. by rewrite Hl.
Qed.

(** ** Nonces on record *)

Lemma noncesWereSent_grows l l' evs :
  deltaNonces (values l') = deltaNonces (values l) →
  trace l' = trace l ++ evs →
  noncesWereSent l → noncesWereSent l'.
Proof.
  intros Hn Ht Hl t n. rewrite Hn, Ht, sent_app, fmap_app, elem_of_app.
  intros Hin. left. by eapply Hl.
Qed.

Lemma noncesWereSent_process s str streamID l resp l' err :
  noncesWereSent l → process s str streamID l resp = (l', err) →
  noncesWereSent l'.
Proof.
  intros Hl Hp.
  destruct (process_inv _ _ _ _ _ _ _ Hp)
    as [[-> _]|(r & out & -> & Hout)]; [done|].
  destruct (process_sent _ _ _ _ _ _ _ _ Hout Hp)
    as (_ & _ & Ht & _ & _ & Hrec).
  destruct (Send str _ _) as [e|].
  { destruct Hrec as [_ Hv]. eapply noncesWereSent_grows; [|done..].
    by rewrite Hv. }
  destruct Hrec as (Hn & _). intros t n. rewrite Hn, Ht.
  rewrite !sent_app, sent_responseCalls, !fmap_app, !elem_of_app.
  destruct (decide (discovery.TypeUrl (cache.GetDeltaRequest r) = t))
    as [<-|Hne].
  - rewrite lookup_insert_eq. intros [= <-]. do 2 right. cbn.
    apply list_elem_of_singleton. done.
  - rewrite lookup_insert_ne by done. intros Hin. left. by eapply Hl.
Qed.

Lemma running_noncesWereSent Any URLs s str d inputs l :
  processDelta Any URLs s str d inputs = (l, Continue) → noncesWereSent l.
Proof.
  intros [_ Hloop]%processDelta_running.
  eapply (loop_preserves Any s str _ d noncesWereSent), Hloop.
  - intros l1 l2 Hn Ht. eapply noncesWereSent_grows; [done|].
    by rewrite Ht, app_nil_r.
  - intros l1 e _ _. by eapply noncesWereSent_grows.
  - intros l1 req _. by eapply noncesWereSent_grows.
  - intros l1 c. by eapply noncesWereSent_grows.
  - intros l1 req state. by eapply noncesWereSent_grows.
  - intros l1 resp l2 err. apply noncesWereSent_process.
  - intros t n. cbn. by rewrite lookup_empty.
Qed.

(** X9. Every nonce on record for a type is the nonce of a response that
    was handed to [Send] on this stream.  So once a type has been served,
    a request for it whose nonce was never sent on the stream, be it
    empty, made up or from another stream, creates no watch, has no
    handle cancelled and leaves the cancel handles as they are. *)
Theorem unsent_nonce_creates_no_watch Any URLs s str d pre l req l' out :
  processDelta Any URLs s str d pre = (l, Continue) →
  onRequest Any s str (wrap64 (streamCount s + 1)) d l (Some req)
  = (l', out) →
  let t := resolvedTypeUrl Any d req in
  is_Some (deltaNonces (values l) !! t) →
  discovery.ResponseNonce req ∉ discovery.Nonce <$> sent (trace l) →
  noncesWereSent l
  ∧ watchesCreated (emitted l l') = 0%nat
  ∧ List.filter isCancel (emitted l l') = []
  ∧ deltaCancellations (values l') = deltaCancellations (values l).
Proof.
  intros Hpre Hr t [n Hn] Hunsent.
  pose proof (running_noncesWereSent _ _ _ _ _ _ _ Hpre) as Hsent.
  split; [done|].
  assert (n ≠ discovery.ResponseNonce req) as Hne.
  { intros ->. apply Hunsent. by eapply Hsent. }
  by destruct (onRequest_stale _ _ _ _ _ _ _ _ _ _ Hr Hn Hne)
    as (Hw & Hc & Hca & _).
Qed.

(** ** Guards of the callbacks and of the logger *)

Lemma permitted_process s str streamID d l resp l' err :
  Forall (permitted s streamID d) (trace l) →
  process s str streamID l resp = (l', err) →
  Forall (permitted s streamID d) (trace l').
Proof.
  intros Hl Hp.
  destruct (process_inv _ _ _ _ _ _ _ Hp)
    as [[-> _]|(r & out & -> & Hout)]; [done|].
  destruct (process_sent _ _ _ _ _ _ _ _ Hout Hp) as (_ & _ & -> & _).
  rewrite !Forall_app. split_and!; [done| |by repeat constructor].
  unfold responseCalls. destruct (callbacks s) as [cb|] eqn:Hcb;
    [|by constructor].
  constructor; [|by constructor]. cbn. split; [by rewrite ?Hcb|done].
Qed.

(** X10. Every callback is guarded by the sink and every log line by the
    logger: a server without callback sink calls no callback, a server
    without logger logs nothing, and the callbacks that are called are
    called with the ID of this stream, the count of streams plus one, and
    stream-open with the default type URL. *)
Theorem calls_are_guarded Any URLs s str d inputs :
  Forall (permitted s (wrap64 (streamCount s + 1)) d)
    (trace (processDelta Any URLs s str d inputs).1).
Proof.
  set (id := wrap64 (streamCount s + 1)).
  assert (Forall (permitted s id d) (trace (entered Any URLs s d))) as H0.
  { unfold entered. cbn. destruct (callbacks s) as [cb|] eqn:Hcb;
      [|by constructor].
    constructor; [|by constructor]. cbn.
    split_and!; [by rewrite ?Hcb|done..]. }
  assert (∀ l, Forall (permitted s id d) (trace l) →
               Forall (permitted s id d) (trace (teardown s id l))) as Htd.
  { intros l Hl.
    destruct (teardown_frame s id l) as (_ & _ & cancels & Hc & ->).
    rewrite !Forall_app. split_and!; [done| |].
    - eapply Forall_impl; [done|]. by intros [].
    - destruct (callbacks s) as [cb|] eqn:Hcb; [|by constructor].
      constructor; [|by constructor]. cbn. split; [by rewrite ?Hcb|done]. }
  destruct (processDelta_cases Any URLs s str d inputs)
    as [(e & _ & ->)|(_ & l & out & Hloop & ->)]; cbn [fst].
  { by apply Htd. }
  assert (Forall (permitted s id d) (trace l)) as Hl.
  { eapply (loop_preserves Any s str id d
              (λ l, Forall (permitted s id d) (trace l))), Hloop; [..|done].
    - intros l1 l2 _ ->. done.
    - intros l1 e Hlog He Hl1. cbn. apply Forall_app. split; [done|].
      constructor; [|done]. by destruct e.
    - intros l1 req Hcb Hl1. cbn. apply Forall_app. split; [done|].
      by repeat constructor.
    - intros l1 c Hl1. cbn. apply Forall_app. split; [done|].
      by repeat constructor.
    - intros l1 req state Hl1. cbn. apply Forall_app. split; [done|].
      by repeat constructor.
    - intros l1 resp l2 err. apply permitted_process. }
  destruct out; [done|by apply Htd].
Qed.

(** ** Draining the muxed channel *)

Lemma wrap64_add a b : wrap64 (wrap64 a + b) = wrap64 (a + b).
Proof.
  unfold wrap64.
  replace ((a + 2 ^ 63) mod 2 ^ 64 - 2 ^ 63 + b + 2 ^ 63)
    with ((a + 2 ^ 63) mod 2 ^ 64 + b) by lia.
  replace (a + b + 2 ^ 63) with ((a + 2 ^ 63) + b) by lia.
  by rewrite Zplus_mod_idemp_l.
Qed.

Lemma drain_all_sent s str streamID pending l :
  Forall wellFormed pending →
  (∀ history out, Send str history out = None) →
  ∃ l' evs,
    drain s str streamID pending l = (l', None)
    ∧ trace l' = trace l ++ evs
    ∧ discovery.Nonce <$> sent evs
      = (λ k, FormatInt (wrap64 (streamNonce l + Z.of_nat k)))
          <$> seq 1 (length pending).
Proof.
  intros Hall Hsend. revert l.
  induction Hall as [|resp rest (r & out & sv & vm & -> & Hout & Hsv & Hvm) _ IH];
    intros l; cbn [drain].
  { exists l, []. by rewrite app_nil_r. }
  destruct (process s str streamID (receiving rest l) (Some r))
    as [l1 err] eqn:Hp. unfold receiving in Hp. rewrite Hp.
  destruct (process_sent _ _ _ _ _ _ _ _ Hout Hp)
    as (Hn & _ & Ht & _ & _ & Hrec).
  rewrite Hsend in Hrec. destruct Hrec as (_ & _ & _ & ->).
  unfold update. rewrite Hsv, Hvm. cbn.
  destruct (IH l1) as (l' & evs & Hd & Ht' & Hnonces).
  exists l', (responseCalls s streamID r (stamped l out)
                ++ [CallSend (stamped l out)] ++ evs).
  split_and!; [done|by rewrite Ht', Ht, <- !app_assoc|].
  rewrite !sent_app, sent_responseCalls. cbn [app sent omap fmap list_fmap].
  cbn. f_equal.
  rewrite Hnonces, <- (fmap_S_seq 1), <- list_fmap_compose.
  apply list_fmap_ext. intros _ k _. cbn [compose]. rewrite Hn.
  cbn [streamNonce set_values]. rewrite wrap64_add. do 2 f_equal. lia.
Qed.

(** X11. Responses queued by several watches are sent in the order of
    their arrival under consecutive nonces.  If every response in the
    channel can be serialised and has a system version and a version map,
    and the transport accepts what it is given, [processAll] returns nil
    having sent them all, each stamped with the next value of the counter,
    and leaves the channel empty. *)
Theorem processAll_sends_in_order s str streamID l :
  Forall wellFormed (deltaResponses (values l)) →
  (∀ history out, Send str history out = None) →
  ∃ l',
    processAll s str streamID l = (l', None)
    ∧ deltaResponses (values l') = []
    ∧ Forall2 processedAs (deltaResponses (values l)) (sent (emitted l l'))
    ∧ discovery.Nonce <$> sent (emitted l l')
      = (λ k, FormatInt (wrap64 (streamNonce l + Z.of_nat k)))
          <$> seq 1 (length (deltaResponses (values l))).
Proof.
  intros Hall Hsend.
  destruct (drain_all_sent s str streamID _ l Hall Hsend)
    as (l' & evs & Hd & Ht & Hnonces).
  exists l'. unfold processAll. rewrite (emitted_app _ _ _ Ht).
  split_and!; [done|by eapply drain_done, Hd| |done].
  destruct (drain_sent _ _ _ _ _ _ Hd) as (evs' & Ht' & Hsent).
  rewrite Ht in Ht'. by apply app_inv_head in Ht' as <-.
Qed.

(** ** What a request leaves alone *)

(** X12. A request that has nothing to drain, because its type has no
    live cancel handle or because the channel is empty, sends no response
    and uses up no nonce; it leaves the nonces on record and the channel
    as they are, and of the cancel handles it can only replace the one of
    its own type, whatever the way its arm ends. *)
Theorem request_without_drain Any s str streamID d l req l' out :
  onRequest Any s str streamID d l (Some req) = (l', out) →
  let t := resolvedTypeUrl Any d req in
  cancelCalls (values l) t = [] ∨ deltaResponses (values l) = [] →
  sent (emitted l l') = []
  ∧ streamNonce l' = streamNonce l
  ∧ deltaNonces (values l') = deltaNonces (values l)
  ∧ deltaResponses (values l') = deltaResponses (values l)
  ∧ (∀ t', t' ≠ t → deltaCancellations (values l') !! t'
                    = deltaCancellations (values l) !! t').
Proof.
  intros Hr t Hquiet. apply onRequest_inv in Hr.
  pose proof (nackLog_logs s req) as Hnack.
  destruct Hr as [(_ & _ & _ & Hv & Hsn & _ & Ht)
                 |(_ & lc & logs & Hno & Hca & Hre & _ & Hsn & _
                   & Hlogs & Ht & Hrest)].
  { rewrite (emitted_app _ _ _ Ht), Hv. split_and!; [|done..].
    by apply sent_logs. }
  set (req1 := normalised Any d l req) in *.
  assert (sent (nackLog s req ++ logs ++ requestCalls s streamID req1) = [])
    as Hpre.
  { rewrite !sent_app, !sent_logs by done.
    unfold requestCalls. by destruct (callbacks s). }
  destruct (requestVerdict s streamID _ req1) as [e|].
  { destruct Hrest as [-> _]. rewrite (emitted_app _ _ _ Ht), Hca.
    by split_and!. }
  apply reconcile_inv in Hrest.
  change (discovery.TypeUrl req1) with t in Hrest. rewrite Hca in Hrest.
  destruct Hrest as [(_ & _ & _ & -> & _)|(_ & ld & err & Hd & Hl')].
  { rewrite (emitted_app _ _ _ Ht), Hca. by split_and!. }
  assert (err = None
          ∧ values ld = values lc ∧ streamNonce ld = streamNonce lc
          ∧ ∃ cancels, trace ld = trace lc ++ cancels ∧ sent cancels = [])
    as (-> & Hv & Hsn' & cancels & Ht' & Hcancels).
  { unfold cancelCalls in Hquiet.
    destruct (deltaCancellations (values l) !! t) as [[c|]|].
    - destruct Hquiet as [|Hq]; [done|].
      unfold processAll in Hd. cbn in Hd. rewrite Hre, Hq in Hd.
      injection Hd as <- <-. split_and!; [done..|]. by exists [CallCancel c].
    - injection Hd as <- <-. split_and!; [done..|]. exists [].
      by rewrite app_nil_r.
    - injection Hd as <- <-. split_and!; [done..|]. exists [].
      by rewrite app_nil_r. }
  destruct Hl' as [-> _].
  assert (trace (watching s ld req1)
          = trace l ++ (nackLog s req ++ logs ++ requestCalls s streamID req1)
              ++ cancels
              ++ [CallCreateDeltaWatch req1
                    (default stream.zero
                       (deltaStreamStates (values ld) !! t))]) as Htw.
  { cbn. by rewrite Ht', Ht, <- !app_assoc. }
  rewrite (emitted_app _ _ _ Htw), sent_app, Hpre, sent_app, Hcancels. cbn.
  rewrite Hv, Hsn', Hno, Hre, Hca. split_and!; [done..|].
  intros t' Hne. change (discovery.TypeUrl req1) with t.
  by rewrite lookup_insert_ne.
Qed.

(** ** Construction of the server *)

Lemma NewServer_snoc config cbs lg opts opt :
  NewServer config cbs lg (opts ++ [opt])
  = opt (NewServer config cbs lg opts).
Proof. unfold NewServer. by rewrite foldl_app. Qed.

(** X13. A server built by [NewServer] from buffer options keeps the
    cache, the callback sink and the logger it was given and starts with
    no stream counted; of the options of one kind the last one wins, and
    without any the sizes are 1 and 8.  A stream of such a server gets a
    channel of the ADS size if its default type URL is [AnyType], and of
    the xDS size otherwise. *)
Theorem NewServer_buffer_sizes Any URLs config cbs lg (os : list BufferOption)
    d :
  let s := NewServer config cbs lg (toServerOption <$> os) in
  CreateDeltaWatch s = config ∧ callbacks s = cbs ∧ log s = lg
  ∧ streamCount s = 0
  ∧ muxBufferSize s = default 8 (last (omap adsSize os))
  ∧ xdsBufferSize s = default 1 (last (omap xdsSize os))
  ∧ deltaResponsesCap (values (entered Any URLs s d))
    = if decide (d = Any)
      then default 8 (last (omap adsSize os))
      else default 1 (last (omap xdsSize os)).
Proof.
  intros s.
  assert (CreateDeltaWatch s = config ∧ callbacks s = cbs ∧ log s = lg
          ∧ streamCount s = 0
          ∧ muxBufferSize s = default 8 (last (omap adsSize os))
          ∧ xdsBufferSize s = default 1 (last (omap xdsSize os)))
    as (Hc & Hcb & Hlg & Hsc & Hmux & Hxds).
  { unfold s. induction os as [|o os IH] using rev_ind; [done|].
    rewrite fmap_app. cbn [fmap list_fmap]. rewrite NewServer_snoc.
    destruct IH as (Hc & Hcb & Hlg & Hsc & Hmux & Hxds).
    rewrite !omap_app. destruct o as [size|size]; cbn;
      rewrite ?last_snoc, ?app_nil_r; by split_and!. }
  split_and!; [done..|]. cbn. case_decide; congruence.
Qed.

(** ** A response and its acknowledgement *)

Lemma process_ok_store s str streamID l r l' :
  process s str streamID l (Some r) = (l', None) →
  let t := discovery.TypeUrl (cache.GetDeltaRequest r) in
  let nonce := FormatInt (wrap64 (streamNonce l + 1)) in
  ∃ sv vm,
    cache.GetSystemVersion r = Ok sv ∧ cache.GetDeltaVersionMap r = Ok vm
    ∧ deltaNonces (values l') !! t = Some nonce
    ∧ deltaCancellations (values l') !! t = Some None
    ∧ deltaStreamStates (values l') !! t
      = Some {| stream.Nonce := nonce; stream.SystemVersion := sv;
                stream.ResourceVersions := vm |}.
Proof.
  intros Hp t nonce.
  destruct (process_inv _ _ _ _ _ _ _ Hp)
    as [[-> Herr]|(r' & out & [= <-] & Hout)]; [by destruct Herr|].
  destruct (process_sent _ _ _ _ _ _ _ _ Hout Hp) as (_ & _ & _ & _ & _ & Hrec).
  destruct (Send str _ _) as [e|]; [by destruct Hrec|].
  destruct Hrec as (Hn & Hc & Hs & Herr). fold t nonce in Hn, Hc, Hs, Herr.
  destruct (update_cases r nonce)
    as [(sv & vm & Hsv & Hvm & Hup)|(e & _ & Hup)];
    rewrite Hup in Herr; [|done].
  exists sv, vm. rewrite Hn, Hc, Hs, Hup, !lookup_insert_eq. by split_and!.
Qed.

(** X14. A response and its acknowledgement.  After [process] has sent a
    response, a request for the same type that echoes the nonce of that
    response and is handled to the end creates a watch and nothing more:
    no handle is cancelled, because [process] set the handle of the type
    to nil, so nothing is drained or sent either, and the state handed to
    the cache is the nonce, system version and version map recorded from
    that response, less the names the request unsubscribes from. *)
Theorem ack_after_response Any s str streamID d l r l1 req l2 :
  process s str streamID l (Some r) = (l1, None) →
  onRequest Any s str streamID d l1 (Some req) = (l2, Continue) →
  resolvedTypeUrl Any d req = discovery.TypeUrl (cache.GetDeltaRequest r) →
  discovery.ResponseNonce req = FormatInt (wrap64 (streamNonce l + 1)) →
  let u := discovery.ResourceNamesUnsubscribe req in
  let req1 := normalised Any d l1 req in
  ∃ sv vm,
    cache.GetSystemVersion r = Ok sv ∧ cache.GetDeltaVersionMap r = Ok vm
    ∧ emitted l1 l2
      = nackLog s req ++ unsubscribeLog s u ++ requestCalls s streamID req1
          ++ [CallCreateDeltaWatch req1
                (unsubscribedFrom u
                   {| stream.Nonce := discovery.ResponseNonce req;
                      stream.SystemVersion := sv;
                      stream.ResourceVersions := vm |})].
Proof.
  intros Hp Hr Ht Hn u req1.
  destruct (process_ok_store _ _ _ _ _ _ Hp) as (sv & vm & Hsv & Hvm & Hno & Hca & Hst).
  rewrite <- Ht, <- Hn in *.
  assert (cancelCalls (values l1) (resolvedTypeUrl Any d req) = []) as Hquiet
    by (unfold cancelCalls; by rewrite Hca).
  destruct (onRequest_direct _ _ _ _ _ _ _ _ Hr (or_introl Hquiet))
    as (_ & _ & Hgo).
  destruct Hgo as [-> _]; [by right|].
  exists sv, vm. rewrite Hquiet, Hst. cbn. by rewrite <- !app_assoc.
Qed.

(** ** A watch that is never answered *)



(** * The older handler *)

Lemma Kind_eqb_eq k k' : serverv2.Kind_eqb k k' = true ↔ k = k'.
Proof. destruct k, k'; by split. Qed.

Lemma Kind_eqb_refl k : serverv2.Kind_eqb k k = true.
Proof. by apply Kind_eqb_eq. Qed.

Lemma kinds_all k : k ∈ serverv2.kinds.
Proof.
  unfold serverv2.kinds.
  destruct k; repeat (first [by left | right]).
Qed.

Lemma v2_emitted_app l l' evs :
  serverv2.trace l' = serverv2.trace l ++ evs → serverv2.emitted l l' = evs.
Proof. unfold serverv2.emitted. intros ->. by rewrite drop_app_length. Qed.

(** The first case of the [switch] that holds is a case that holds, and
    there is one whenever some case holds. *)
Lemma firstCase_Some rt v t nonce k :
  serverv2.firstCase rt v t nonce = Some k →
  t = rt k
  ∧ (serverv2.deltaNonce v k = "" ∨ serverv2.deltaNonce v k = nonce).
Proof.
  unfold serverv2.firstCase. intros [_ H]%List.find_some.
  by apply bool_decide_eq_true in H.
Qed.

Lemma firstCase_None rt v t nonce :
  serverv2.firstCase rt v t nonce = None →
  ∀ k, t = rt k →
       serverv2.deltaNonce v k ≠ "" ∧ serverv2.deltaNonce v k ≠ nonce.
Proof.
  unfold serverv2.firstCase. intros H k Ht.
  assert (List.In k serverv2.kinds) as Hin by apply list_elem_of_In, kinds_all.
  pose proof (List.find_none _ _ H k Hin) as Hk. cbn beta in Hk.
  apply bool_decide_eq_false in Hk.
  split; intros ?; apply Hk; auto.
Qed.

Lemma firstCase_only rt v t nonce k :
  t = rt k → (∀ k', rt k' = rt k → k' = k) →
  serverv2.deltaNonce v k = "" ∨ serverv2.deltaNonce v k = nonce →
  serverv2.firstCase rt v t nonce = Some k.
Proof.
  intros Ht Hinj Hn.
  destruct (serverv2.firstCase rt v t nonce) as [k'|] eqn:Hf.
  - apply firstCase_Some in Hf as [Hk' _]. f_equal. apply Hinj. congruence.
  - destruct (firstCase_None _ _ _ _ Hf k Ht) as [? ?]. by destruct Hn.
Qed.

Arguments serverv2.firstCase : simpl never.

(** The request arm of the older handler, case by case. *)
Lemma v2_onRequest_cases Any rt s streamID d l req l' out :
  serverv2.onRequest Any rt s streamID d l (Some req) = (l', out) →
  let req1 := serverv2.normalised Any d l req in
  let nonce := serverv2.comparedNonce l req in
  let pre := serverv2.preamble s streamID req req1 in
  serverv2.streamNonce l' = serverv2.streamNonce l
  ∧ serverv2.deltaVersions l' = serverv2.deltaVersions l
  ∧ serverv2.node l' = default (serverv2.node l) (discovery.Node req)
  ∧ ((d = Any ∧ discovery.TypeUrl req = ""
      ∧ out = Return (Some (status_Errorf InvalidArgument
                              "type URL is required for ADS"))
      ∧ serverv2.values l' = serverv2.values l
      ∧ List.filter serverv2.isCreateDeltaWatch (serverv2.emitted l l') = []
      ∧ List.filter serverv2.isCancel (serverv2.emitted l l') = [])
     ∨ (¬ (d = Any ∧ discovery.TypeUrl req = "")
        ∧ ((∃ e, serverv2.verdict s streamID l req req1 = Some e
                 ∧ out = Return (Some e)
                 ∧ serverv2.values l' = serverv2.values l
                 ∧ serverv2.trace l' = serverv2.trace l ++ pre)
           ∨ (serverv2.verdict s streamID l req req1 = None
              ∧ serverv2.firstCase rt (serverv2.values l)
                  (discovery.TypeUrl req1) nonce = None
              ∧ out = Continue
              ∧ serverv2.values l' = serverv2.values l
              ∧ serverv2.trace l' = serverv2.trace l ++ pre)
           ∨ (serverv2.verdict s streamID l req req1 = None
              ∧ ∃ k,
                  serverv2.firstCase rt (serverv2.values l)
                    (discovery.TypeUrl req1) nonce = Some k
                  ∧ out = Continue
                  ∧ let cancels :=
                      match serverv2.deltaCancel (serverv2.values l) k with
                      | Some c => [serverv2.CallCancel c]
                      | None => []
                      end in
                    let version :=
                      default "" (serverv2.deltaVersions l
                                    !! discovery.TypeUrl req1) in
                    serverv2.trace l'
                    = serverv2.trace l ++ pre ++ cancels
                        ++ [serverv2.CallCreateDeltaWatch req1 version]
                    ∧ serverv2.values l'
                      = serverv2.set_deltaCancel k
                          (serverv2.CreateDeltaWatch s
                             (serverv2.trace l ++ pre ++ cancels)
                             req1 version)
                          (serverv2.values l))))).
Proof.
  unfold serverv2.onRequest, serverv2.normalised, serverv2.comparedNonce,
    serverv2.preamble, serverv2.verdict.
  intros H. cbn zeta.
  destruct (discovery.ErrorDetail req) as [detail|] eqn:Hdetail;
    destruct (discovery.Node req) as [n|] eqn:Hnode; cbn in H |- *;
    (destruct (decide (d = Any ∧ _)) as [[Hd Ht]|Hads];
     [injection H as <- <-; cbn; split_and!; [done..|]; left;
      unfold serverv2.emitted; cbn;
      rewrite ?drop_app_length, ?drop_all; by split_and!|]);
    set (req1 := if decide (d ≠ Any ∧ _) then _ else _) in *;
    clearbody req1;
    (destruct (serverv2.callbacks s) as [cb|] eqn:Hcb;
     [destruct (serverv2.OnStreamDeltaRequest cb _ _ _) as [e|] eqn:Hv|]);
    try (injection H as <- <-; cbn; split_and!; [done..|]; right;
         split; [done|]; left; exists e; cbn;
         by rewrite ?app_nil_r, ?Hv, <- ?app_assoc);
    cbn in H;
    (destruct (serverv2.firstCase _ _ _ _) as [k|] eqn:Hk;
     [destruct (serverv2.deltaCancel _ k) as [c|] eqn:Hc|]);
    cbn in H; injection H as <- <-; cbn; (split_and!; [done..|]); right;
    (split; [done|]); right.
  all: first [ left; by rewrite ?app_nil_r, ?Hv, <- ?app_assoc
             | right; split; [by rewrite ?app_nil_r, ?Hv|]; exists k;
               rewrite ?Hc; by rewrite ?app_nil_r, <- ?app_assoc ].
Qed.

(** A response arm of the older handler that lets the loop go on. *)
Lemma v2_onResponse_continue rt voe s str streamID k l r l1 :
  serverv2.onResponse rt voe s str streamID k l (Some (Some r))
  = (l1, Continue) →
  let nonce := FormatInt (wrap64 (serverv2.streamNonce l + 1)) in
  ∃ out sv,
    cache.GetDeltaDiscoveryResponse r = Ok out
    ∧ cache.GetSystemVersion r = Ok sv
    ∧ serverv2.streamNonce l1 = wrap64 (serverv2.streamNonce l + 1)
    ∧ serverv2.node l1 = serverv2.node l
    ∧ serverv2.values l1
      = serverv2.set_deltaNonce k nonce (serverv2.values l)
    ∧ serverv2.deltaVersions l1
      = <[discovery.TypeUrl (cache.GetDeltaRequest r) := sv]>
          (serverv2.deltaVersions l)
    ∧ serverv2.trace l1
      = serverv2.trace l
          ++ match serverv2.callbacks s with
             | Some _ =>
               [serverv2.CallOnStreamDeltaResponse streamID
                  (cache.GetDeltaRequest r) (discovery.set_Nonce nonce out)]
             | None => []
             end
          ++ [serverv2.CallSend (discovery.set_Nonce nonce out)].
Proof.
  intros H nonce.
  unfold serverv2.onResponse, serverv2.send, serverv2.createDeltaResponse
    in H.
  destruct (cache.GetDeltaDiscoveryResponse r) as [out|e]; [|done].
  cbn in H. destruct (serverv2.Send str _ _); [done|].
  destruct (cache.GetSystemVersion r) as [sv|e]; [|done].
  injection H as <-. exists out, sv.
  destruct (serverv2.callbacks s); cbn; by rewrite <- ?app_assoc.
Qed.

Lemma v2_filter_create_snoc pre req version :
  Forall (λ e, serverv2.isCreateDeltaWatch e = false) pre →
  List.filter serverv2.isCreateDeltaWatch
    (pre ++ [serverv2.CallCreateDeltaWatch req version])
  = [serverv2.CallCreateDeltaWatch req version].
Proof.
  intros Hpre. rewrite List.filter_app. cbn.
  replace (List.filter serverv2.isCreateDeltaWatch pre) with (@nil serverv2.Event);
    [done|].
  induction Hpre as [|e pre He _ IH]; [done|]. cbn. by rewrite He.
Qed.

Lemma v2_preamble_quiet s streamID req req1 :
  Forall (λ e, serverv2.isCreateDeltaWatch e = false)
    (serverv2.preamble s streamID req req1)
  ∧ List.filter serverv2.isCancel (serverv2.preamble s streamID req req1) = [].
Proof.
  unfold serverv2.preamble.
  destruct (discovery.ErrorDetail req), (serverv2.callbacks s); cbn;
    split; by repeat constructor.
Qed.

(** X16. The watch decision of the older handler.  A request creates at
    most one watch, and creates one exactly when its arm runs to the end
    and its type URL is one of the six resource types whose nonce on
    record is empty or equal to the nonce compared with, which is the
    response nonce of the request only if the request carries a node and
    the decimal of the stream counter otherwise.  The arm never writes the
    nonces on record, the counter or the versions, and when it creates no
    watch, for one because the type URL is none of the six, it calls no
    cancel handle and leaves the handles as they are. *)
Theorem v2_watch_created_iff Any rt s streamID d l req l' out :
  serverv2.onRequest Any rt s streamID d l (Some req) = (l', out) →
  let t := resolvedTypeUrl Any d req in
  let nonce := serverv2.comparedNonce l req in
  let created :=
    List.filter serverv2.isCreateDeltaWatch (serverv2.emitted l l') in
  (length created ≤ 1)%nat
  ∧ (length created = 1%nat
     ↔ out = Continue
       ∧ ∃ k, t = rt k
              ∧ (serverv2.deltaNonce (serverv2.values l) k = ""
                 ∨ serverv2.deltaNonce (serverv2.values l) k = nonce))
  ∧ (∀ k, serverv2.deltaNonce (serverv2.values l') k
          = serverv2.deltaNonce (serverv2.values l) k)
  ∧ serverv2.streamNonce l' = serverv2.streamNonce l
  ∧ serverv2.deltaVersions l' = serverv2.deltaVersions l
  ∧ (created = [] →
     serverv2.values l' = serverv2.values l
     ∧ List.filter serverv2.isCancel (serverv2.emitted l l') = []).
Proof.
  intros H t nonce created.
  assert (discovery.TypeUrl (serverv2.normalised Any d l req) = t) as Ht.
  { unfold serverv2.normalised, t, resolvedTypeUrl.
    destruct (discovery.Node req); cbn; by case_decide. }
  destruct (v2_onRequest_cases _ _ _ _ _ _ _ _ _ H)
    as (Hn & Hv & _ & Hcases).
  rewrite Ht in Hcases. fold nonce in Hcases.
  destruct (v2_preamble_quiet s streamID req (serverv2.normalised Any d l req))
    as [Hpre Hprec].
  destruct Hcases
    as [(_ & _ & -> & Hval & Hcr & Hca)
       |(_ & [(e & _ & -> & Hval & Htr)
             |[(_ & Hnone & -> & Hval & Htr)
              |(_ & k & Hsome & -> & Htr & Hval)]])].
  - unfold created. rewrite Hcr, Hval. cbn.
    split_and!; [lia| |done..]. split; [done|]. by intros [[=] _].
  - assert (created = []) as Hcr.
    { unfold created. rewrite (v2_emitted_app _ _ _ Htr).
      clear -Hpre. induction Hpre as [|? ? He _ IH]; [done|].
      cbn. by rewrite He. }
    rewrite Hcr, Hval, (v2_emitted_app _ _ _ Htr). cbn.
    split_and!; [lia| |done..]. split; [done|]. by intros [[=] _].
  - assert (created = []) as Hcr.
    { unfold created. rewrite (v2_emitted_app _ _ _ Htr).
      clear -Hpre. induction Hpre as [|? ? He _ IH]; [done|].
      cbn. by rewrite He. }
    rewrite Hcr, Hval, (v2_emitted_app _ _ _ Htr). cbn.
    split_and!; [lia| |done..]. split; [done|].
    intros [_ (k & Hk & Hnk)].
    destruct (firstCase_None _ _ _ _ Hnone k Hk). by destruct Hnk.
  - cbn zeta in Htr, Hval.
    assert (created = [serverv2.CallCreateDeltaWatch
                         (serverv2.normalised Any d l req)
                         (default "" (serverv2.deltaVersions l !! t))]) as Hcr.
    { unfold created. rewrite (v2_emitted_app _ _ _ Htr), app_assoc.
      apply v2_filter_create_snoc. apply Forall_app. split; [done|].
      destruct (serverv2.deltaCancel _ k); by repeat constructor. }
    rewrite Hcr, Hval. cbn. split_and!; [lia| |done..].
    split; [|done]. intros _. split; [done|]. exists k.
    by apply firstCase_Some in Hsome.
Qed.

Lemma v2_normalised_TypeUrl Any d l req :
  discovery.TypeUrl (serverv2.normalised Any d l req)
  = resolvedTypeUrl Any d req.
Proof.
  unfold serverv2.normalised, resolvedTypeUrl.
  destruct (discovery.Node req); cbn; by case_decide.
Qed.

Lemma v2_filter_quiet pre :
  Forall (λ e, serverv2.isCreateDeltaWatch e = false) pre →
  List.filter serverv2.isCreateDeltaWatch pre = [].
Proof. induction 1 as [|? ? He _ IH]; [done|]. cbn. by rewrite He. Qed.

(** A request whose type has no case of the [switch] that holds. *)
Lemma v2_no_case_no_watch Any rt s streamID d l req l' out :
  serverv2.onRequest Any rt s streamID d l (Some req) = (l', out) →
  (∀ k, resolvedTypeUrl Any d req = rt k →
        serverv2.deltaNonce (serverv2.values l) k ≠ ""
        ∧ serverv2.deltaNonce (serverv2.values l) k
          ≠ serverv2.comparedNonce l req) →
  serverv2.values l' = serverv2.values l
  ∧ List.filter serverv2.isCreateDeltaWatch (serverv2.emitted l l') = []
  ∧ List.filter serverv2.isCancel (serverv2.emitted l l') = [].
Proof.
  intros H Hstale.
  destruct (v2_onRequest_cases _ _ _ _ _ _ _ _ _ H) as (_ & _ & _ & Hcases).
  rewrite v2_normalised_TypeUrl in Hcases.
  destruct (v2_preamble_quiet s streamID req (serverv2.normalised Any d l req))
    as [Hpre Hprec].
  destruct Hcases
    as [(_ & _ & -> & Hval & Hcr & Hca)
       |(_ & [(e & _ & -> & Hval & Htr)
             |[(_ & Hnone & -> & Hval & Htr)
              |(_ & k & Hsome & _)]])].
  - done.
  - rewrite (v2_emitted_app _ _ _ Htr). by rewrite v2_filter_quiet.
  - rewrite (v2_emitted_app _ _ _ Htr). by rewrite v2_filter_quiet.
  - apply firstCase_Some in Hsome as [Hk Hn].
    destruct (Hstale k Hk). by destruct Hn.
Qed.

(** A request whose type has one case of the [switch], which holds. *)
Lemma v2_case_watch Any rt s streamID d l req l' k :
  serverv2.onRequest Any rt s streamID d l (Some req) = (l', Continue) →
  resolvedTypeUrl Any d req = rt k →
  (∀ k', rt k' = rt k → k' = k) →
  serverv2.deltaNonce (serverv2.values l) k = ""
  ∨ serverv2.deltaNonce (serverv2.values l) k
    = serverv2.comparedNonce l req →
  let req1 := serverv2.normalised Any d l req in
  let cancels := match serverv2.deltaCancel (serverv2.values l) k with
                 | Some c => [serverv2.CallCancel c]
                 | None => []
                 end in
  let version := default "" (serverv2.deltaVersions l !! rt k) in
  serverv2.emitted l l'
  = serverv2.preamble s streamID req req1 ++ cancels
      ++ [serverv2.CallCreateDeltaWatch req1 version]
  ∧ serverv2.deltaCancel (serverv2.values l') k
    = serverv2.CreateDeltaWatch s
        (serverv2.trace l ++ serverv2.preamble s streamID req req1
           ++ cancels) req1 version.
Proof.
  intros H Ht Hinj Hn req1 cancels version.
  destruct (v2_onRequest_cases _ _ _ _ _ _ _ _ _ H) as (_ & _ & _ & Hcases).
  rewrite v2_normalised_TypeUrl, Ht in Hcases.
  rewrite (firstCase_only rt _ _ _ k eq_refl Hinj Hn) in Hcases.
  destruct Hcases
    as [(_ & _ & [=] & _)
       |(_ & [(e & _ & [=] & _)
             |[(_ & [=] & _)|(_ & k' & [= <-] & _ & Htr & Hval)]])].
  cbn zeta in Htr, Hval. fold req1 cancels version in Htr, Hval.
  split; [by apply v2_emitted_app|].
  rewrite Hval. cbn. by rewrite Kind_eqb_refl.
Qed.

Lemma wrap64_succ_ne z : wrap64 (wrap64 z + 1) ≠ wrap64 z.
Proof.
  rewrite wrap64_succ. unfold wrap64.
  replace (z + 1 + 2 ^ 63) with ((z + 2 ^ 63) + 1) by lia.
  rewrite <- (Zplus_mod_idemp_l (z + 2 ^ 63)).
  pose proof (Z.mod_pos_bound (z + 2 ^ 63) (2 ^ 64) ltac:(lia)) as Hb.
  set (a := (z + 2 ^ 63) mod 2 ^ 64) in *. clearbody a.
  destruct (decide (a + 1 < 2 ^ 64)) as [Hlt|Hge].
  - rewrite Z.mod_small by lia. lia.
  - replace (a + 1) with (2 ^ 64) by lia. rewrite Z.mod_same by lia. lia.
Qed.

Lemma FormatInt_inj a b : FormatInt a = FormatInt b → a = b.
Proof.
  intros H. apply (f_equal ParseInt) in H.
  rewrite !ParseInt_FormatInt in H. by injection H.
Qed.

(** X17. A response and its acknowledgement, in the older handler.  After
    a response arm has sent a response for a type, a request for that type
    that is handled to the end creates a watch if it echoes the nonce of
    the response, or if it carries no node, whatever its nonce.  The cancel
    handle of the answered watch, which the response arm left in place, is
    called first if it is not nil, and the cache is handed the system
    version of the response as the version the client has. *)
Theorem v2_ack_after_response Any rt voe s str streamID d k l r l1 req l2 :
  serverv2.onResponse rt voe s str streamID k l (Some (Some r))
  = (l1, Continue) →
  serverv2.onRequest Any rt s streamID d l1 (Some req) = (l2, Continue) →
  discovery.Node req = None
  ∨ discovery.ResponseNonce req
    = FormatInt (wrap64 (serverv2.streamNonce l + 1)) →
  resolvedTypeUrl Any d req = rt k →
  discovery.TypeUrl (cache.GetDeltaRequest r) = rt k →
  (∀ k', rt k' = rt k → k' = k) →
  ∃ sv,
    cache.GetSystemVersion r = Ok sv
    ∧ serverv2.emitted l1 l2
      = serverv2.preamble s streamID req (serverv2.normalised Any d l1 req)
          ++ match serverv2.deltaCancel (serverv2.values l) k with
             | Some c => [serverv2.CallCancel c]
             | None => []
             end
          ++ [serverv2.CallCreateDeltaWatch
                (serverv2.normalised Any d l1 req) sv].
Proof.
  intros Hresp Hreq Hnonce Ht Hr Hinj.
  destruct (v2_onResponse_continue _ _ _ _ _ _ _ _ _ Hresp)
    as (out & sv & _ & Hsv & Hsn & _ & Hval & Hver & _).
  exists sv. split; [done|].
  destruct (v2_case_watch _ _ _ _ _ _ _ _ k Hreq Ht Hinj) as [-> _].
  - right. rewrite Hval. cbn. rewrite Kind_eqb_refl.
    unfold serverv2.comparedNonce. rewrite Hsn.
    destruct Hnonce as [->|Hn]; [done|]. by destruct (discovery.Node req).
  - rewrite Hval, Hver, Hr, lookup_insert_eq. done.
Qed.

(** X18. In the older handler a request without node is not compared by
    its own nonce but by the stream counter, the nonce of the last
    response sent on the stream.  So once a response for another type has
    been sent after the response for its type, a request without node
    creates no watch and has no handle cancelled, even if it echoes the
    nonce of the response for its type. *)
Theorem v2_nodeless_ack_of_earlier_response_dropped
    Any rt voe s str streamID d k k2 l r1 l1 r2 l2 req l3 out :
  serverv2.onResponse rt voe s str streamID k l (Some (Some r1))
  = (l1, Continue) →
  serverv2.onResponse rt voe s str streamID k2 l1 (Some (Some r2))
  = (l2, Continue) →
  k2 ≠ k →
  serverv2.onRequest Any rt s streamID d l2 (Some req) = (l3, out) →
  discovery.Node req = None →
  resolvedTypeUrl Any d req = rt k →
  (∀ k', rt k' = rt k → k' = k) →
  serverv2.deltaNonce (serverv2.values l2) k
  = FormatInt (wrap64 (serverv2.streamNonce l + 1))
  ∧ serverv2.values l3 = serverv2.values l2
  ∧ List.filter serverv2.isCreateDeltaWatch (serverv2.emitted l2 l3) = []
  ∧ List.filter serverv2.isCancel (serverv2.emitted l2 l3) = [].
Proof.
  intros Hr1 Hr2 Hne Hreq Hnode Ht Hinj.
  destruct (v2_onResponse_continue _ _ _ _ _ _ _ _ _ Hr1)
    as (_ & _ & _ & _ & Hsn1 & _ & Hval1 & _).
  destruct (v2_onResponse_continue _ _ _ _ _ _ _ _ _ Hr2)
    as (_ & _ & _ & _ & Hsn2 & _ & Hval2 & _).
  assert (serverv2.deltaNonce (serverv2.values l2) k
          = FormatInt (wrap64 (serverv2.streamNonce l + 1))) as Hk.
  { rewrite Hval2, Hval1. cbn. rewrite Kind_eqb_refl.
    destruct (serverv2.Kind_eqb k k2) eqn:Heq; [|done].
    apply Kind_eqb_eq in Heq. by subst. }
  split; [done|].
  apply (v2_no_case_no_watch _ _ _ _ _ _ _ _ _ Hreq).
  intros k' Hk'. assert (k' = k) as -> by (apply Hinj; congruence).
  rewrite Hk. split; [apply FormatInt_nonempty|].
  unfold serverv2.comparedNonce. rewrite Hnode, Hsn2, Hsn1.
  intros Heq%FormatInt_inj. by apply (wrap64_succ_ne (serverv2.streamNonce l + 1)).
Qed.

(** * The validator of [KillRequest] *)

(** X19. [Validate] accepts a nil message, and accepts a message exactly
    when the validator of [Probability] accepts that field or the field
    has no validator.  The error it returns otherwise names the field
    Probability, is no key error, has the error of the embedded validator
    as its cause, and reads "invalid KillRequest.Probability: embedded
    message failed validation | caused by: " followed by the text of the
    cause. *)
Theorem Validate_wraps_embedded_error (P : Type) (has : bool)
    (validate : option P → option kill_request.CauseError)
    (m : kill_request.KillRequest P) :
  kill_request.Validate P has validate None = None
  ∧ (kill_request.Validate P has validate (Some m) = None
     ↔ has = false ∨ validate (kill_request.Probability P m) = None)
  ∧ ∀ e,
      kill_request.Validate P has validate (Some m) = Some e →
      ∃ cause,
        validate (kill_request.Probability P m) = Some cause
        ∧ kill_request.Field e = "Probability"
        ∧ kill_request.Reason e = "embedded message failed validation"
        ∧ kill_request.Key e = false
        ∧ kill_request.Cause e = Some cause
        ∧ kill_request.Error e
          = "invalid KillRequest.Probability: embedded message failed validation | caused by: "
              +:+ kill_request.ErrorText cause.
Proof.
  unfold kill_request.Validate. split_and!; [done| |].
  - destruct has; [|split; [by left|done]].
    destruct (validate _); split; [done|by intros [|]|by right|done].
  - intros e. destruct has; [|done].
    destruct (validate _) as [cause|]; [|done].
    intros [= <-]. by exists cause.
Qed.

(** * The theorems at work on the scenarios *)

(** A stream with a live watch ends: the store is left as it is. *)
Lemma teardown_cancels_live_watches_witness :
  values (teardown controlPlane 1 (xds transport watched))
  = values (xds transport watched).
Proof.
  destruct (teardown_cancels_live_watches controlPlane 1
              (xds transport watched)) as (ts & cancels & _ & _ & _ & _ & Hv).
  exact Hv.
Defined.

(** The client sends a nil request after it has been served. *)
Lemma loop_ends_on_witness :
  processDelta "" [ClusterType] controlPlane transport ClusterType
    (served ++ [RecvRequest None])
  = (teardown controlPlane (wrap64 (streamCount controlPlane + 1))
       (xds transport served),
     Return (Some (status_Errorf Unavailable "empty request"))).
Proof.
  destruct (loop_ends_on "" [ClusterType] controlPlane transport ClusterType
              served [] (xds transport served)) as (_ & _ & H).
  - vm_compute. reflexivity.
  - exact H.
Defined.

(** The cache puts a nil response into the channel. *)
Lemma refused_response_ends_stream_witness :
  let l := xds transport (served ++ [Produce None]) in
  step "" controlPlane transport 1 ClusterType l RecvResponse
  = (receiving [] l, Return (Some (errors_New "missing response"))).
Proof.
  intros l.
  destruct (refused_response_ends_stream "" controlPlane transport 1
              ClusterType l None [] (errors_New "missing response"))
    as [H _].
  - vm_compute. reflexivity.
  - reflexivity.
  - exact H.
Defined.

(** The transport breaks on the second response. *)
Lemma failed_send_records_nothing_witness :
  let l := xds breakingTransport served in
  let r := process controlPlane breakingTransport 1 l (Some clusters) in
  r.2 = Some (errors_New "transport is closing")
  ∧ values r.1 = values l.
Proof.
  intros l r.
  destruct (failed_send_records_nothing controlPlane breakingTransport 1 l
              clusters
              {| discovery.SystemVersionInfo := "v1";
                 discovery.Resources := [("c1", "a")];
                 discovery.ResponseTypeUrl := ClusterType;
                 discovery.RemovedResources := [];
                 discovery.Nonce := "" |}
              (errors_New "transport is closing") r.1 r.2)
    as (He & Hv & _).
  - reflexivity.
  - vm_compute. reflexivity.
  - apply surjective_pairing.
  - split; [exact He|exact Hv].
Defined.

(** The first response of the scenarios. *)
Lemma process_writes_one_type_witness :
  let l := xds transport [RecvRequest (Some subscribe)] in
  let l' := (process controlPlane transport 1 l (Some clusters)).1 in
  node l' = node l
  ∧ deltaResponses (values l') = deltaResponses (values l).
Proof.
  intros l l'.
  destruct (process_writes_one_type controlPlane transport 1 l clusters l'
              (process controlPlane transport 1 l (Some clusters)).2)
    as (_ & Hn & Hq & _).
  - apply surjective_pairing.
  - split; [exact Hn|exact Hq].
Defined.

(** A name of the map and a name that is not in it. *)
Lemma unsubscribe_deletes_names_witness :
  let l := xds transport [] in
  let r := unsubscribe controlPlane ["c1"; "c9"] (Some {["c1" := "a"]}) l in
  trace r.2 = trace l ++ unsubscribeLog controlPlane ["c1"; "c9"]
  ∧ values r.2 = values l.
Proof.
  intros l r.
  destruct (unsubscribe_deletes_names controlPlane ["c1"; "c9"]
              (Some {["c1" := "a"]}) l r.1 r.2)
    as (_ & _ & Ht & Hv & _).
  - apply surjective_pairing.
  - split; [exact Ht|exact Hv].
Defined.

(** The client drops c1 as it acknowledges the clusters. *)
Lemma unsubscribe_then_watch_witness :
  let l := xds transport served in
  let l' := (arm transport l unsubscribing).1 in
  deltaStreamStates (values l') !! ClusterType
  = unsubscribedFrom ["c1"] <$> deltaStreamStates (values l) !! ClusterType.
Proof.
  intros l l'.
  destruct (unsubscribe_then_watch "" controlPlane transport 1 ClusterType l
              unsubscribing l') as [H _].
  - vm_compute. reflexivity.
  - left. vm_compute. reflexivity.
  - exact (H ClusterType).
Defined.

(** The subscription of the scenarios is the first request. *)
Lemma first_watch_state_witness :
  let l := entered "" [ClusterType] controlPlane ClusterType in
  let l' := (arm transport l subscribe).1 in
  last (emitted l l')
  = Some (CallCreateDeltaWatch (normalised "" ClusterType l subscribe)
            emptyStreamState).
Proof.
  intros l l'.
  destruct (first_watch_state "" [ClusterType] controlPlane transport
              ClusterType subscribe l') as [_ H].
  - vm_compute. reflexivity.
  - exact H.
Defined.

(** The client answers with a nonce the stream never used. *)
Lemma unsent_nonce_creates_no_watch_witness :
  let l := xds transport served in
  watchesCreated (emitted l (arm transport l (ack "7")).1) = 0%nat.
Proof.
  intros l.
  assert (discovery.Nonce <$> sent (trace l) = ["1"]) as Hsent
    by (vm_compute; reflexivity).
  destruct (unsent_nonce_creates_no_watch "" [ClusterType] controlPlane
              transport ClusterType served l (ack "7")
              (arm transport l (ack "7")).1 (arm transport l (ack "7")).2)
    as (_ & H & _).
  - vm_compute. reflexivity.
  - apply surjective_pairing.
  - exists "1". vm_compute. reflexivity.
  - rewrite Hsent. clear. intros [H|H]%elem_of_cons.
    + discriminate H.
    + by apply elem_of_nil in H.
  - exact H.
Defined.

(** The calls of the scenario with a live watch. *)
Lemma calls_are_guarded_witness :
  Forall (permitted controlPlane (wrap64 (streamCount controlPlane + 1))
            ClusterType)
    (trace (processDelta "" [ClusterType] controlPlane transport ClusterType
              watched).1).
Proof.
  exact (calls_are_guarded "" [ClusterType] controlPlane transport
           ClusterType watched).
Defined.

(** Two responses are waiting. *)
Lemma processAll_sends_in_order_witness :
  let l := xds transport backlog in
  ∃ l', processAll controlPlane transport 1 l = (l', None)
        ∧ deltaResponses (values l') = [].
Proof.
  intros l.
  assert (deltaResponses (values l) = [Some clusters; Some clusters]) as Hq
    by (vm_compute; reflexivity).
  destruct (processAll_sends_in_order controlPlane transport 1 l)
    as (l' & H & Hempty & _).
  - rewrite Hq. clear.
    repeat constructor; eexists clusters, _, _, _; by split_and!.
  - reflexivity.
  - exists l'. split; [exact H|exact Hempty].
Defined.

(** The acknowledgement of the scenarios finds no handle to cancel. *)
Lemma request_without_drain_witness :
  let l := xds transport served in
  let l' := (arm transport l (ack "1")).1 in
  sent (emitted l l') = [] ∧ streamNonce l' = streamNonce l.
Proof.
  intros l l'.
  destruct (request_without_drain "" controlPlane transport 1 ClusterType l
              (ack "1") l' (arm transport l (ack "1")).2)
    as (Hs & Hn & _).
  - apply surjective_pairing.
  - left. vm_compute. reflexivity.
  - split; [exact Hs|exact Hn].
Defined.

(** Three options, two of them for ADS. *)
Lemma NewServer_buffer_sizes_witness :
  let s := NewServer (CreateDeltaWatch controlPlane) None false
             (toServerOption
                <$> [ADSBufferSize 16; XDSBufferSize 4; ADSBufferSize 32]) in
  muxBufferSize s = 32 ∧ xdsBufferSize s = 4.
Proof.
  intros s.
  destruct (NewServer_buffer_sizes "" [ClusterType]
              (CreateDeltaWatch controlPlane) None false
              [ADSBufferSize 16; XDSBufferSize 4; ADSBufferSize 32]
              ClusterType) as (_ & _ & _ & _ & Hm & Hx & _).
  split; [exact Hm|exact Hx].
Defined.

(** The clusters are sent and acknowledged. *)
Lemma ack_after_response_witness :
  let l := xds transport [RecvRequest (Some subscribe)] in
  let l1 := (process controlPlane transport 1 l (Some clusters)).1 in
  let l2 := (arm transport l1 (ack "1")).1 in
  let req1 := normalised "" ClusterType l1 (ack "1") in
  emitted l1 l2
  = [CallOnStreamDeltaRequest 1 req1;
     CallCreateDeltaWatch req1
       {| stream.Nonce := "1"; stream.SystemVersion := "v1";
          stream.ResourceVersions := Some {["c1" := "a"]} |}].
Proof.
  intros l l1 l2 req1.
  destruct (ack_after_response "" controlPlane transport 1 ClusterType l
              clusters l1 (ack "1") l2)
    as (sv & vm & Hsv & Hvm & H).
  - vm_compute. reflexivity.
  - vm_compute. reflexivity.
  - reflexivity.
  - vm_compute. reflexivity.
  - injection Hsv as <-. injection Hvm as <-. exact H.
Defined.


(** The subscription of the scenarios, on the older handler. *)
Lemma v2_watch_created_iff_witness :
  let r := olderArm olderEntered subscribe in
  (length (List.filter serverv2.isCreateDeltaWatch
             (serverv2.emitted olderEntered r.1)) ≤ 1)%nat
  ∧ serverv2.streamNonce r.1 = 0.
Proof.
  intros r.
  destruct (v2_watch_created_iff "" resourceTypes olderControlPlane 1
              ClusterType olderEntered subscribe r.1 r.2)
    as (Hle & _ & _ & Hn & _).
  - apply surjective_pairing.
  - split; [exact Hle|exact Hn].
Defined.

Lemma resourceTypes_Cluster k :
  resourceTypes k = resourceTypes serverv2.Cluster → k = serverv2.Cluster.
Proof. destruct k; intros H; first [reflexivity|discriminate H]. Qed.

(** The clusters are sent and acknowledged, on the older handler. *)
Lemma v2_ack_after_response_witness :
  let l1 := (olderResponse serverv2.Cluster olderEntered clusters).1 in
  let l2 := (olderArm l1 (ack "1")).1 in
  serverv2.emitted l1 l2
  = [serverv2.CallCreateDeltaWatch
       (serverv2.normalised "" ClusterType l1 (ack "1")) "v1"].
Proof.
  intros l1 l2.
  destruct (v2_ack_after_response "" resourceTypes (λ _, "")
              olderControlPlane olderTransport 1 ClusterType serverv2.Cluster
              olderEntered clusters l1 (ack "1") l2) as (sv & Hsv & H).
  - vm_compute. reflexivity.
  - vm_compute. reflexivity.
  - left. reflexivity.
  - reflexivity.
  - reflexivity.
  - apply resourceTypes_Cluster.
  - injection Hsv as <-. exact H.
Defined.

(** Clusters, then endpoints, then the acknowledgement of the clusters
    without node. *)
Lemma v2_nodeless_ack_of_earlier_response_dropped_witness :
  let l1 := (olderResponse serverv2.Cluster olderEntered clusters).1 in
  let l2 := (olderResponse serverv2.Endpoint l1 endpoints).1 in
  let l3 := (olderArm l2 (ack "1")).1 in
  serverv2.deltaNonce (serverv2.values l2) serverv2.Cluster = "1"
  ∧ List.filter serverv2.isCreateDeltaWatch (serverv2.emitted l2 l3) = [].
Proof.
  intros l1 l2 l3.
  destruct (v2_nodeless_ack_of_earlier_response_dropped "" resourceTypes
              (λ _, "") olderControlPlane olderTransport 1 ClusterType
              serverv2.Cluster serverv2.Endpoint olderEntered clusters l1
              endpoints l2 (ack "1") l3 (olderArm l2 (ack "1")).2)
    as (Hn & _ & Hc & _).
  - vm_compute. reflexivity.
  - vm_compute. reflexivity.
  - discriminate.
  - apply surjective_pairing.
  - reflexivity.
  - reflexivity.
  - apply resourceTypes_Cluster.
  - split; [exact Hn|exact Hc].
Defined.

(** A probability of 250 percent. *)
Lemma Validate_wraps_embedded_error_witness :
  kill_request.Error
    <$> kill_request.Validate Z true percentage (Some overkill)
  = Some "invalid KillRequest.Probability: embedded message failed validation | caused by: value out of range".
Proof.
  destruct (Validate_wraps_embedded_error Z true percentage overkill)
    as (_ & _ & H).
  destruct (kill_request.Validate Z true percentage (Some overkill))
    as [e|] eqn:He; [|discriminate He].
  destruct (H e eq_refl) as (cause & Hcause & _ & _ & _ & _ & Herr).
  injection Hcause as <-. cbn. f_equal. exact Herr.
Defined.
